(** * Checkpointed crawl pipeline: [main.py] and [tiki_queue.py]

    A shallow embedding of the two crawl scripts of the repository and the
    properties of their queue, fetch, normalisation and persistence steps.

    Modelling conventions.
    - A value decoded from a JSON body, or stored in a Python dict, is a
      [pyval].  A Python dict is an association list in insertion order;
      [dict_get] returns the binding of the first matching key.  A JSON
      float is represented by its exact rational value.
    - Code that may raise returns an [outcome]: [Returned v] or [Raised e].
      Every exception class that occurs derives from [Exception];
      cancellation of a task is outside the model.
    - The remote API is an oracle giving, for an id, the response to the
      k-th request (k from 0) issued for that id during the batch.
    - A fetch also produces the trace of the requests it issued and of the
      back-off sleeps it performed.
    - A database table is the list of its rows.  The position of a row in
      the list carries no meaning: a SELECT without ORDER BY may return
      the rows in any order, so the statements below speak of the rows a
      table holds and of the ids a selection returns, not of their order.
    - The columns are typed as the schema declares them ([tiki_product.py],
      [tiki_error.py], [tiki_queue.py] l. 99-107): [id] BIGINT PRIMARY KEY,
      [price] NUMERIC, the others TEXT.  The driver raises on an argument
      it cannot encode for its column, and the call that passed it writes
      nothing.  The model accepts a null for any column but [id], a
      64-bit integer for [id], a string without NUL for a TEXT column and
      a number for [price]; any other argument is taken as rejected.
    - [asyncio.as_completed] yields the fetches of a batch in an order the
      code does not control; [process_batch] therefore takes the ids of
      the batch in completion order. *)

From Stdlib Require Import List ZArith QArith String Bool Lia Arith Permutation.
Import ListNotations.
Local Open Scope string_scope.
Local Open Scope list_scope.
Local Open Scope Z_scope.
Set Warnings "-register-all".

(** ** Python values *)

Inductive pyval : Type :=
| PNone
| PBool (b : bool)
| PInt (n : Z)
| PFloat (x : Q)
| PStr (s : string)
| PList (items : list pyval)
| PDict (items : list (string * pyval)).

Definition pydict : Type := list (string * pyval).

(** [bool(v)]: the truth value Python gives to [v]. *)
Definition truthy (v : pyval) : bool :=
  match v with
  | PNone => false
  | PBool b => b
  | PInt n => negb (n =? 0)
  | PFloat x => negb (Qeq_bool x 0)
  | PStr s => negb (s =? "")%string
  | PList l => match l with [] => false | _ :: _ => true end
  | PDict l => match l with [] => false | _ :: _ => true end
  end.

(** [v is None] *)
Definition is_none (v : pyval) : bool :=
  match v with PNone => true | _ => false end.

(** [v == ""]: only the empty string compares equal to [""]. *)
Definition eq_empty_str (v : pyval) : bool :=
  match v with PStr s => (s =? "")%string | _ => false end.

(** [d[k]] as a lookup; [None] when the key is absent. *)
Fixpoint dict_get (d : pydict) (k : string) : option pyval :=
  match d with
  | [] => None
  | (k', v) :: d' => if (k' =? k)%string then Some v else dict_get d' k
  end.

(** [d.get(k)]: Python's [None] when the key is absent. *)
Definition get (d : pydict) (k : string) : pyval :=
  match dict_get d k with Some v => v | None => PNone end.

(** [d[k] = v]: overwrite in place, or append a new key. *)
Fixpoint dict_set (d : pydict) (k : string) (v : pyval) : pydict :=
  match d with
  | [] => [(k, v)]
  | (k', v') :: d' =>
      if (k' =? k)%string then (k', v) :: d' else (k', v') :: dict_set d' k v
  end.

(** ** Exceptions *)

Inductive exn : Type :=
| ProductNotFoundError (pid : Z)
| ClientError          (* connection failure or timeout in [session.get] *)
| ContentTypeError     (* [resp.json()] cannot decode the body *)
| AttributeError
| TypeError
| KeyError
| ReError              (* [re.error]: a pattern that does not compile *)
| DataError.           (* the database driver rejects an argument *)

Inductive outcome (A : Type) : Type :=
| Returned (a : A)
| Raised (e : exn).
Arguments Returned {A} a.
Arguments Raised {A} e.

Definition bind {A B : Type} (m : outcome A) (f : A -> outcome B) : outcome B :=
  match m with
  | Returned a => f a
  | Raised e => Raised e
  end.

Notation "x <- m ;; k" := (bind m (fun x => k))
  (at level 61, m at next level, right associativity).

Fixpoint mapM {A B : Type} (f : A -> outcome B) (l : list A) : outcome (list B) :=
  match l with
  | [] => Returned []
  | a :: l' => b <- f a ;; bs <- mapM f l' ;; Returned (b :: bs)
  end.

(** ** Configuration shared by the two scripts *)

Definition RETRIES : nat := 5.
Definition BATCH_SIZE : nat := 5000.

Definition FIELDS : list string :=
  ["id"; "name"; "url_key"; "price"; "description"; "image_url"; "missing_fields"].

(** [resp.status in (429, 500, 502, 503, 504)] *)
Definition transient_status (status : Z) : bool :=
  existsb (Z.eqb status) [429; 500; 502; 503; 504].

(** ** The remote API *)

Inductive response : Type :=
| Resp (status : Z) (body : option pyval)  (* [body = None]: not decodable *)
| TransportError.

Definition responses : Type := nat -> response.
Definition network : Type := Z -> responses.

Inductive event : Type :=
| EvRequest (attempt : nat)
| EvSleep (seconds : nat).

Definition sleeps (tr : list event) : list nat :=
  flat_map (fun e => match e with EvSleep s => [s] | EvRequest _ => [] end) tr.

Definition requests (tr : list event) : list nat :=
  flat_map (fun e => match e with EvRequest a => [a] | EvSleep _ => [] end) tr.

(** How one iteration of the retry loop ends. *)
Inductive flow : Type :=
| Return_ (result : pydict)
| Break
| Next.

(** ** Character classes of regular expressions *)

(** The items of a class [[...]], by code point. *)
Inductive class_item : Type :=
| Chr (c : N)            (* one character *)
| Range (lo hi : N)      (* [lo-hi] *)
| Whitespace.            (* [\s] *)

(** [re] compiles a class unless one of its ranges has its bounds
    reversed ("bad character range"). *)
Definition class_compiles (items : list class_item) : bool :=
  forallb (fun item => match item with
                       | Range lo hi => (lo <=? hi)%N
                       | _ => true
                       end) items.

(** ** Record normalisation (the same text in both scripts, up to the
    characters kept by [clean_text] and to [missing]) *)

Section Normalizer.

(** The regular-expression pipeline of [clean_text] on a non-empty
    string, when its patterns compile: tag removal, keyword removal,
    character filtering, lower-casing and whitespace squeezing. *)
Variable scrub : string -> string.

(** The class of the third pattern, [[^...]], of the script: the
    characters that [clean_text] keeps. *)
Variable kept_chars : list class_item.

(** [clean_text].  A falsy value gives [""].  On any other value the
    first [re.sub] needs a string; the third one compiles its pattern
    and raises [re.error] when the class is ill-formed. *)
Definition clean_text (text : pyval) : outcome string :=
  if negb (truthy text) then Returned ""%string
  else match text with
       | PStr s => if class_compiles kept_chars then Returned (scrub s)
                   else Raised ReError
       | _ => Raised TypeError
       end.

(** [data.get(...)] needs [data] to be a dict. *)
Definition as_dict (data : pyval) : outcome pydict :=
  match data with
  | PDict d => Returned d
  | _ => Raised AttributeError
  end.

(** [data.get("images", [{}])[0].get("base_url") if data.get("images") else None] *)
Definition image_url (data : pydict) : outcome pyval :=
  let images := get data "images" in
  if truthy images then
    match images with
    | PList (PDict img :: _) => Returned (get img "base_url")
    | PList _ => Raised AttributeError
    | PStr _ => Raised AttributeError
    | PDict _ => Raised KeyError
    | _ => Raised TypeError
    end
  else Returned PNone.

(** The dict literal built from a decoded body. *)
Definition extract (pid : Z) (body : option pyval) : outcome pydict :=
  json <- match body with
          | Some v => Returned v
          | None => Raised ContentTypeError
          end ;;
  data <- as_dict json ;;
  name <- clean_text (get data "name") ;;
  description <- clean_text (get data "description") ;;
  img <- image_url data ;;
  Returned [ ("id", PInt pid);
             ("name", PStr name);
             ("url_key", get data "url_key");
             ("price", get data "price");
             ("description", PStr description);
             ("image_url", img) ].

(** [[k for k, v in result.items() if k != "id" and is_missing(v)]] *)
Definition missing (is_missing : pyval -> bool) (result : pydict) : list string :=
  map fst (filter (fun kv => negb (fst kv =? "id")%string && is_missing (snd kv)) result).

(** [result["missing_fields"] = ",".join(missing) if missing else ""] *)
Definition with_missing (is_missing : pyval -> bool) (result : pydict) : pydict :=
  let m := missing is_missing result in
  dict_set result "missing_fields"
    (PStr (match m with [] => "" | _ :: _ => String.concat "," m end)).

Definition normalize (is_missing : pyval -> bool) (pid : Z) (body : option pyval)
  : outcome pydict :=
  result <- extract pid body ;;
  Returned (with_missing is_missing result).

End Normalizer.

(** ** The database *)

(** A row of [tiki_product] or [tiki_error]. *)
Record prow : Type := mk_prow {
  p_id : Z;
  p_name : pyval;
  p_url_key : pyval;
  p_price : pyval;
  p_description : pyval;
  p_image_url : pyval;
  p_missing_fields : pyval
}.

(** A row of [tiki_queue]. *)
Record qrow : Type := mk_qrow {
  q_id : Z;
  q_status : string;
  q_last_error : option string
}.

Definition table : Type := list prow.
Definition queue : Type := list qrow.

Record db : Type := mk_db {
  tiki_queue : queue;
  tiki_product : table;
  tiki_error : table
}.

Definition empty_db : db := mk_db [] [] [].

Definition has_row (t : table) (id : Z) : bool :=
  existsb (fun r => p_id r =? id) t.

Definition find_row (t : table) (id : Z) : option prow :=
  find (fun r => p_id r =? id) t.

Definition has_qrow (q : queue) (id : Z) : bool :=
  existsb (fun r => q_id r =? id) q.

Definition find_qrow (q : queue) (id : Z) : option qrow :=
  find (fun r => q_id r =? id) q.

(** The PRIMARY KEY constraint of a table. *)
Definition pk_table (t : table) : Prop := NoDup (map p_id t).
Definition pk_queue (q : queue) : Prop := NoDup (map q_id q).


(** An argument for a BIGINT column: an integer of 64 bits. *)
Definition int64 (n : Z) : bool :=
  (-9223372036854775808 <=? n) && (n <=? 9223372036854775807).

Definition as_bigint (v : pyval) : outcome Z :=
  match v with
  | PInt n => if int64 n then Returned n else Raised DataError
  | _ => Raised DataError
  end.

(** An argument for a TEXT column: null, or a string without the
    character NUL, which PostgreSQL does not store. *)
Definition has_nul (s : string) : bool :=
  existsb (Ascii.eqb Ascii.zero) (list_ascii_of_string s).

Definition as_text (v : pyval) : outcome pyval :=
  match v with
  | PNone => Returned PNone
  | PStr s => if has_nul s then Raised DataError else Returned (PStr s)
  | _ => Raised DataError
  end.

(** An argument for a NUMERIC column: null or a number.  NUMERIC holds
    up to 131072 digits before the decimal point; an integer below
    2^435411 has no more.  The driver also converts a boolean and a
    string that spells a number; the model leaves these two out. *)
Definition as_numeric (v : pyval) : outcome pyval :=
  match v with
  | PNone => Returned PNone
  | PInt n => if Z.log2 (Z.abs n) <? 435411 then Returned (PInt n) else Raised DataError
  | PFloat x => Returned (PFloat x)
  | _ => Raised DataError
  end.

(** The argument tuple
    [(r.get("id"), r.get("name"), ..., r.get("missing_fields"))],
    as the driver encodes it for the columns of the table. *)
Definition values_of (r : pydict) : outcome prow :=
  id <- as_bigint (get r "id") ;;
  name <- as_text (get r "name") ;;
  url_key <- as_text (get r "url_key") ;;
  price <- as_numeric (get r "price") ;;
  description <- as_text (get r "description") ;;
  image_url <- as_text (get r "image_url") ;;
  missing_fields <- as_text (get r "missing_fields") ;;
  Returned (mk_prow id name url_key price description image_url missing_fields).

(** [INSERT ... VALUES (...) ON CONFLICT (id) DO UPDATE SET] every
    non-key column [= EXCLUDED.]column, for one argument tuple. *)
Definition upsert_row (t : table) (v : prow) : table :=
  if has_row t (p_id v)
  then map (fun r => if p_id r =? p_id v then v else r) t
  else t ++ [v].

(** [executemany] of the upsert over the argument tuples. *)
Definition executemany_upsert (t : table) (records : list pydict) : outcome table :=
  values <- mapM values_of records ;;
  Returned (fold_left upsert_row values t).

(** [INSERT INTO tiki_queue (id, status) VALUES ($1, 'pending')
    ON CONFLICT (id) DO NOTHING], for one id.  The second script leaves
    the status to the column default, which is ['pending'] too. *)
Definition insert_pending (q : queue) (pid : Z) : queue :=
  if has_qrow q pid then q else q ++ [mk_qrow pid "pending" None].

(** [UPDATE tiki_queue SET status=.., last_error=.. WHERE id=pid].  The
    row is rewritten where it stands in the list; where PostgreSQL puts
    the new version of the row, and so where an unordered SELECT returns
    it, is not modelled. *)
Definition update_row (status : string) (last_error : option string) (pid : Z)
  (q : queue) : queue :=
  map (fun r => if q_id r =? pid then mk_qrow (q_id r) status last_error else r) q.

(** [r["id"] for r in records], as ids the driver accepts. *)
Definition ids_of (records : list pydict) : outcome (list Z) :=
  mapM (fun r => match dict_get r "id" with
                 | Some (PInt id) => Returned id
                 | Some _ => Raised DataError
                 | None => Raised KeyError
                 end) records.

(** [list(dict.fromkeys(ids))]: first occurrences, in order. *)
Definition dedup (ids : list Z) : list Z :=
  fold_left (fun acc x => if existsb (Z.eqb x) acc then acc else acc ++ [x]) ids [].

(** [l[i:i+n]] *)
Definition slice {A : Type} (l : list A) (i n : nat) : list A :=
  firstn n (skipn i l).

(** [range(0, len, step)] *)
Definition range_step (len step : nat) : list nat :=
  map (fun k => (k * step)%nat) (seq 0 ((len + step - 1) / step)).

(** The batches [pending_ids[i:i+BATCH_SIZE]] the main loop goes through. *)
Definition batches (size : nat) (ids : list Z) : list (list Z) :=
  map (fun i => slice ids i size) (range_step (List.length ids) size).

(** [foldM]: a [for] loop whose body may raise. *)
Fixpoint foldM {A B : Type} (f : A -> B -> outcome A) (l : list B) (a : A) : outcome A :=
  match l with
  | [] => Returned a
  | b :: l' => a' <- f a b ;; foldM f l' a'
  end.

(** ** The retry loop: [for attempt in ...: try: ... except ...] *)

Fixpoint retry_loop (step : nat -> outcome flow * list event) (attempts : list nat)
  : outcome (option pydict) * list event :=
  match attempts with
  | [] => (Returned None, [])
  | a :: rest =>
      match step a with
      | (Raised e, ev) => (Raised e, ev)
      | (Returned (Return_ r), ev) => (Returned (Some r), ev)
      | (Returned Break, ev) => (Returned None, ev)
      | (Returned Next, ev) =>
          (fst (retry_loop step rest), ev ++ snd (retry_loop step rest))
      end
  end.

(** ** [retry_counter]: the dict shared by the fetches of a batch *)

Definition counter : Type := list (Z * nat).

Definition counter_get (rc : counter) (pid : Z) : nat :=
  match find (fun kv => fst kv =? pid) rc with
  | Some kv => snd kv
  | None => 0%nat
  end.

Definition counter_set (rc : counter) (pid : Z) (n : nat) : counter :=
  if existsb (fun kv => fst kv =? pid) rc
  then map (fun kv => if fst kv =? pid then (pid, n) else kv) rc
  else rc ++ [(pid, n)].

(** * The first script: [main.py] *)

Module Main.
Section Script.

Variable scrub : string -> string.
(** The order in which the fetches of a batch complete. *)
Variable completion_order : list Z -> list Z.

(** [init_queue] (main.py, l. 46-59).  [ids] is the integer column read
    from the input file. *)
Definition init_queue (q : queue) (ids : list Z) : queue :=
  fold_left insert_pending (dedup ids) q.

(** [fetch_pending_ids] (main.py, l. 62-65):
    [SELECT id FROM tiki_queue WHERE status='pending'] *)
Definition fetch_pending_ids (q : queue) : list Z :=
  map q_id (filter (fun r => (q_status r =? "pending")%string) q).

(** [update_queue_status] (main.py, l. 67-80): one UPDATE per id. *)
Definition update_queue_status (q : queue) (ids : list Z) (status : string)
  (error_message : option string) : queue :=
  match ids with
  | [] => q
  | _ :: _ =>
      match error_message with
      | Some msg =>
          if (msg =? "")%string
          then fold_left (fun q pid => update_row status None pid q) ids q
          else fold_left (fun q pid => update_row status (Some msg) pid q) ids q
      | None => fold_left (fun q pid => update_row status None pid q) ids q
      end
  end.

(** [insert_batch] (main.py, l. 83-100) *)
Definition insert_batch (t : table) (records : list pydict) : outcome table :=
  match records with
  | [] => Returned t
  | _ :: _ => executemany_upsert t records
  end.

(** The class of the third pattern of [clean_text] (main.py, l. 40), as
    the file spells it: beside [a-z], [A-Z] and [0-9] it holds the
    characters U+221A, U+00AA, U+03C0 and the ranges U+00C4-U+00B7 and
    U+2020-U+00B7, whose bounds are reversed. *)
Definition KEPT_CHARS : list class_item :=
  [ Range 97 122; Range 65 90; Range 48 57;
    Chr 8730; Range 196 183; Chr 170; Chr 960;
    Chr 8730; Range 8224 183; Chr 170; Chr 960;
    Whitespace; Chr 46; Chr 44; Chr 33; Chr 63; Chr 40; Chr 41; Chr 58; Chr 59;
    Chr 34; Chr 39; Chr 45 ]%N.

(** [v is None or v == ""] *)
Definition is_missing (v : pyval) : bool := is_none v || eq_empty_str v.

(** [fetch_product] (main.py, l. 103-129).  The body of the [try] for
    loop variable [attempt] (from 0). *)
Definition try_body (net : network) (pid : Z) (attempt : nat)
  : outcome flow * list event :=
  match net pid attempt with
  | TransportError => (Raised ClientError, [])
  | Resp status body =>
      if status =? 200 then
        (result <- normalize scrub KEPT_CHARS is_missing pid body ;;
         Returned (Return_ result), [])
      else if transient_status status then
        (Returned Next, [EvSleep (2 * (attempt + 1))])
      else (Returned Break, [])
  end.

(** [except Exception: pass] *)
Definition attempt_step (net : network) (pid : Z) (attempt : nat)
  : outcome flow * list event :=
  match try_body net pid attempt with
  | (Returned f, ev) => (Returned f, EvRequest (attempt + 1) :: ev)
  | (Raised _, ev) => (Returned Next, EvRequest (attempt + 1) :: ev)
  end.

(** [{field: None if field != "id" else pid for field in FIELDS}] *)
Definition failure_record (pid : Z) : pydict :=
  map (fun field => (field, if negb (field =? "id")%string then PNone else PInt pid))
    FIELDS.

Definition fetch_product (net : network) (pid : Z) (retry_counter : counter)
  : outcome (pydict * counter) * list event :=
  let run := retry_loop (attempt_step net pid) (seq 0 RETRIES) in
  (found <- fst run ;;
   match found with
   | Some result => Returned (result, retry_counter)
   | None =>
       Returned (failure_record pid,
                 counter_set retry_counter pid (counter_get retry_counter pid + 1))
   end,
   snd run).

(** [process_batch] (main.py, l. 132-146).
    [all(result[k] is None for k in ks if k != "id")] *)
Fixpoint all_none (result : pydict) (ks : list string) : outcome bool :=
  match ks with
  | [] => Returned true
  | k :: ks' =>
      if negb (k =? "id")%string then
        match dict_get result k with
        | None => Raised KeyError
        | Some v => if is_none v then all_none result ks' else Returned false
        end
      else all_none result ks'
  end.

(** [result and all(...)] *)
Definition is_fully_empty (result : pydict) : outcome bool :=
  match result with
  | [] => Returned false
  | _ :: _ => all_none result FIELDS
  end.

Fixpoint process_loop (net : network) (completed : list Z)
  (good_records error_records : list pydict) (retry_counter : counter)
  : outcome (list pydict * list pydict * counter) :=
  match completed with
  | [] => Returned (good_records, error_records, retry_counter)
  | pid :: rest =>
      fetched <- fst (fetch_product net pid retry_counter) ;;
      empty <- is_fully_empty (fst fetched) ;;
      if empty
      then process_loop net rest good_records (error_records ++ [fst fetched]) (snd fetched)
      else process_loop net rest (good_records ++ [fst fetched]) error_records (snd fetched)
  end.

(** [completed]: the ids of the batch in completion order. *)
Definition process_batch (net : network) (completed : list Z)
  : outcome (list pydict * list pydict * counter) :=
  process_loop net completed [] [] [].

(** One iteration of the loop of [main] (main.py, l. 162-173). *)
Definition run_batch (net : network) (s : db) (batch : list Z) : outcome db :=
  res <- process_batch net (completion_order batch) ;;
  let good := fst (fst res) in
  let error := snd (fst res) in
  product <- insert_batch (tiki_product s) good ;;
  err <- insert_batch (tiki_error s) error ;;
  good_ids <- ids_of good ;;
  let q1 := update_queue_status (tiki_queue s) good_ids "done" None in
  error_ids <- ids_of error ;;
  let q2 := update_queue_status q1 error_ids "error" (Some "Failed after retries") in
  Returned (mk_db q2 product err).

(** One run of the script on the ids of the input file
    (main.py, l. 149-173); the totals printed at the end are left out. *)
Definition main (net : network) (input : list Z) (s : db) : outcome db :=
  let s1 := mk_db (init_queue (tiki_queue s) input) (tiki_product s) (tiki_error s) in
  let pending_ids := fetch_pending_ids (tiki_queue s1) in
  foldM (run_batch net) (batches BATCH_SIZE pending_ids) s1.

End Script.
End Main.

(** * The second script: [tiki_queue.py] *)

Module TikiQueue.
Section Script.

Variable scrub : string -> string.
Variable completion_order : list Z -> list Z.

(** [init_queue] (tiki_queue.py, l. 59-71):
    [INSERT INTO tiki_queue (id) VALUES ($1) ON CONFLICT (id) DO NOTHING]
    for each id; the table is created first when it does not exist. *)
Definition init_queue (q : queue) (ids : list Z) : queue :=
  fold_left insert_pending ids q.

(** [fetch_pending_or_error_ids] (tiki_queue.py, l. 73-78):
    [SELECT id FROM tiki_queue WHERE status='pending' OR status='error'] *)
Definition fetch_pending_or_error_ids (q : queue) : list Z :=
  map q_id (filter (fun r => (q_status r =? "pending")%string
                             || (q_status r =? "error")%string) q).

(** [UPDATE ... WHERE id = ANY(ids)] *)
Definition update_any (status : string) (last_error : option string)
  (ids : list Z) (q : queue) : queue :=
  map (fun r => if existsb (Z.eqb (q_id r)) ids
                then mk_qrow (q_id r) status last_error else r) q.

(** [update_queue_status] (tiki_queue.py, l. 80-92) *)
Definition update_queue_status (q : queue) (ids : list Z) (status : string)
  (error_message : option string) : queue :=
  match ids with
  | [] => q
  | _ :: _ =>
      match error_message with
      | Some msg =>
          if (msg =? "")%string
          then update_any status None ids q
          else update_any status (Some msg) ids q
      | None => update_any status None ids q
      end
  end.

(** [insert_batch_to_db] (tiki_queue.py, l. 95-120); creating the table
    when it does not exist is schema provisioning. *)
Definition insert_batch_to_db (t : table) (records : list pydict) : outcome table :=
  match records with
  | [] => Returned t
  | _ :: _ => executemany_upsert t records
  end.

(** The class of the third pattern of [clean_text] (tiki_queue.py,
    l. 54): [a-z], [A-Z], [0-9], U+00C0-U+1EF9, U+00E0-U+1EF9, white
    space and punctuation. *)
Definition KEPT_CHARS : list class_item :=
  [ Range 97 122; Range 65 90; Range 48 57;
    Range 192 7929; Range 224 7929;
    Whitespace; Chr 46; Chr 44; Chr 33; Chr 63; Chr 40; Chr 41; Chr 58; Chr 59;
    Chr 34; Chr 39; Chr 45 ]%N.

(** [not v] *)
Definition is_missing (v : pyval) : bool := negb (truthy v).

(** [fetch_product] (tiki_queue.py, l. 123-154).  The body of the [try]
    for loop variable [attempt] (from 1); what is written to the log is
    left out. *)
Definition try_body (net : network) (pid : Z) (attempt : nat)
  : outcome flow * list event :=
  match net pid (attempt - 1)%nat with
  | TransportError => (Raised ClientError, [])
  | Resp status body =>
      if status =? 200 then
        (result <- normalize scrub KEPT_CHARS is_missing pid body ;;
         Returned (Return_ result), [])
      else if status =? 404 then (Raised (ProductNotFoundError pid), [])
      else if transient_status status then
        (Returned Next, [EvSleep (2 * attempt)])
      else (Returned Break, [])
  end.

(** [except ProductNotFoundError: raise] and
    [except Exception: ...; await asyncio.sleep(2*attempt)] *)
Definition attempt_step (net : network) (pid : Z) (attempt : nat)
  : outcome flow * list event :=
  match try_body net pid attempt with
  | (Returned f, ev) => (Returned f, EvRequest attempt :: ev)
  | (Raised (ProductNotFoundError p), ev) =>
      (Raised (ProductNotFoundError p), EvRequest attempt :: ev)
  | (Raised _, ev) =>
      (Returned Next, EvRequest attempt :: ev ++ [EvSleep (2 * attempt)])
  end.

Definition fetch_product (net : network) (pid : Z)
  : outcome (option pydict) * list event :=
  retry_loop (attempt_step net pid) (seq 1 RETRIES).

(** [process_batch] (tiki_queue.py, l. 157-188).  The record built in
    the [except ProductNotFoundError] handler. *)
Definition not_found_record (pid : Z) : pydict :=
  [ ("id", PInt pid); ("name", PNone); ("url_key", PNone); ("price", PNone);
    ("description", PNone); ("image_url", PNone);
    ("missing_fields", PStr "all_fields") ].

Fixpoint process_loop (net : network) (completed : list Z)
  (good_records error_records : list pydict) (error_ids : list Z)
  : list pydict * list pydict * list Z :=
  match completed with
  | [] => (good_records, error_records, error_ids)
  | pid :: rest =>
      match fst (fetch_product net pid) with
      | Returned (Some r) =>
          match r with
          | [] => process_loop net rest good_records error_records error_ids
          | _ :: _ => process_loop net rest (good_records ++ [r]) error_records error_ids
          end
      | Returned None => process_loop net rest good_records error_records error_ids
      | Raised (ProductNotFoundError p) =>
          process_loop net rest good_records
            (error_records ++ [not_found_record p]) (error_ids ++ [p])
      | Raised _ => process_loop net rest good_records error_records error_ids
      end
  end.

(** [completed]: the ids of the batch in completion order.  The result
    is the new database state and the two counts returned. *)
Definition process_batch (net : network) (s : db) (completed : list Z)
  : outcome (db * (nat * nat)) :=
  let res := process_loop net completed [] [] [] in
  let good_records := fst (fst res) in
  let error_records := snd (fst res) in
  let error_ids := snd res in
  product <- insert_batch_to_db (tiki_product s) good_records ;;
  err <- insert_batch_to_db (tiki_error s) error_records ;;
  good_ids <- ids_of good_records ;;
  let q1 := update_queue_status (tiki_queue s) good_ids "done" None in
  let q2 := update_queue_status q1 error_ids "error" (Some "404 Not Found") in
  Returned (mk_db q2 product err, (List.length good_records, List.length error_records)).

Definition run_batch (net : network) (s : db) (batch : list Z) : outcome db :=
  res <- process_batch net s (completion_order batch) ;;
  Returned (fst res).

(** One run of the script on the ids of the input file
    (tiki_queue.py, l. 191-218); the totals printed at the end are left
    out. *)
Definition main (net : network) (input : list Z) (s : db) : outcome db :=
  let ids := dedup input in
  let q := if (List.length (tiki_queue s) =? 0)%nat
           then init_queue (tiki_queue s) ids else tiki_queue s in
  let s1 := mk_db q (tiki_product s) (tiki_error s) in
  let pending_ids := fetch_pending_or_error_ids q in
  foldM (run_batch net) (batches BATCH_SIZE pending_ids) s1.

End Script.
End TikiQueue.

(** * Vocabulary of the statements *)

(** What [update_queue_status] stores in [last_error] for an
    [error_message]: an empty message is falsy. *)
Definition stored_error (error_message : option string) : option string :=
  match error_message with
  | Some msg => if (msg =? "")%string then None else Some msg
  | None => None
  end.

(** The queue row of [id] has status [status]. *)
Definition status_is (q : queue) (id : Z) (status : string) : Prop :=
  exists r, find_qrow q id = Some r /\ q_status r = status.

(** A record built from a decoded body: its [id] is the id fetched, and
    [name], [description] and [missing_fields] are strings. *)
Definition product_record (pid : Z) (r : pydict) : Prop :=
  exists name url_key price description img mf,
    r = [ ("id", PInt pid); ("name", PStr name); ("url_key", url_key);
          ("price", price); ("description", PStr description);
          ("image_url", img); ("missing_fields", PStr mf) ].

(** What the retry loop of each script ends with, exceptions apart. *)
Definition main_found (scrub : string -> string) (net : network) (pid : Z)
  : option pydict :=
  match fst (retry_loop (Main.attempt_step scrub net pid) (seq 0 RETRIES)) with
  | Returned o => o
  | Raised _ => None
  end.

(** The trace of [n] attempts that each end in a back-off sleep. *)
Definition backoff (n : nat) : list event :=
  flat_map (fun a => [EvRequest a; EvSleep (2 * a)]) (seq 1 n).

(** The request that ends the fetch after [n] such attempts, if any is left. *)
Definition last_request (n : nat) : list event :=
  if (n <? RETRIES)%nat then [EvRequest (n + 1)] else [].

(** [{429, 500, 502, 503, 504}] *)
Definition transient_http (r : response) : bool :=
  match r with
  | Resp status _ => transient_status status
  | TransportError => false
  end.

(** A transient HTTP status or a transport-level exception. *)
Definition transient (r : response) : bool :=
  match r with
  | Resp status _ => transient_status status
  | TransportError => true
  end.

(** A status other than 200, 404 and the transient ones. *)
Definition other_status (r : response) : bool :=
  match r with
  | Resp status _ =>
      negb (status =? 200) && negb (status =? 404) && negb (transient_status status)
  | TransportError => false
  end.

Definition is_404 (r : response) : bool :=
  match r with
  | Resp status _ => status =? 404
  | TransportError => false
  end.

Definition non_decreasing (l : list nat) : Prop :=
  forall i j x y, (i <= j)%nat -> nth_error l i = Some x -> nth_error l j = Some y ->
                  (x <= y)%nat.

(** The row stored for the all-null record of the first script. *)
Definition failure_row (pid : Z) : prow :=
  mk_prow pid PNone PNone PNone PNone PNone PNone.

(** The row stored for the record of a 404 in the second script. *)
Definition not_found_row (pid : Z) : prow :=
  mk_prow pid PNone PNone PNone PNone PNone (PStr "all_fields").

Definition is_some {A : Type} (o : option A) : bool :=
  match o with Some _ => true | None => false end.

(** The ids of a batch by the way their fetch ends, in the first script. *)
Definition main_good_ids (scrub : string -> string) (net : network) (l : list Z) : list Z :=
  filter (fun pid => is_some (main_found scrub net pid)) l.

Definition main_error_ids (scrub : string -> string) (net : network) (l : list Z) : list Z :=
  filter (fun pid => negb (is_some (main_found scrub net pid))) l.

Definition main_goods (scrub : string -> string) (net : network) (l : list Z)
  : list pydict :=
  flat_map (fun pid => match main_found scrub net pid with
                       | Some r => [r]
                       | None => []
                       end) l.

(** The rows written to [tiki_product] for a batch of the first script. *)
Definition main_good_rows (scrub : string -> string) (net : network) (l : list Z)
  : list prow :=
  flat_map (fun pid => match main_found scrub net pid with
                       | Some r => match values_of r with
                                   | Returned v => [v]
                                   | Raised _ => []
                                   end
                       | None => []
                       end) l.

(** How the fetch of an id ends in the second script, and the ids of a
    batch by the way their fetch ends. *)
Definition tq_result (scrub : string -> string) (net : network) (pid : Z)
  : outcome (option pydict) :=
  fst (TikiQueue.fetch_product scrub net pid).

Definition tq_is_good (o : outcome (option pydict)) : bool :=
  match o with Returned (Some _) => true | _ => false end.

Definition tq_is_raised (o : outcome (option pydict)) : bool :=
  match o with Raised _ => true | _ => false end.

Definition tq_good_ids (scrub : string -> string) (net : network) (l : list Z) : list Z :=
  filter (fun pid => tq_is_good (tq_result scrub net pid)) l.

Definition tq_error_ids (scrub : string -> string) (net : network) (l : list Z) : list Z :=
  filter (fun pid => tq_is_raised (tq_result scrub net pid)) l.

Definition tq_goods (scrub : string -> string) (net : network) (l : list Z)
  : list pydict :=
  flat_map (fun pid => match tq_result scrub net pid with
                       | Returned (Some r) => [r]
                       | _ => []
                       end) l.

(** The fields of a record other than [id] and [missing_fields], in the
    order in which the record declares them. *)
Definition DATA_FIELDS : list string :=
  ["name"; "url_key"; "price"; "description"; "image_url"].

(** A value that is null or the empty string. *)
Definition null_or_empty (v : pyval) : bool :=
  match v with
  | PNone => true
  | PStr s => (s =? "")%string
  | _ => false
  end.

(** Every field of [d] other than [id] is present and null. *)
Definition all_null (d : pydict) : Prop :=
  Forall (fun k => k = "id" \/ dict_get d k = Some PNone) FIELDS.

(** What queue initialisation does to a queue [q] for the ids [ids]:
    it only appends rows, each 'pending', without error, for an id of
    [ids] that [q] did not hold; afterwards every id of [ids] is present;
    running it again on the result changes nothing; the primary key stays
    unique. *)
Definition init_spec (init : queue -> list Z -> queue) (q : queue) (ids : list Z) : Prop :=
  (exists extra,
      init q ids = q ++ extra
      /\ Forall (fun r => q_status r = "pending" /\ q_last_error r = None
                          /\ In (q_id r) ids /\ has_qrow q (q_id r) = false) extra)
  /\ Forall (fun id => has_qrow (init q ids) id = true) ids
  /\ init (init q ids) ids = init q ids
  /\ pk_queue (init q ids).

(** The exceptions that decoding a body and extracting its fields raise. *)
Definition decode_error (e : exn) : bool :=
  match e with
  | ContentTypeError | AttributeError | TypeError | KeyError | ReError => true
  | _ => false
  end.

(** ** States of the pipeline *)

(** Every id with a row in error storage has the queue status 'error'. *)
Definition error_rows_marked (s : db) : Prop :=
  forall id, has_row (tiki_error s) id = true -> status_is (tiki_queue s) id "error".

(** ... or has been completed since. *)
Definition error_rows_marked_or_done (s : db) : Prop :=
  forall id, has_row (tiki_error s) id = true ->
             status_is (tiki_queue s) id "error" \/ status_is (tiki_queue s) id "done".

(** The states of the database between the batches of any number of runs
    of the first script, starting from empty tables: a run initialises the
    queue from some input and then processes batches of ids that were
    selected as outstanding. *)
Inductive main_reachable (scrub : string -> string) (completion_order : list Z -> list Z)
  : db -> Prop :=
| main_start : main_reachable scrub completion_order empty_db
| main_init (s : db) (ids : list Z) :
    main_reachable scrub completion_order s ->
    main_reachable scrub completion_order
      (mk_db (Main.init_queue (tiki_queue s) ids) (tiki_product s) (tiki_error s))
| main_batch (s s' : db) (net : network) (batch : list Z) :
    main_reachable scrub completion_order s ->
    incl batch (Main.fetch_pending_ids (tiki_queue s)) ->
    Main.run_batch scrub completion_order net s batch = Returned s' ->
    main_reachable scrub completion_order s'.

(** The same for the second script. *)
Inductive tq_reachable (scrub : string -> string) (completion_order : list Z -> list Z)
  : db -> Prop :=
| tq_start : tq_reachable scrub completion_order empty_db
| tq_init (s : db) (ids : list Z) :
    tq_reachable scrub completion_order s ->
    tq_reachable scrub completion_order
      (mk_db (TikiQueue.init_queue (tiki_queue s) ids) (tiki_product s) (tiki_error s))
| tq_batch (s s' : db) (net : network) (batch : list Z) :
    tq_reachable scrub completion_order s ->
    incl batch (TikiQueue.fetch_pending_or_error_ids (tiki_queue s)) ->
    TikiQueue.run_batch scrub completion_order net s batch = Returned s' ->
    tq_reachable scrub completion_order s'.

(** The last tuple of a batch for an id, and the row a batch of upserts
    leaves in place of a row already present. *)
Definition last_for (vs : list prow) (id : Z) : option prow :=
  find (fun v => p_id v =? id) (rev vs).


(** ** Concrete inputs used in the examples *)

Definition keep : string -> string := fun s => s.
Definition in_order : list Z -> list Z := fun l => l.
Definition reversed : list Z -> list Z := fun l => rev l.

Definition net_503 : network := fun _ _ => Resp 503 None.
Definition net_404 : network := fun _ _ => Resp 404 None.
Definition net_down : network := fun _ _ => TransportError.
Definition net_503_403 : network :=
  fun _ k => if (k <? 2)%nat then Resp 503 None else Resp 403 None.
Definition net_503_404 : network :=
  fun _ k => if (k <? 1)%nat then Resp 503 None else Resp 404 None.

Definition db_7 : db := mk_db [mk_qrow 7 "pending" None] [] [].

Definition payload_price_0 : pyval :=
  PDict [ ("name", PStr "lamp"); ("url_key", PStr "lamp-1"); ("price", PInt 0);
          ("description", PStr "a lamp");
          ("images", PList [PDict [("base_url", PStr "http://img/1")]]) ].

Definition net_price_0 : network := fun _ _ => Resp 200 (Some payload_price_0).

Definition db_7_failed : db :=
  mk_db [mk_qrow 7 "error" (Some "Failed after retries")] [] [failure_row 7].

Definition queue_123 : queue :=
  [mk_qrow 1 "done" None; mk_qrow 2 "error" (Some "404 Not Found");
   mk_qrow 3 "pending" None].

Definition queue_2_error : queue := [mk_qrow 2 "error" (Some "Failed after retries")].

(** * Vocabulary of the further properties *)

Definition ids_1_5 : list Z := [1; 2; 3; 4; 5].


(** ** Bodies from which a record can be extracted *)

(** A value [clean_text] accepts: falsy, or a string. *)
Definition text_like (v : pyval) : bool :=
  negb (truthy v) || match v with PStr _ => true | _ => false end.

(** An [images] value the extraction accepts: falsy, or a list whose
    first element is an object. *)
Definition images_ok (v : pyval) : bool :=
  negb (truthy v) || match v with PList (PDict _ :: _) => true | _ => false end.

Definition extractable (body : option pyval) : bool :=
  match body with
  | Some (PDict data) =>
      text_like (get data "name") && text_like (get data "description")
      && images_ok (get data "images")
  | _ => false
  end.

(** The text stored for a text-like value. *)
Definition cleaned (scrub : string -> string) (v : pyval) : string :=
  match v with
  | PStr s => if (s =? "")%string then ""%string else scrub s
  | _ => ""%string
  end.

(** The [base_url] of the first image, when there is one. *)
Definition first_image (data : pydict) : pyval :=
  match get data "images" with
  | PList (PDict img :: _) => get img "base_url"
  | _ => PNone
  end.

(** The fields of a 200 response, decoded or not. *)
Definition body_fields (body : option pyval) : pydict :=
  match body with
  | Some (PDict data) => data
  | _ => []
  end.

(** A request that ends in an exception: the transport fails, or the
    body of a 200 response cannot be turned into a record. *)
Definition broken (r : response) : bool :=
  match r with
  | TransportError => true
  | Resp status body => (status =? 200) && negb (extractable body)
  end.


Definition payload_bad_name : pyval := PDict [("name", PInt 5)].
Definition net_bad_name : network := fun _ _ => Resp 200 (Some payload_bad_name).


(** The rows written to [tiki_product] for a batch of the second script. *)
Definition tq_good_rows (scrub : string -> string) (net : network) (l : list Z)
  : list prow :=
  flat_map (fun pid => match tq_result scrub net pid with
                       | Returned (Some r) => match values_of r with
                                              | Returned v => [v]
                                              | Raised _ => []
                                              end
                       | _ => []
                       end) l.

Definition net_503_then_ok : network :=
  fun _ k => if (k <? 3)%nat then Resp 503 None else Resp 200 (Some payload_price_0).

Definition base_lamp (pid : Z) : pydict :=
  [ ("id", PInt pid); ("name", PStr "lamp"); ("url_key", PStr "lamp-1");
    ("price", PInt 0); ("description", PStr "a lamp");
    ("image_url", PStr "http://img/1") ].


(** [retry_counter[pid] = retry_counter.get(pid, 0) + 1] *)
Definition bump (rc : counter) (pid : Z) : counter :=
  counter_set rc pid (counter_get rc pid + 1).


(** ** What a run leaves in the queue *)

(** The queue row a batch of the first script leaves for an id of the
    batch. *)
Definition main_row_after (scrub : string -> string) (net : network) (pid : Z) : qrow :=
  if is_some (main_found scrub net pid)
  then mk_qrow pid "done" None
  else mk_qrow pid "error" (Some "Failed after retries").

(** The queue row a batch of the second script leaves for an id of the
    batch whose row was [old]. *)
Definition tq_row_after (scrub : string -> string) (net : network) (pid : Z)
  (old : option qrow) : option qrow :=
  match tq_result scrub net pid with
  | Returned (Some _) => Some (mk_qrow pid "done" None)
  | Returned None => old
  | Raised _ => Some (mk_qrow pid "error" (Some "404 Not Found"))
  end.

(** The queue on which the second script's [main] works: initialised
    only when it has no row. *)
Definition tq_queue_at_start (q : queue) (input : list Z) : queue :=
  if (List.length q =? 0)%nat then TikiQueue.init_queue q (dedup input) else q.

Definition net_2_fails : network :=
  fun pid k => if pid =? 2 then Resp 404 None else Resp 200 (Some payload_price_0).

Definition db_1_done : db :=
  mk_db [mk_qrow 1 "done" None] [failure_row 1] [].


(** ** Further invariants of the states of the pipeline *)

(** The ids with a row in success storage are exactly the ids whose
    status is 'done'. *)
Definition product_rows_done (s : db) : Prop :=
  forall id, has_row (tiki_product s) id = true <-> status_is (tiki_queue s) id "done".

(** Every table has at most one row per id. *)
Definition tables_keyed (s : db) : Prop :=
  pk_queue (tiki_queue s) /\ pk_table (tiki_product s) /\ pk_table (tiki_error s).

(** No id has a row both in success and in error storage. *)
Definition storage_disjoint (s : db) : Prop :=
  forall id, has_row (tiki_product s) id = true -> has_row (tiki_error s) id = false.


(** ** The totals printed at the end of a run *)

(** [Total Records Processed], [Completed] and [Errors]. *)
Record summary : Type := mk_summary
  { total_processed : nat; total_good : nat; total_error : nat }.

(** One iteration of the loop of [main] of the first script, with the
    two lists [all_good] and [all_error] it extends (main.py,
    l. 162-173). *)
Definition main_batch_totals (scrub : string -> string)
  (completion_order : list Z -> list Z) (net : network)
  (acc : db * (list pydict * list pydict)) (batch : list Z)
  : outcome (db * (list pydict * list pydict)) :=
  let s := fst acc in
  res <- Main.process_batch scrub net (completion_order batch) ;;
  let good := fst (fst res) in
  let error := snd (fst res) in
  let all_good := fst (snd acc) ++ good in
  let all_error := snd (snd acc) ++ error in
  product <- Main.insert_batch (tiki_product s) good ;;
  err <- Main.insert_batch (tiki_error s) error ;;
  good_ids <- ids_of good ;;
  let q1 := Main.update_queue_status (tiki_queue s) good_ids "done" None in
  error_ids <- ids_of error ;;
  let q2 := Main.update_queue_status q1 error_ids "error" (Some "Failed after retries") in
  Returned (mk_db q2 product err, (all_good, all_error)).

(** [main] of the first script with its summary (main.py, l. 149-180). *)
Definition main_with_summary (scrub : string -> string)
  (completion_order : list Z -> list Z) (net : network) (input : list Z) (s : db)
  : outcome (db * summary) :=
  let s1 := mk_db (Main.init_queue (tiki_queue s) input) (tiki_product s) (tiki_error s) in
  let pending_ids := Main.fetch_pending_ids (tiki_queue s1) in
  r <- foldM (main_batch_totals scrub completion_order net)
         (batches BATCH_SIZE pending_ids) (s1, ([], [])) ;;
  Returned (fst r,
            mk_summary (List.length pending_ids) (List.length (fst (snd r)))
              (List.length (snd (snd r)))).

(** One iteration of the loop of [main] of the second script, with the
    two counters [total_good] and [total_error] (tiki_queue.py,
    l. 214-218). *)
Definition tq_batch_totals (scrub : string -> string)
  (completion_order : list Z -> list Z) (net : network)
  (acc : db * (nat * nat)) (batch_ids : list Z) : outcome (db * (nat * nat)) :=
  res <- TikiQueue.process_batch scrub net (fst acc) (completion_order batch_ids) ;;
  let good := fst (snd res) in
  let error := snd (snd res) in
  Returned (fst res, (fst (snd acc) + good, snd (snd acc) + error)%nat).

(** [main] of the second script with its summary (tiki_queue.py,
    l. 191-224). *)
Definition tq_with_summary (scrub : string -> string)
  (completion_order : list Z -> list Z) (net : network) (input : list Z) (s : db)
  : outcome (db * summary) :=
  let ids := dedup input in
  let q := if (List.length (tiki_queue s) =? 0)%nat
           then TikiQueue.init_queue (tiki_queue s) ids else tiki_queue s in
  let s1 := mk_db q (tiki_product s) (tiki_error s) in
  let pending_ids := TikiQueue.fetch_pending_or_error_ids q in
  r <- foldM (tq_batch_totals scrub completion_order net)
         (batches BATCH_SIZE pending_ids) (s1, (0, 0)%nat) ;;
  Returned (fst r,
            mk_summary (List.length pending_ids) (fst (snd r)) (snd (snd r))).

(** A fetch of the second script that gave up: it returned [None]. *)
Definition tq_is_exhausted (o : outcome (option pydict)) : bool :=
  match o with Returned None => true | _ => false end.

Definition net_mixed : network :=
  fun pid k =>
    if pid =? 2 then Resp 404 None
    else if pid =? 3 then Resp 403 None
    else Resp 200 (Some payload_price_0).


(** ** Bodies and records of the first script; records the driver accepts *)

(** A body from which the first script builds a record: the class of its
    [clean_text] does not compile, so [name] and [description] must both
    be falsy. *)
Definition main_extractable (body : option pyval) : bool :=
  match body with
  | Some (PDict data) =>
      negb (truthy (get data "name")) && negb (truthy (get data "description"))
      && images_ok (get data "images")
  | _ => false
  end.

(** A record whose argument tuple the driver accepts. *)
Definition storable (r : pydict) : bool :=
  match values_of r with
  | Returned _ => true
  | Raised _ => false
  end.

(** An id of a batch for which the driver accepts what the first script
    writes: the record fetched, or else the all-null record of the id. *)
Definition main_id_storable (scrub : string -> string) (net : network) (pid : Z) : bool :=
  match main_found scrub net pid with
  | Some r => storable r
  | None => int64 pid
  end.

Definition main_batch_storable (scrub : string -> string) (net : network)
  (l : list Z) : bool :=
  forallb (main_id_storable scrub net) l.

(** The same for the second script, which writes nothing for an id whose
    fetch gave up. *)
Definition tq_id_storable (scrub : string -> string) (net : network) (pid : Z) : bool :=
  match tq_result scrub net pid with
  | Returned (Some r) => storable r
  | Returned None => true
  | Raised _ => int64 pid
  end.

Definition tq_batch_storable (scrub : string -> string) (net : network)
  (l : list Z) : bool :=
  forallb (tq_id_storable scrub net) l.


(** ** Responses after which a fetch tries again *)

(** A 200 response from which the first script builds no record. *)
Definition main_broken (r : response) : bool :=
  match r with
  | TransportError => true
  | Resp status body => (status =? 200) && negb (main_extractable body)
  end.

(** A response after which the first script goes on to the next attempt:
    a transient status, or an exception. *)
Definition main_retried (r : response) : bool := transient_http r || main_broken r.

(** The same for the second script. *)
Definition tq_retried (r : response) : bool := transient r || broken r.

(** The trace of [n] retried attempts of the first script: it sleeps
    after a transient status only. *)
Definition main_retries (net : network) (pid : Z) (n : nat) : list event :=
  flat_map (fun a => EvRequest a
                     :: (if transient_http (net pid (a - 1)%nat)
                         then [EvSleep (2 * a)] else []))
    (seq 1 n).


(** The dict literal each script builds from a body it can extract. *)
Definition main_fields (pid : Z) (body : option pyval) : pydict :=
  [ ("id", PInt pid);
    ("name", PStr "");
    ("url_key", get (body_fields body) "url_key");
    ("price", get (body_fields body) "price");
    ("description", PStr "");
    ("image_url", first_image (body_fields body)) ].

Definition tq_fields (scrub : string -> string) (pid : Z) (body : option pyval) : pydict :=
  [ ("id", PInt pid);
    ("name", PStr (cleaned scrub (get (body_fields body) "name")));
    ("url_key", get (body_fields body) "url_key");
    ("price", get (body_fields body) "price");
    ("description", PStr (cleaned scrub (get (body_fields body) "description")));
    ("image_url", first_image (body_fields body)) ].

(** A 200 response whose body is the empty JSON object. *)
Definition net_empty_object : network := fun _ _ => Resp 200 (Some (PDict [])).


(** A 200 response with a price of 0 and no name or description. *)
Definition payload_unnamed_price_0 : pyval :=
  PDict [ ("name", PStr ""); ("url_key", PStr "lamp-1"); ("price", PInt 0);
          ("description", PNone);
          ("images", PList [PDict [("base_url", PStr "http://img/1")]]) ].

Definition net_unnamed_price_0 : network :=
  fun _ _ => Resp 200 (Some payload_unnamed_price_0).


Definition net_503_then_unnamed : network :=
  fun _ k => if (k <? 3)%nat then Resp 503 None
             else Resp 200 (Some payload_unnamed_price_0).

(** A 200 response whose [url_key] is a number: the driver rejects the
    record for the TEXT column. *)
Definition payload_numeric_url_key : pyval :=
  PDict [ ("name", PStr ""); ("url_key", PInt 5); ("price", PInt 10);
          ("description", PStr "") ].

Definition net_numeric_url_key : network :=
  fun _ _ => Resp 200 (Some payload_numeric_url_key).

(** Id 2 is answered 404, id 3 is answered 403, every other id a record
    without name or description. *)
Definition net_mixed_unnamed : network :=
  fun pid k =>
    if pid =? 2 then Resp 404 None
    else if pid =? 3 then Resp 403 None
    else Resp 200 (Some payload_unnamed_price_0).


(** The state of the database after a run of the first script on
    [db_1_done], input ids 1 and 2, id 2 answered 404. *)
Definition db_1_done_2_failed : db :=
  mk_db [mk_qrow 1 "done" None; mk_qrow 2 "error" (Some "Failed after retries")]
    [failure_row 1] [failure_row 2].

(** A queue that is not empty, and the database after a run of the
    second script on it, every request answered 404. *)
Definition db_123 : db := mk_db queue_123 [] [].

Definition db_123_not_found : db :=
  mk_db [mk_qrow 1 "done" None; mk_qrow 2 "error" (Some "404 Not Found");
         mk_qrow 3 "error" (Some "404 Not Found")]
    [] [not_found_row 2; not_found_row 3].

(** * Properties *)

(** ** Tables: lookups after an upsert *)

Lemma bind_returned {A B : Type} (m : outcome A) (f : A -> outcome B) (b : B) :
  bind m f = Returned b -> exists a, m = Returned a /\ f a = Returned b.
Proof.
  destruct m as [a|e]; simpl; intros H; [eauto | discriminate].
Qed.

Lemma bind_raised {A B : Type} (m : outcome A) (f : A -> outcome B) (e : exn) :
  bind m f = Raised e -> m = Raised e \/ exists a, m = Returned a /\ f a = Raised e.
Proof.
  destruct m as [a|e']; simpl; intros H; [right; eauto | left; congruence].
Qed.

Lemma has_row_find (t : table) (id : Z) :
  has_row t id = true <-> exists r, find_row t id = Some r.
Proof.
  unfold has_row, find_row. induction t as [|r t IH]; simpl.
  - split; [discriminate | intros [r H]; discriminate].
  - destruct (p_id r =? id); simpl; [split; eauto | exact IH].
Qed.

Lemma has_row_false_find (t : table) (id : Z) :
  has_row t id = false <-> find_row t id = None.
Proof.
  unfold has_row, find_row. induction t as [|r t IH]; simpl.
  - tauto.
  - destruct (p_id r =? id); simpl; [split; discriminate | exact IH].
Qed.

Lemma find_row_id (t : table) (id : Z) (r : prow) :
  find_row t id = Some r -> p_id r = id.
Proof.
  unfold find_row. intros H. apply find_some in H. lia.
Qed.

Lemma find_row_app (t1 t2 : table) (id : Z) :
  find_row (t1 ++ t2) id =
  match find_row t1 id with Some r => Some r | None => find_row t2 id end.
Proof.
  unfold find_row. induction t1 as [|r t1 IH]; simpl; [reflexivity|].
  destruct (p_id r =? id); [reflexivity | exact IH].
Qed.

Lemma find_row_replace (t : table) (v : prow) (id : Z) :
  find_row (map (fun r => if p_id r =? p_id v then v else r) t) id =
  if id =? p_id v then (if has_row t id then Some v else None) else find_row t id.
Proof.
  unfold find_row, has_row. induction t as [|r t IH]; simpl.
  - destruct (id =? p_id v); reflexivity.
  - destruct (p_id r =? p_id v) eqn:E1.
    + apply Z.eqb_eq in E1. rewrite E1.
      destruct (p_id v =? id) eqn:E2.
      * apply Z.eqb_eq in E2. rewrite <- E2, Z.eqb_refl. reflexivity.
      * rewrite IH. rewrite Z.eqb_sym, E2. reflexivity.
    + destruct (p_id r =? id) eqn:E2.
      * apply Z.eqb_eq in E2. subst id. rewrite E1. reflexivity.
      * rewrite IH. reflexivity.
Qed.

Lemma find_row_upsert (t : table) (v : prow) (id : Z) :
  find_row (upsert_row t v) id = if id =? p_id v then Some v else find_row t id.
Proof.
  unfold upsert_row. destruct (has_row t (p_id v)) eqn:Hh.
  - rewrite find_row_replace. destruct (id =? p_id v) eqn:E; [|reflexivity].
    apply Z.eqb_eq in E. subst id. rewrite Hh. reflexivity.
  - rewrite find_row_app. simpl.
    destruct (id =? p_id v) eqn:E.
    + apply Z.eqb_eq in E. subst id.
      apply has_row_false_find in Hh. rewrite Hh, Z.eqb_refl. reflexivity.
    + rewrite Z.eqb_sym, E. destruct (find_row t id); reflexivity.
Qed.

Lemma map_id_replace (t : table) (v : prow) :
  map p_id (map (fun r => if p_id r =? p_id v then v else r) t) = map p_id t.
Proof.
  induction t as [|r t IH]; simpl; [reflexivity|].
  rewrite IH. destruct (p_id r =? p_id v) eqn:E; [|reflexivity].
  apply Z.eqb_eq in E. congruence.
Qed.

Lemma has_row_in (t : table) (id : Z) :
  has_row t id = true <-> In id (map p_id t).
Proof.
  unfold has_row. rewrite existsb_exists, in_map_iff.
  split; intros [r [H1 H2]]; exists r.
  - apply Z.eqb_eq in H2. tauto.
  - rewrite Z.eqb_eq. tauto.
Qed.

Lemma pk_upsert (t : table) (v : prow) : pk_table t -> pk_table (upsert_row t v).
Proof.
  unfold pk_table, upsert_row. intros H.
  destruct (has_row t (p_id v)) eqn:Hh.
  - rewrite map_id_replace. exact H.
  - rewrite map_app. simpl. apply NoDup_app; [exact H | repeat constructor; simpl; tauto |].
    intros a Ha [Hb|[]]. subst a.
    apply has_row_in in Ha. congruence.
Qed.

Lemma pk_fold_upsert (vs : list prow) (t : table) :
  pk_table t -> pk_table (fold_left upsert_row vs t).
Proof.
  revert t. induction vs as [|v vs IH]; simpl; intros t H; [exact H|].
  apply IH, pk_upsert, H.
Qed.


(** After a batch of upserts, an id outside the batch keeps its row, and
    an id of the batch holds the values of its last tuple. *)
Lemma find_row_fold_other (vs : list prow) (t : table) (id : Z) :
  ~ In id (map p_id vs) -> find_row (fold_left upsert_row vs t) id = find_row t id.
Proof.
  revert t. induction vs as [|v vs IH]; simpl; intros t Hn; [reflexivity|].
  rewrite IH by tauto. rewrite find_row_upsert.
  destruct (id =? p_id v) eqn:E; [|reflexivity].
  apply Z.eqb_eq in E. symmetry in E. tauto.
Qed.

Lemma find_row_fold_in (vs : list prow) (t : table) (v : prow) :
  In v vs -> (forall v', In v' vs -> p_id v' = p_id v -> v' = v) ->
  find_row (fold_left upsert_row vs t) (p_id v) = Some v.
Proof.
  revert t. induction vs as [|w vs IH]; simpl; intros t Hin Hsame; [tauto|].
  destruct (in_dec Z.eq_dec (p_id v) (map p_id vs)) as [Hi|Hni].
  - apply in_map_iff in Hi. destruct Hi as [v' [Hid Hv']].
    assert (v' = v) by (apply Hsame; auto). subst v'.
    apply IH; auto.
  - rewrite find_row_fold_other by exact Hni.
    rewrite find_row_upsert.
    destruct Hin as [->|Hin].
    + rewrite Z.eqb_refl. reflexivity.
    + exfalso. apply Hni. apply in_map. exact Hin.
Qed.

Lemma has_row_fold (vs : list prow) (t : table) (id : Z) :
  has_row (fold_left upsert_row vs t) id = true <->
  has_row t id = true \/ In id (map p_id vs).
Proof.
  revert t. induction vs as [|v vs IH]; simpl; intros t; [tauto|].
  rewrite IH. rewrite !has_row_find.
  split.
  - intros [[r Hr]|H]; [|tauto]. rewrite find_row_upsert in Hr.
    destruct (id =? p_id v) eqn:E.
    + apply Z.eqb_eq in E. right. left. congruence.
    + left. eauto.
  - intros [[r Hr]|[H|H]]; [| |tauto]; left; rewrite find_row_upsert.
    + destruct (id =? p_id v); eauto.
    + subst id. rewrite Z.eqb_refl. eauto.
Qed.

(** ** The queue: lookups after an update or an insertion *)

Lemma has_qrow_find (q : queue) (id : Z) :
  has_qrow q id = true <-> exists r, find_qrow q id = Some r.
Proof.
  unfold has_qrow, find_qrow. induction q as [|r q IH]; simpl.
  - split; [discriminate | intros [r H]; discriminate].
  - destruct (q_id r =? id); simpl; [split; eauto | exact IH].
Qed.

Lemma has_qrow_false_find (q : queue) (id : Z) :
  has_qrow q id = false <-> find_qrow q id = None.
Proof.
  unfold has_qrow, find_qrow. induction q as [|r q IH]; simpl.
  - tauto.
  - destruct (q_id r =? id); simpl; [split; discriminate | exact IH].
Qed.

Lemma has_qrow_in (q : queue) (id : Z) :
  has_qrow q id = true <-> In id (map q_id q).
Proof.
  unfold has_qrow. rewrite existsb_exists, in_map_iff.
  split; intros [r [H1 H2]]; exists r.
  - apply Z.eqb_eq in H2. tauto.
  - rewrite Z.eqb_eq. tauto.
Qed.

Lemma find_qrow_id (q : queue) (id : Z) (r : qrow) :
  find_qrow q id = Some r -> q_id r = id.
Proof.
  unfold find_qrow. intros H. apply find_some in H. lia.
Qed.

Lemma find_qrow_in (q : queue) (id : Z) (r : qrow) :
  find_qrow q id = Some r -> In r q.
Proof.
  unfold find_qrow. intros H. apply find_some in H. tauto.
Qed.

(** With the primary key unique, a row of the queue is the row found
    under its id. *)
Lemma pk_find_qrow (q : queue) (r : qrow) :
  pk_queue q -> In r q -> find_qrow q (q_id r) = Some r.
Proof.
  unfold pk_queue, find_qrow. induction q as [|r0 q IH]; simpl; [tauto|].
  intros Hnd Hin. inversion Hnd as [|x l Hnot Hnd']; subst.
  destruct Hin as [->|Hin].
  - rewrite Z.eqb_refl. reflexivity.
  - destruct (q_id r0 =? q_id r) eqn:E.
    + apply Z.eqb_eq in E. exfalso. apply Hnot. rewrite E. apply in_map, Hin.
    + apply IH; assumption.
Qed.

Lemma find_qrow_app (q1 q2 : queue) (id : Z) :
  find_qrow (q1 ++ q2) id =
  match find_qrow q1 id with Some r => Some r | None => find_qrow q2 id end.
Proof.
  unfold find_qrow. induction q1 as [|r q1 IH]; simpl; [reflexivity|].
  destruct (q_id r =? id); [reflexivity | exact IH].
Qed.

Lemma find_qrow_update_row (status : string) (le : option string) (pid : Z)
  (q : queue) (id : Z) :
  find_qrow (update_row status le pid q) id =
  if id =? pid
  then (if has_qrow q id then Some (mk_qrow id status le) else None)
  else find_qrow q id.
Proof.
  unfold find_qrow, has_qrow, update_row. induction q as [|r q IH]; simpl.
  - destruct (id =? pid); reflexivity.
  - destruct (q_id r =? pid) eqn:E1; simpl.
    + apply Z.eqb_eq in E1. rewrite E1.
      destruct (pid =? id) eqn:E2.
      * apply Z.eqb_eq in E2. subst id. rewrite Z.eqb_refl. reflexivity.
      * rewrite IH. rewrite Z.eqb_sym, E2. reflexivity.
    + destruct (q_id r =? id) eqn:E2.
      * apply Z.eqb_eq in E2. subst id. rewrite E1. reflexivity.
      * rewrite IH. reflexivity.
Qed.

Lemma map_id_update_row (status : string) (le : option string) (pid : Z) (q : queue) :
  map q_id (update_row status le pid q) = map q_id q.
Proof.
  unfold update_row. induction q as [|r q IH]; simpl; [reflexivity|].
  rewrite IH. destruct (q_id r =? pid); reflexivity.
Qed.

Lemma has_qrow_same_ids (q q' : queue) (id : Z) :
  map q_id q' = map q_id q -> has_qrow q' id = has_qrow q id.
Proof.
  intros H. destruct (has_qrow q id) eqn:E.
  - apply has_qrow_in. rewrite H. apply has_qrow_in, E.
  - destruct (has_qrow q' id) eqn:E'; [|reflexivity].
    apply has_qrow_in in E'. rewrite H in E'. apply has_qrow_in in E'. congruence.
Qed.

Lemma fold_update_row_ids (status : string) (le : option string) (ids : list Z) (q : queue) :
  map q_id (fold_left (fun q pid => update_row status le pid q) ids q) = map q_id q.
Proof.
  revert q. induction ids as [|pid ids IH]; simpl; intros q; [reflexivity|].
  rewrite IH. apply map_id_update_row.
Qed.

Lemma fold_update_row_other (status : string) (le : option string) (ids : list Z)
  (q : queue) (id : Z) :
  ~ In id ids ->
  find_qrow (fold_left (fun q pid => update_row status le pid q) ids q) id = find_qrow q id.
Proof.
  revert q. induction ids as [|pid ids IH]; simpl; intros q Hn; [reflexivity|].
  rewrite IH by tauto. rewrite find_qrow_update_row.
  destruct (id =? pid) eqn:E; [|reflexivity].
  apply Z.eqb_eq in E. symmetry in E. tauto.
Qed.

Lemma fold_update_row_in (status : string) (le : option string) (ids : list Z)
  (q : queue) (id : Z) :
  In id ids -> has_qrow q id = true ->
  find_qrow (fold_left (fun q pid => update_row status le pid q) ids q) id
  = Some (mk_qrow id status le).
Proof.
  revert q. induction ids as [|pid ids IH]; simpl; intros q Hin Hh; [tauto|].
  destruct (in_dec Z.eq_dec id ids) as [Hi|Hni].
  - apply IH; [exact Hi|].
    rewrite (has_qrow_same_ids q); [exact Hh | apply map_id_update_row].
  - destruct Hin as [->|Hin]; [|tauto].
    rewrite fold_update_row_other by exact Hni.
    rewrite find_qrow_update_row, Z.eqb_refl, Hh. reflexivity.
Qed.

Lemma find_qrow_update_any (status : string) (le : option string) (ids : list Z)
  (q : queue) (id : Z) :
  find_qrow (TikiQueue.update_any status le ids q) id =
  if existsb (Z.eqb id) ids
  then (if has_qrow q id then Some (mk_qrow id status le) else None)
  else find_qrow q id.
Proof.
  unfold find_qrow, has_qrow, TikiQueue.update_any.
  induction q as [|r q IH]; simpl.
  - destruct (existsb (Z.eqb id) ids); reflexivity.
  - destruct (q_id r =? id) eqn:E.
    + apply Z.eqb_eq in E. subst id.
      destruct (existsb (Z.eqb (q_id r)) ids) eqn:Ex; simpl; rewrite Z.eqb_refl; reflexivity.
    + destruct (existsb (Z.eqb (q_id r)) ids) eqn:Ex; simpl; rewrite E; exact IH.
Qed.

Lemma map_id_update_any (status : string) (le : option string) (ids : list Z) (q : queue) :
  map q_id (TikiQueue.update_any status le ids q) = map q_id q.
Proof.
  unfold TikiQueue.update_any. induction q as [|r q IH]; simpl; [reflexivity|].
  rewrite IH. destruct (existsb (Z.eqb (q_id r)) ids); reflexivity.
Qed.

Lemma existsb_eqb_in (id : Z) (ids : list Z) :
  existsb (Z.eqb id) ids = true <-> In id ids.
Proof.
  rewrite existsb_exists. split.
  - intros [x [H1 H2]]. apply Z.eqb_eq in H2. congruence.
  - intros H. exists id. rewrite Z.eqb_refl. tauto.
Qed.

(** The three facts about [update_queue_status] used below, for each script. *)

Lemma main_update_ids (q : queue) (ids : list Z) (status : string) (msg : option string) :
  map q_id (Main.update_queue_status q ids status msg) = map q_id q.
Proof.
  unfold Main.update_queue_status. destruct ids as [|i ids]; [reflexivity|].
  destruct msg as [m|]; [destruct (m =? "")%string|]; apply fold_update_row_ids.
Qed.

Lemma main_update_other (q : queue) (ids : list Z) (status : string)
  (msg : option string) (id : Z) :
  ~ In id ids -> find_qrow (Main.update_queue_status q ids status msg) id = find_qrow q id.
Proof.
  unfold Main.update_queue_status. intros Hn. destruct ids as [|i ids]; [reflexivity|].
  destruct msg as [m|]; [destruct (m =? "")%string|]; apply fold_update_row_other, Hn.
Qed.

Lemma main_update_in (q : queue) (ids : list Z) (status : string)
  (msg : option string) (id : Z) :
  In id ids -> has_qrow q id = true ->
  find_qrow (Main.update_queue_status q ids status msg) id
  = Some (mk_qrow id status (stored_error msg)).
Proof.
  unfold Main.update_queue_status, stored_error. intros Hin Hh.
  destruct ids as [|i ids]; [destruct Hin|].
  destruct msg as [m|]; [destruct (m =? "")%string|]; apply fold_update_row_in; assumption.
Qed.

Lemma tq_update_ids (q : queue) (ids : list Z) (status : string) (msg : option string) :
  map q_id (TikiQueue.update_queue_status q ids status msg) = map q_id q.
Proof.
  unfold TikiQueue.update_queue_status. destruct ids as [|i ids]; [reflexivity|].
  destruct msg as [m|]; [destruct (m =? "")%string|]; apply map_id_update_any.
Qed.

Lemma tq_update_other (q : queue) (ids : list Z) (status : string)
  (msg : option string) (id : Z) :
  ~ In id ids ->
  find_qrow (TikiQueue.update_queue_status q ids status msg) id = find_qrow q id.
Proof.
  unfold TikiQueue.update_queue_status. intros Hn. destruct ids as [|i ids]; [reflexivity|].
  assert (E : existsb (Z.eqb id) (i :: ids) = false).
  { destruct (existsb (Z.eqb id) (i :: ids)) eqn:E; [|reflexivity].
    apply existsb_eqb_in in E. tauto. }
  destruct msg as [m|]; [destruct (m =? "")%string|];
    rewrite find_qrow_update_any, E; reflexivity.
Qed.

Lemma tq_update_in (q : queue) (ids : list Z) (status : string)
  (msg : option string) (id : Z) :
  In id ids -> has_qrow q id = true ->
  find_qrow (TikiQueue.update_queue_status q ids status msg) id
  = Some (mk_qrow id status (stored_error msg)).
Proof.
  unfold TikiQueue.update_queue_status, stored_error. intros Hin Hh.
  destruct ids as [|i ids]; [destruct Hin|].
  apply existsb_eqb_in in Hin.
  destruct msg as [m|]; [destruct (m =? "")%string|];
    rewrite find_qrow_update_any, Hin, Hh; reflexivity.
Qed.

(** ** Selection of the outstanding work *)

Lemma selected_iff (f : qrow -> bool) (q : queue) (id : Z) :
  pk_queue q ->
  (In id (map q_id (filter f q)) <-> exists r, find_qrow q id = Some r /\ f r = true).
Proof.
  intros Hpk. rewrite in_map_iff. split.
  - intros [r [Hid Hin]]. apply filter_In in Hin. destruct Hin as [Hin Hf].
    exists r. split; [|exact Hf]. subst id. apply pk_find_qrow; assumption.
  - intros [r [Hfind Hf]]. exists r. split; [eapply find_qrow_id; eauto|].
    apply filter_In. split; [eapply find_qrow_in; eauto | exact Hf].
Qed.

Lemma pending_or_error_selected (q : queue) (id : Z) :
  pk_queue q ->
  (In id (TikiQueue.fetch_pending_or_error_ids q)
     <-> status_is q id "pending" \/ status_is q id "error").
Proof.
  intros Hpk. unfold TikiQueue.fetch_pending_or_error_ids, status_is.
  rewrite selected_iff by exact Hpk. split.
  - intros [r [Hr Hf]]. apply orb_true_iff in Hf.
    destruct Hf as [Hf|Hf]; apply String.eqb_eq in Hf; [left|right]; eauto.
  - intros [[r [Hr Hs]]|[r [Hr Hs]]]; exists r; split; auto;
      rewrite Hs; reflexivity.
Qed.

Lemma pending_selected (q : queue) (id : Z) :
  pk_queue q -> (In id (Main.fetch_pending_ids q) <-> status_is q id "pending").
Proof.
  intros Hpk. unfold Main.fetch_pending_ids, status_is.
  rewrite selected_iff by exact Hpk. split.
  - intros [r [Hr Hf]]. apply String.eqb_eq in Hf. eauto.
  - intros [r [Hr Hs]]. exists r. split; auto. rewrite Hs. reflexivity.
Qed.

(** C1, as amended.  With the primary key of the queue unique: the second
    script selects exactly the ids whose status is 'pending' or 'error';
    the first script selects exactly the ids whose status is 'pending',
    so it does not select an id whose status is 'error'; neither selects
    an id whose status is 'done'. *)
Theorem outstanding_selection (q : queue) (id : Z) :
  pk_queue q ->
  (In id (TikiQueue.fetch_pending_or_error_ids q)
     <-> status_is q id "pending" \/ status_is q id "error")
  /\ (In id (Main.fetch_pending_ids q) <-> status_is q id "pending")
  /\ (status_is q id "done" ->
        ~ In id (TikiQueue.fetch_pending_or_error_ids q)
        /\ ~ In id (Main.fetch_pending_ids q)).
Proof.
  intros Hpk.
  pose proof (pending_or_error_selected q id Hpk) as H2.
  pose proof (pending_selected q id Hpk) as H1.
  split; [exact H2|]. split; [exact H1|].
  intros [r [Hr Hs]]. rewrite H2, H1. unfold status_is.
  split; intros H; repeat destruct H as [H|H]; destruct H as [r' [Hr' Hs']];
    rewrite Hr in Hr'; inversion Hr'; subst r'; rewrite Hs in Hs'; discriminate.
Qed.

Lemma outstanding_selection_witness :
  (In 2 (TikiQueue.fetch_pending_or_error_ids queue_123)
     <-> status_is queue_123 2 "pending" \/ status_is queue_123 2 "error")
  /\ (In 2 (Main.fetch_pending_ids queue_123) <-> status_is queue_123 2 "pending")
  /\ (status_is queue_123 2 "done" ->
        ~ In 2 (TikiQueue.fetch_pending_or_error_ids queue_123)
        /\ ~ In 2 (Main.fetch_pending_ids queue_123)).
Proof.
  apply (outstanding_selection queue_123 2).
  unfold pk_queue. simpl. repeat constructor; simpl; intuition lia.
Defined.

(** C1 as stated fails on the first script: an id whose status is 'error'
    is not selected by [fetch_pending_ids]. *)
Lemma main_skips_error_ids :
  pk_queue queue_2_error
  /\ status_is queue_2_error 2 "error"
  /\ ~ In 2 (Main.fetch_pending_ids queue_2_error).
Proof.
  split; [|split].
  - unfold pk_queue. simpl. repeat constructor. simpl. tauto.
  - eexists. split; reflexivity.
  - simpl. tauto.
Qed.

(** ** The retry loop *)

Lemma sleeps_app (t1 t2 : list event) : sleeps (t1 ++ t2) = sleeps t1 ++ sleeps t2.
Proof. apply flat_map_app. Qed.

Lemma requests_app (t1 t2 : list event) : requests (t1 ++ t2) = requests t1 ++ requests t2.
Proof. apply flat_map_app. Qed.

(** A result comes from the iteration that returned it. *)
Lemma retry_loop_found (step : nat -> outcome flow * list event) (l : list nat) (r : pydict) :
  fst (retry_loop step l) = Returned (Some r) ->
  exists a ev, In a l /\ step a = (Returned (Return_ r), ev).
Proof.
  induction l as [|a l IH]; simpl; [discriminate|].
  destruct (step a) as [[[r'| |]|e] ev] eqn:E; simpl; intros H; try discriminate.
  - inversion H; subst. exists a, ev. auto.
  - destruct (IH H) as [a' [ev' [Hin Hs]]]. exists a', ev'. auto.
Qed.

Lemma retry_loop_raised (step : nat -> outcome flow * list event) (l : list nat) (e : exn) :
  fst (retry_loop step l) = Raised e ->
  exists a ev, In a l /\ step a = (Raised e, ev).
Proof.
  induction l as [|a l IH]; simpl; [discriminate|].
  destruct (step a) as [[[r'| |]|e'] ev] eqn:E; simpl; intros H; try discriminate.
  - destruct (IH H) as [a' [ev' [Hin Hs]]]. exists a', ev'. auto.
  - inversion H; subst. exists a, ev. auto.
Qed.

(** [n] iterations that each go on to the next one. *)
Lemma retry_loop_prefix (step : nat -> outcome flow * list event)
  (evs : nat -> list event) (n : nat) :
  forall a m, (n <= m)%nat ->
    (forall k, (k < n)%nat -> step (a + k)%nat = (Returned Next, evs (a + k)%nat)) ->
    retry_loop step (seq a m) =
    (fst (retry_loop step (seq (a + n) (m - n))),
     flat_map evs (seq a n) ++ snd (retry_loop step (seq (a + n) (m - n)))).
Proof.
  induction n as [|n IH]; intros a m Hle Hstep.
  - simpl. rewrite Nat.add_0_r, Nat.sub_0_r. apply surjective_pairing.
  - destruct m as [|m]; [lia|]. simpl seq. cbn [retry_loop].
    assert (H0 : step a = (Returned Next, evs a)).
    { specialize (Hstep 0%nat). rewrite Nat.add_0_r in Hstep. apply Hstep. lia. }
    rewrite H0. cbn [flat_map].
    rewrite (IH (S a) m) by
      (try lia; intros k Hk; replace (S a + k)%nat with (a + S k)%nat by lia;
       apply Hstep; lia).
    cbn [fst snd]. replace (S a + n)%nat with (a + S n)%nat by lia.
    replace (S m - S n)%nat with (m - n)%nat by lia.
    rewrite app_assoc. reflexivity.
Qed.

Lemma non_decreasing_cons (x : nat) (l : list nat) :
  Forall (fun y => (x <= y)%nat) l -> non_decreasing l -> non_decreasing (x :: l).
Proof.
  intros Hall Hl i j u v Hij Hi Hj.
  destruct i as [|i]; destruct j as [|j]; simpl in *.
  - inversion Hi; inversion Hj; subst; lia.
  - inversion Hi; subst. rewrite Forall_forall in Hall.
    apply Hall. eapply nth_error_In; eauto.
  - lia.
  - eapply Hl; [|eauto|eauto]. lia.
Qed.

Lemma non_decreasing_nil : non_decreasing [].
Proof.
  intros i j x y _ Hi. destruct i; discriminate.
Qed.

(** When the iteration for attempt [a] sleeps at most once, for [c * (a + d)]
    seconds, the sleeps of the loop never decrease, and the loop issues at
    most one request per attempt. *)
Lemma retry_loop_sleeps (step : nat -> outcome flow * list event) (d : nat) :
  (forall a, sleeps (snd (step a)) = [] \/ sleeps (snd (step a)) = [2 * (a + d)]%nat) ->
  forall m a,
    non_decreasing (sleeps (snd (retry_loop step (seq a m))))
    /\ Forall (fun s => (2 * (a + d) <= s)%nat) (sleeps (snd (retry_loop step (seq a m)))).
Proof.
  intros Hstep. induction m as [|m IH]; intros a; cbn [seq retry_loop].
  - split; [apply non_decreasing_nil | constructor].
  - destruct (IH (S a)) as [Hnd Hall].
    assert (Hall' : Forall (fun s => (2 * (a + d) <= s)%nat)
                      (sleeps (snd (retry_loop step (seq (S a) m))))).
    { eapply Forall_impl; [|exact Hall]. simpl. intros; lia. }
    specialize (Hstep a).
    assert (Hone : forall ev, sleeps ev = [] \/ sleeps ev = [2 * (a + d)]%nat ->
              non_decreasing (sleeps ev)
              /\ Forall (fun s => (2 * (a + d) <= s)%nat) (sleeps ev)).
    { intros ev0 [Hs|Hs]; rewrite Hs; split.
      - apply non_decreasing_nil.
      - constructor.
      - apply non_decreasing_cons; [constructor | apply non_decreasing_nil].
      - constructor; [lia | constructor]. }
    destruct (step a) as [[[r| |]|e] ev] eqn:E; cbn [snd fst] in *;
      try (apply Hone; exact Hstep).
    rewrite sleeps_app.
    destruct Hstep as [Hs|Hs]; rewrite Hs; simpl.
    + split; assumption.
    + split; [apply non_decreasing_cons; assumption|].
      constructor; [lia | exact Hall'].
Qed.

Lemma retry_loop_requests (step : nat -> outcome flow * list event) :
  (forall a, List.length (requests (snd (step a))) = 1%nat) ->
  forall l, (List.length (requests (snd (retry_loop step l))) <= List.length l)%nat.
Proof.
  intros Hstep. induction l as [|a l IH]; cbn [retry_loop List.length]; [simpl; lia|].
  specialize (Hstep a).
  destruct (step a) as [[[r| |]|e] ev] eqn:E; cbn [snd fst] in *; try lia.
  rewrite requests_app, length_app. lia.
Qed.

(** ** The normaliser *)

Section NormalizerFacts.

Variable scrub : string -> string.

Lemma extract_shape (kept : list class_item) (pid : Z) (body : option pyval)
  (base : pydict) :
  extract scrub kept pid body = Returned base ->
  exists name url_key price description img,
    base = [ ("id", PInt pid); ("name", PStr name); ("url_key", url_key);
             ("price", price); ("description", PStr description);
             ("image_url", img) ].
Proof.
  unfold extract. intros H.
  apply bind_returned in H. destruct H as [json [_ H]].
  apply bind_returned in H. destruct H as [data [_ H]].
  apply bind_returned in H. destruct H as [name [_ H]].
  apply bind_returned in H. destruct H as [description [_ H]].
  apply bind_returned in H. destruct H as [img [_ H]].
  inversion H. do 5 eexists. reflexivity.
Qed.

Lemma normalize_shape (kept : list class_item) (is_missing : pyval -> bool) (pid : Z)
  (body : option pyval) (r : pydict) :
  normalize scrub kept is_missing pid body = Returned r -> product_record pid r.
Proof.
  unfold normalize. intros H.
  apply bind_returned in H. destruct H as [base [Hb H]].
  apply extract_shape in Hb.
  destruct Hb as [name [uk [price [description [img Hb]]]]]. subst base.
  inversion H. unfold product_record, with_missing. cbn [dict_set String.eqb Ascii.eqb Bool.eqb].
  do 6 eexists. reflexivity.
Qed.

Lemma product_record_id (pid : Z) (r : pydict) :
  product_record pid r -> dict_get r "id" = Some (PInt pid).
Proof.
  intros [n [u [p [d [i [m H]]]]]]. subst r. reflexivity.
Qed.

(** The tuple of a record built from a decoded body carries its id. *)
Lemma product_record_values (pid : Z) (r : pydict) (v : prow) :
  product_record pid r -> values_of r = Returned v -> p_id v = pid.
Proof.
  intros [n [u [p [d [i [m H]]]]]]. subst r. unfold values_of.
  cbn [get dict_get String.eqb Ascii.eqb Bool.eqb as_bigint].
  destruct (int64 pid); cbn [bind]; [|discriminate].
  intros H. repeat (apply bind_returned in H; destruct H as [? [_ H]]).
  inversion H. reflexivity.
Qed.

(** A record built from a decoded body is never fully empty: its [name]
    is a string. *)
Lemma product_record_not_empty (pid : Z) (r : pydict) :
  product_record pid r -> Main.is_fully_empty r = Returned false.
Proof.
  intros [n [u [p [d [i [m H]]]]]]. subst r. reflexivity.
Qed.

Lemma failure_record_empty (pid : Z) :
  Main.is_fully_empty (Main.failure_record pid) = Returned true.
Proof. reflexivity. Qed.

(** ** One attempt of the first script *)

Lemma transient_not_200 (status : Z) :
  transient_status status = true -> (status =? 200) = false.
Proof.
  intros H. destruct (status =? 200) eqn:E; [|reflexivity].
  apply Z.eqb_eq in E. subst status. discriminate.
Qed.

Lemma transient_not_404 (status : Z) :
  transient_status status = true -> (status =? 404) = false.
Proof.
  intros H. destruct (status =? 404) eqn:E; [|reflexivity].
  apply Z.eqb_eq in E. subst status. discriminate.
Qed.

Lemma main_step_returned (net : network) (pid : Z) (a : nat) :
  exists f, fst (Main.attempt_step scrub net pid a) = Returned f.
Proof.
  unfold Main.attempt_step.
  destruct (Main.try_body scrub net pid a) as [[f|e] ev]; simpl; eauto.
Qed.

Lemma main_step_found (net : network) (pid : Z) (a : nat) (r : pydict) (ev : list event) :
  Main.attempt_step scrub net pid a = (Returned (Return_ r), ev) ->
  exists body, net pid a = Resp 200 body
               /\ normalize scrub Main.KEPT_CHARS Main.is_missing pid body = Returned r.
Proof.
  unfold Main.attempt_step, Main.try_body.
  destruct (net pid a) as [status body|]; [|discriminate].
  destruct (status =? 200) eqn:E200.
  - apply Z.eqb_eq in E200. subst status.
    destruct (normalize scrub Main.KEPT_CHARS Main.is_missing pid body) as [r'|e] eqn:En; simpl;
      intros H; inversion H; subst. eauto.
  - destruct (transient_status status); discriminate.
Qed.

Lemma main_step_transient (net : network) (pid : Z) (a : nat) :
  transient_http (net pid a) = true ->
  Main.attempt_step scrub net pid a
  = (Returned Next, [EvRequest (a + 1); EvSleep (2 * (a + 1))]).
Proof.
  unfold Main.attempt_step, Main.try_body, transient_http.
  destruct (net pid a) as [status body|]; [|discriminate].
  intros H. rewrite (transient_not_200 _ H), H. reflexivity.
Qed.

Lemma main_step_exception (net : network) (pid : Z) (a : nat) :
  net pid a = TransportError ->
  Main.attempt_step scrub net pid a = (Returned Next, [EvRequest (a + 1)]).
Proof.
  unfold Main.attempt_step, Main.try_body. intros H. rewrite H. reflexivity.
Qed.

Lemma main_step_break (net : network) (pid : Z) (a : nat) :
  (other_status (net pid a) || is_404 (net pid a)) = true ->
  Main.attempt_step scrub net pid a = (Returned Break, [EvRequest (a + 1)]).
Proof.
  unfold Main.attempt_step, Main.try_body, other_status, is_404.
  destruct (net pid a) as [status body|]; [|discriminate].
  intros H.
  destruct (status =? 200) eqn:E200.
  - apply Z.eqb_eq in E200. subst status. discriminate.
  - destruct (transient_status status) eqn:Et.
    + rewrite (transient_not_404 _ Et) in H. simpl in H. discriminate.
    + reflexivity.
Qed.

Lemma main_step_sleeps (net : network) (pid : Z) (a : nat) :
  sleeps (snd (Main.attempt_step scrub net pid a)) = []
  \/ sleeps (snd (Main.attempt_step scrub net pid a)) = [2 * (a + 1)]%nat.
Proof.
  unfold Main.attempt_step, Main.try_body.
  destruct (net pid a) as [status body|]; [|left; reflexivity].
  destruct (status =? 200).
  - destruct (normalize scrub Main.KEPT_CHARS Main.is_missing pid body); left; reflexivity.
  - destruct (transient_status status); [right | left]; reflexivity.
Qed.

Lemma main_step_requests (net : network) (pid : Z) (a : nat) :
  List.length (requests (snd (Main.attempt_step scrub net pid a))) = 1%nat.
Proof.
  unfold Main.attempt_step, Main.try_body.
  destruct (net pid a) as [status body|]; [|reflexivity].
  destruct (status =? 200).
  - destruct (normalize scrub Main.KEPT_CHARS Main.is_missing pid body); reflexivity.
  - destruct (transient_status status); reflexivity.
Qed.

(** The retry loop of the first script never raises. *)
Lemma main_loop_returned (net : network) (pid : Z) (l : list nat) :
  exists o, fst (retry_loop (Main.attempt_step scrub net pid) l) = Returned o.
Proof.
  destruct (fst (retry_loop (Main.attempt_step scrub net pid) l)) as [o|e] eqn:E;
    [eauto|].
  apply retry_loop_raised in E. destruct E as [a [ev [_ E]]].
  destruct (main_step_returned net pid a) as [f Hf].
  rewrite E in Hf. discriminate.
Qed.

Lemma main_found_record (net : network) (pid : Z) (r : pydict) :
  main_found scrub net pid = Some r -> product_record pid r.
Proof.
  unfold main_found.
  destruct (fst (retry_loop (Main.attempt_step scrub net pid) (seq 0 RETRIES)))
    as [o|e] eqn:E; [|discriminate].
  intros ->. apply retry_loop_found in E. destruct E as [a [ev [_ E]]].
  apply main_step_found in E. destruct E as [body [_ E]].
  eapply normalize_shape; eauto.
Qed.

Lemma main_fetch_product_eq (net : network) (pid : Z) (rc : counter) :
  fst (Main.fetch_product scrub net pid rc) =
  Returned (match main_found scrub net pid with
            | Some r => (r, rc)
            | None => (Main.failure_record pid,
                       counter_set rc pid (counter_get rc pid + 1))
            end).
Proof.
  unfold Main.fetch_product, main_found. cbn [fst].
  destruct (main_loop_returned net pid (seq 0 RETRIES)) as [o Ho].
  rewrite Ho. simpl. destruct o; reflexivity.
Qed.

End NormalizerFacts.

(** ** Argument tuples *)

Lemma storable_values (r : pydict) :
  storable r = true -> exists v, values_of r = Returned v.
Proof.
  unfold storable. destruct (values_of r) as [v|e]; [eauto | discriminate].
Qed.

Lemma values_storable (r : pydict) (v : prow) :
  values_of r = Returned v -> storable r = true.
Proof. unfold storable. intros ->. reflexivity. Qed.

Lemma as_bigint_raises (v : pyval) (e : exn) : as_bigint v = Raised e -> e = DataError.
Proof.
  destruct v; simpl; try (intros H; inversion H; reflexivity).
  destruct (int64 n); intros H; inversion H; reflexivity.
Qed.

Lemma as_text_raises (v : pyval) (e : exn) : as_text v = Raised e -> e = DataError.
Proof.
  destruct v; simpl; try (intros H; inversion H; reflexivity).
  destruct (has_nul s); intros H; inversion H; reflexivity.
Qed.

Lemma as_numeric_raises (v : pyval) (e : exn) : as_numeric v = Raised e -> e = DataError.
Proof.
  destruct v; simpl; try (intros H; inversion H; reflexivity).
  destruct (Z.log2 (Z.abs n) <? 435411); intros H; inversion H; reflexivity.
Qed.

(** The driver rejects an argument with [DataError] and nothing else. *)
Lemma values_of_raises (r : pydict) (e : exn) : values_of r = Raised e -> e = DataError.
Proof.
  unfold values_of. intros H.
  repeat match type of H with
         | bind _ _ = Raised _ =>
             apply bind_raised in H;
             destruct H as [H|[? [_ H]]];
             [first [apply as_bigint_raises in H | apply as_text_raises in H
                    | apply as_numeric_raises in H]; exact H|]
         end.
  discriminate.
Qed.

Lemma mapM_values_accepted (rs : list pydict) :
  forallb storable rs = true ->
  exists vs, mapM values_of rs = Returned vs.
Proof.
  induction rs as [|r rs IH]; cbn [forallb mapM]; intros H; [eauto|].
  apply andb_true_iff in H. destruct H as [Hr Hrs].
  destruct (storable_values r Hr) as [v Hv]. destruct (IH Hrs) as [vs Hvs].
  rewrite Hv, Hvs. cbn [bind]. eauto.
Qed.

Lemma mapM_values_rejected (rs : list pydict) :
  forallb storable rs = false -> mapM values_of rs = Raised DataError.
Proof.
  induction rs as [|r rs IH]; cbn [forallb mapM]; intros H; [discriminate|].
  unfold storable in H at 1.
  destruct (values_of r) as [v|e] eqn:Ev; cbn [bind andb] in *.
  - rewrite (IH H). reflexivity.
  - rewrite (values_of_raises r e Ev). reflexivity.
Qed.

Lemma failure_record_values (pid : Z) :
  values_of (Main.failure_record pid)
  = if int64 pid then Returned (failure_row pid) else Raised DataError.
Proof.
  unfold values_of, Main.failure_record, FIELDS.
  cbn [map get dict_get String.eqb Ascii.eqb Bool.eqb negb as_bigint].
  destruct (int64 pid); reflexivity.
Qed.

Lemma failure_records_values (ids : list Z) :
  mapM values_of (map Main.failure_record ids)
  = if forallb int64 ids then Returned (map failure_row ids) else Raised DataError.
Proof.
  induction ids as [|pid ids IH]; [reflexivity|].
  cbn [map mapM forallb]. rewrite failure_record_values, IH.
  destruct (int64 pid), (forallb int64 ids); reflexivity.
Qed.

(** ** A batch of the first script *)

Section MainBatch.

Variable scrub : string -> string.
Variable completion_order : list Z -> list Z.
Variable net : network.

Lemma main_process_loop (l : list Z) :
  forall good error rc,
  exists rc',
    Main.process_loop scrub net l good error rc =
    Returned (good ++ main_goods scrub net l,
              error ++ map Main.failure_record (main_error_ids scrub net l),
              rc').
Proof.
  induction l as [|pid l IH]; intros good error rc.
  - exists rc. simpl. rewrite !app_nil_r. reflexivity.
  - cbn [Main.process_loop]. rewrite main_fetch_product_eq.
    unfold main_goods, main_error_ids. cbn [bind filter flat_map].
    destruct (main_found scrub net pid) as [r|] eqn:Ef; cbn [fst snd is_some negb].
    + rewrite (product_record_not_empty pid r) by (eapply main_found_record; eauto).
      cbn [bind].
      destruct (IH (good ++ [r]) error rc) as [rc' H]. exists rc'.
      rewrite H. rewrite <- app_assoc. reflexivity.
    + rewrite failure_record_empty. cbn [bind].
      destruct (IH good (error ++ [Main.failure_record pid])
                  (counter_set rc pid (counter_get rc pid + 1))) as [rc' H].
      exists rc'. rewrite H. cbn [map]. rewrite <- app_assoc. reflexivity.
Qed.

Lemma main_goods_ids (l : list Z) :
  ids_of (main_goods scrub net l) = Returned (main_good_ids scrub net l).
Proof.
  unfold ids_of, main_goods, main_good_ids.
  induction l as [|pid l IH]; cbn [flat_map filter]; [reflexivity|].
  destruct (main_found scrub net pid) as [r|] eqn:Ef; cbn [is_some app]; [|exact IH].
  cbn [mapM]. rewrite (product_record_id pid r) by (eapply main_found_record; eauto).
  rewrite IH. reflexivity.
Qed.

Lemma failure_records_ids (ids : list Z) :
  ids_of (map Main.failure_record ids) = Returned ids.
Proof.
  unfold ids_of. induction ids as [|pid ids IH]; [reflexivity|].
  cbn [map mapM]. rewrite IH. reflexivity.
Qed.

Lemma main_insert_batch_eq (t : table) (records : list pydict) :
  Main.insert_batch t records = executemany_upsert t records.
Proof. destruct records; reflexivity. Qed.

(** The rows of the records fetched, when the driver accepts them. *)
Lemma main_goods_values (l : list Z) :
  main_batch_storable scrub net l = true ->
  mapM values_of (main_goods scrub net l) = Returned (main_good_rows scrub net l)
  /\ map p_id (main_good_rows scrub net l) = main_good_ids scrub net l.
Proof.
  unfold main_batch_storable, main_goods, main_good_ids, main_good_rows.
  induction l as [|pid l IH]; cbn [flat_map filter forallb]; intros H.
  - split; reflexivity.
  - apply andb_true_iff in H. destruct H as [Hp Hl].
    destruct (IH Hl) as [IH1 IH2]. unfold main_id_storable in Hp.
    destruct (main_found scrub net pid) as [r|] eqn:Ef; cbn [is_some app].
    + destruct (storable_values r Hp) as [v Hv].
      pose proof (product_record_values pid r v (main_found_record scrub net pid r Ef) Hv)
        as Hid.
      cbn [mapM]. rewrite Hv, IH1. cbn [bind map app].
      rewrite Hid, IH2. split; reflexivity.
    + split; assumption.
Qed.

Lemma main_goods_rejected (l : list Z) :
  forallb storable (main_goods scrub net l) = false ->
  mapM values_of (main_goods scrub net l) = Raised DataError.
Proof. apply mapM_values_rejected. Qed.

(** The driver accepts the records of a batch when it accepts the
    records fetched and the ids of the all-null records. *)
Lemma main_batch_storable_split (l : list Z) :
  main_batch_storable scrub net l
  = forallb storable (main_goods scrub net l)
    && forallb int64 (main_error_ids scrub net l).
Proof.
  unfold main_batch_storable, main_goods, main_error_ids.
  induction l as [|pid l IH]; cbn [forallb flat_map filter]; [reflexivity|].
  rewrite IH. unfold main_id_storable.
  destruct (main_found scrub net pid) as [r|]; cbn [is_some negb app forallb].
  - destruct (storable r); [reflexivity | reflexivity].
  - destruct (int64 pid); cbn [andb]; [reflexivity|].
    rewrite andb_false_r. reflexivity.
Qed.

(** What one iteration of the loop of [main] does: it raises when the
    driver rejects a record of the batch, and otherwise leaves this
    database. *)
Lemma main_run_batch_eq (s : db) (batch : list Z) :
  Main.run_batch scrub completion_order net s batch =
  if main_batch_storable scrub net (completion_order batch)
  then Returned
         (mk_db
            (Main.update_queue_status
               (Main.update_queue_status (tiki_queue s)
                  (main_good_ids scrub net (completion_order batch)) "done" None)
               (main_error_ids scrub net (completion_order batch)) "error"
               (Some "Failed after retries"))
            (fold_left upsert_row (main_good_rows scrub net (completion_order batch))
               (tiki_product s))
            (fold_left upsert_row
               (map failure_row (main_error_ids scrub net (completion_order batch)))
               (tiki_error s)))
  else Raised DataError.
Proof.
  unfold Main.run_batch, Main.process_batch.
  destruct (main_process_loop (completion_order batch) [] [] []) as [rc' Hl].
  rewrite Hl. cbn [bind fst snd app].
  rewrite !main_insert_batch_eq. unfold executemany_upsert.
  destruct (main_batch_storable scrub net (completion_order batch)) eqn:Es.
  - destruct (main_goods_values (completion_order batch) Es) as [Hvs Hids].
    rewrite main_batch_storable_split in Es. apply andb_true_iff in Es.
    rewrite Hvs, failure_records_values, (proj2 Es). cbn [bind].
    rewrite main_goods_ids, failure_records_ids. reflexivity.
  - rewrite main_batch_storable_split in Es. apply andb_false_iff in Es.
    destruct (forallb storable (main_goods scrub net (completion_order batch))) eqn:Eg.
    + destruct Es as [Es|Es]; [discriminate|].
      destruct (mapM_values_accepted _ Eg) as [vs Hvs].
      rewrite Hvs. cbn [bind].
      rewrite failure_records_values, Es. reflexivity.
    + rewrite (main_goods_rejected _ Eg). reflexivity.
Qed.

Lemma main_run_batch_inv (s s' : db) (batch : list Z) :
  Main.run_batch scrub completion_order net s batch = Returned s' ->
  main_batch_storable scrub net (completion_order batch) = true
  /\ s' = mk_db
            (Main.update_queue_status
               (Main.update_queue_status (tiki_queue s)
                  (main_good_ids scrub net (completion_order batch)) "done" None)
               (main_error_ids scrub net (completion_order batch)) "error"
               (Some "Failed after retries"))
            (fold_left upsert_row (main_good_rows scrub net (completion_order batch))
               (tiki_product s))
            (fold_left upsert_row
               (map failure_row (main_error_ids scrub net (completion_order batch)))
               (tiki_error s)).
Proof.
  rewrite main_run_batch_eq.
  destruct (main_batch_storable scrub net (completion_order batch));
    [|discriminate].
  intros H. injection H as <-. split; reflexivity.
Qed.

End MainBatch.

(** ** Exceptions of the normaliser *)

Lemma clean_text_raises (scrub : string -> string) (kept : list class_item)
  (v : pyval) (e : exn) :
  clean_text scrub kept v = Raised e -> decode_error e = true.
Proof.
  unfold clean_text. destruct (negb (truthy v)); [discriminate|].
  destruct v; try (intros H; inversion H; reflexivity).
  destruct (class_compiles kept); intros H; inversion H; reflexivity.
Qed.

Lemma image_url_raises (data : pydict) (e : exn) :
  image_url data = Raised e -> decode_error e = true.
Proof.
  unfold image_url. destruct (truthy (get data "images")); [|discriminate].
  destruct (get data "images") as [| | | | |l|l]; intros H; try (inversion H; reflexivity).
  destruct l as [|x l]; [inversion H; reflexivity|].
  destruct x; inversion H; reflexivity.
Qed.

(** Decoding and extraction raise nothing but decoding errors; in
    particular they never raise [ProductNotFoundError]. *)
Lemma normalize_raises (scrub : string -> string) (kept : list class_item)
  (is_missing : pyval -> bool) (pid : Z) (body : option pyval) (e : exn) :
  normalize scrub kept is_missing pid body = Raised e -> decode_error e = true.
Proof.
  unfold normalize, extract. intros H.
  apply bind_raised in H. destruct H as [H|[a [_ H]]]; [|discriminate].
  apply bind_raised in H. destruct H as [H|[json [_ H]]].
  { destruct body; inversion H; reflexivity. }
  apply bind_raised in H. destruct H as [H|[data [_ H]]].
  { destruct json; inversion H; reflexivity. }
  apply bind_raised in H. destruct H as [H|[name [_ H]]].
  { eapply clean_text_raises; eauto. }
  apply bind_raised in H. destruct H as [H|[description [_ H]]].
  { eapply clean_text_raises; eauto. }
  apply bind_raised in H. destruct H as [H|[img [_ H]]].
  { eapply image_url_raises; eauto. }
  discriminate.
Qed.

(** ** One attempt and one batch of the second script *)

Section TikiQueueBatch.

Variable scrub : string -> string.
Variable completion_order : list Z -> list Z.
Variable net : network.

Lemma tq_step_raised (pid : Z) (a : nat) (e : exn) (ev : list event) :
  TikiQueue.attempt_step scrub net pid a = (Raised e, ev) ->
  e = ProductNotFoundError pid /\ ev = [EvRequest a]
  /\ is_404 (net pid (a - 1)%nat) = true.
Proof.
  unfold TikiQueue.attempt_step, TikiQueue.try_body, is_404.
  destruct (net pid (a - 1)%nat) as [status body|]; [|discriminate].
  destruct (status =? 200).
  - destruct (normalize scrub TikiQueue.KEPT_CHARS TikiQueue.is_missing pid body) as [r|e'] eqn:En;
      cbn [bind]; [discriminate|].
    apply normalize_raises in En. destruct e'; discriminate.
  - destruct (status =? 404); [intros H; inversion H; auto|].
    destruct (transient_status status); discriminate.
Qed.

Lemma tq_step_found (pid : Z) (a : nat) (r : pydict) (ev : list event) :
  TikiQueue.attempt_step scrub net pid a = (Returned (Return_ r), ev) ->
  exists body, normalize scrub TikiQueue.KEPT_CHARS TikiQueue.is_missing pid body = Returned r.
Proof.
  unfold TikiQueue.attempt_step, TikiQueue.try_body.
  destruct (net pid (a - 1)%nat) as [status body|]; [|discriminate].
  destruct (status =? 200).
  - destruct (normalize scrub TikiQueue.KEPT_CHARS TikiQueue.is_missing pid body) as [r'|e'] eqn:En;
      cbn [bind]; [intros H; inversion H; subst; eauto|].
    destruct e'; discriminate.
  - destruct (status =? 404); [discriminate|].
    destruct (transient_status status); discriminate.
Qed.

Lemma tq_step_transient (pid : Z) (a : nat) :
  transient (net pid (a - 1)%nat) = true ->
  TikiQueue.attempt_step scrub net pid a
  = (Returned Next, [EvRequest a; EvSleep (2 * a)]).
Proof.
  unfold TikiQueue.attempt_step, TikiQueue.try_body, transient.
  destruct (net pid (a - 1)%nat) as [status body|]; [|reflexivity].
  intros H. rewrite (transient_not_200 _ H), (transient_not_404 _ H), H. reflexivity.
Qed.

Lemma tq_step_404 (pid : Z) (a : nat) :
  is_404 (net pid (a - 1)%nat) = true ->
  TikiQueue.attempt_step scrub net pid a
  = (Raised (ProductNotFoundError pid), [EvRequest a]).
Proof.
  unfold TikiQueue.attempt_step, TikiQueue.try_body, is_404.
  destruct (net pid (a - 1)%nat) as [status body|]; [|discriminate].
  intros H. apply Z.eqb_eq in H. subst status. reflexivity.
Qed.

Lemma tq_step_break (pid : Z) (a : nat) :
  other_status (net pid (a - 1)%nat) = true ->
  TikiQueue.attempt_step scrub net pid a = (Returned Break, [EvRequest a]).
Proof.
  unfold TikiQueue.attempt_step, TikiQueue.try_body, other_status.
  destruct (net pid (a - 1)%nat) as [status body|]; [|discriminate].
  intros H. apply andb_true_iff in H. destruct H as [H H3].
  apply andb_true_iff in H. destruct H as [H1 H2].
  apply negb_true_iff in H1, H2, H3. rewrite H1, H2, H3. reflexivity.
Qed.

Lemma tq_step_sleeps (pid : Z) (a : nat) :
  sleeps (snd (TikiQueue.attempt_step scrub net pid a)) = []
  \/ sleeps (snd (TikiQueue.attempt_step scrub net pid a)) = [2 * (a + 0)]%nat.
Proof.
  rewrite Nat.add_0_r.
  unfold TikiQueue.attempt_step, TikiQueue.try_body.
  destruct (net pid (a - 1)%nat) as [status body|]; [|right; reflexivity].
  destruct (status =? 200).
  - destruct (normalize scrub TikiQueue.KEPT_CHARS TikiQueue.is_missing pid body) as [r|e]; cbn [bind];
      [left; reflexivity|]. destruct e; first [left; reflexivity | right; reflexivity].
  - destruct (status =? 404); [left; reflexivity|].
    destruct (transient_status status); [right | left]; reflexivity.
Qed.

Lemma tq_step_requests (pid : Z) (a : nat) :
  List.length (requests (snd (TikiQueue.attempt_step scrub net pid a))) = 1%nat.
Proof.
  unfold TikiQueue.attempt_step, TikiQueue.try_body.
  destruct (net pid (a - 1)%nat) as [status body|]; [|reflexivity].
  destruct (status =? 200).
  - destruct (normalize scrub TikiQueue.KEPT_CHARS TikiQueue.is_missing pid body) as [r|e]; cbn [bind];
      [reflexivity|]. destruct e; reflexivity.
  - destruct (status =? 404); [reflexivity|].
    destruct (transient_status status); reflexivity.
Qed.

(** The three ways a fetch of the second script ends. *)
Lemma tq_result_cases (pid : Z) :
  (exists r, tq_result scrub net pid = Returned (Some r) /\ product_record pid r)
  \/ tq_result scrub net pid = Returned None
  \/ tq_result scrub net pid = Raised (ProductNotFoundError pid).
Proof.
  unfold tq_result, TikiQueue.fetch_product.
  destruct (fst (retry_loop (TikiQueue.attempt_step scrub net pid) (seq 1 RETRIES)))
    as [[r|]|e] eqn:E.
  - left. exists r. split; [reflexivity|].
    apply retry_loop_found in E. destruct E as [a [ev [_ E]]].
    apply tq_step_found in E. destruct E as [body E].
    eapply normalize_shape; eauto.
  - right; left; reflexivity.
  - right; right. apply retry_loop_raised in E. destruct E as [a [ev [_ E]]].
    apply tq_step_raised in E. destruct E as [-> _]. reflexivity.
Qed.

Lemma tq_process_loop (l : list Z) :
  forall good error eids,
    TikiQueue.process_loop scrub net l good error eids =
    (good ++ tq_goods scrub net l,
     error ++ map TikiQueue.not_found_record (tq_error_ids scrub net l),
     eids ++ tq_error_ids scrub net l).
Proof.
  induction l as [|pid l IH]; intros good error eids.
  - simpl. rewrite !app_nil_r. reflexivity.
  - cbn [TikiQueue.process_loop]. unfold tq_goods, tq_error_ids.
    cbn [filter flat_map]. fold (tq_result scrub net pid).
    destruct (tq_result_cases pid) as [[r [Hr Hrec]]|[Hr|Hr]]; rewrite Hr;
      cbn [tq_is_raised].
    + destruct Hrec as [n [u [p [d [i [m Hrec]]]]]]. subst r.
      rewrite IH. rewrite <- app_assoc. reflexivity.
    + rewrite IH. reflexivity.
    + rewrite IH. cbn [map]. rewrite <- !app_assoc. reflexivity.
Qed.

Lemma tq_goods_values (l : list Z) :
  tq_batch_storable scrub net l = true ->
  mapM values_of (tq_goods scrub net l) = Returned (tq_good_rows scrub net l)
  /\ map p_id (tq_good_rows scrub net l) = tq_good_ids scrub net l.
Proof.
  unfold tq_batch_storable, tq_goods, tq_good_ids, tq_good_rows.
  induction l as [|pid l IH]; cbn [flat_map filter forallb]; intros H.
  - split; reflexivity.
  - apply andb_true_iff in H. destruct H as [Hp Hl].
    destruct (IH Hl) as [IH1 IH2]. unfold tq_id_storable in Hp.
    destruct (tq_result_cases pid) as [[r [Hr Hrec]]|[Hr|Hr]]; rewrite Hr in *;
      cbn [tq_is_good app]; try (split; assumption).
    destruct (storable_values r Hp) as [v Hv].
    pose proof (product_record_values pid r v Hrec Hv) as Hid.
    cbn [mapM]. rewrite Hv, IH1. cbn [bind map app].
    rewrite Hid, IH2. split; reflexivity.
Qed.

Lemma tq_goods_ids (l : list Z) :
  ids_of (tq_goods scrub net l) = Returned (tq_good_ids scrub net l).
Proof.
  unfold ids_of, tq_goods, tq_good_ids.
  induction l as [|pid l IH]; cbn [flat_map filter]; [reflexivity|].
  destruct (tq_result_cases pid) as [[r [Hr Hrec]]|[Hr|Hr]]; rewrite Hr;
    cbn [tq_is_good app]; try exact IH.
  cbn [mapM]. rewrite (product_record_id pid r Hrec), IH. reflexivity.
Qed.

Lemma not_found_record_values (pid : Z) :
  values_of (TikiQueue.not_found_record pid)
  = if int64 pid then Returned (not_found_row pid) else Raised DataError.
Proof.
  unfold values_of, TikiQueue.not_found_record.
  cbn [get dict_get String.eqb Ascii.eqb Bool.eqb as_bigint].
  destruct (int64 pid); reflexivity.
Qed.

Lemma not_found_records_values (ids : list Z) :
  mapM values_of (map TikiQueue.not_found_record ids)
  = if forallb int64 ids then Returned (map not_found_row ids) else Raised DataError.
Proof.
  induction ids as [|pid ids IH]; [reflexivity|].
  cbn [map mapM forallb]. rewrite not_found_record_values, IH.
  destruct (int64 pid), (forallb int64 ids); reflexivity.
Qed.

Lemma tq_insert_batch_eq (t : table) (records : list pydict) :
  TikiQueue.insert_batch_to_db t records = executemany_upsert t records.
Proof. destruct records; reflexivity. Qed.

Lemma tq_batch_storable_split (l : list Z) :
  tq_batch_storable scrub net l
  = forallb storable (tq_goods scrub net l)
    && forallb int64 (tq_error_ids scrub net l).
Proof.
  unfold tq_batch_storable, tq_goods, tq_error_ids.
  induction l as [|pid l IH]; cbn [forallb flat_map filter]; [reflexivity|].
  rewrite IH. unfold tq_id_storable.
  destruct (tq_result scrub net pid) as [[r|]|e]; cbn [tq_is_raised app forallb].
  - destruct (storable r); reflexivity.
  - reflexivity.
  - destruct (int64 pid); cbn [andb]; [reflexivity|].
    rewrite andb_false_r. reflexivity.
Qed.

(** What one batch of the second script does: it raises when the driver
    rejects a record of the batch, and otherwise leaves this database. *)
Lemma tq_run_batch_eq (s : db) (batch : list Z) :
  TikiQueue.run_batch scrub completion_order net s batch =
  if tq_batch_storable scrub net (completion_order batch)
  then Returned
         (mk_db
            (TikiQueue.update_queue_status
               (TikiQueue.update_queue_status (tiki_queue s)
                  (tq_good_ids scrub net (completion_order batch)) "done" None)
               (tq_error_ids scrub net (completion_order batch)) "error"
               (Some "404 Not Found"))
            (fold_left upsert_row (tq_good_rows scrub net (completion_order batch))
               (tiki_product s))
            (fold_left upsert_row
               (map not_found_row (tq_error_ids scrub net (completion_order batch)))
               (tiki_error s)))
  else Raised DataError.
Proof.
  unfold TikiQueue.run_batch, TikiQueue.process_batch.
  rewrite tq_process_loop. cbn [fst snd app].
  rewrite !tq_insert_batch_eq. unfold executemany_upsert.
  destruct (tq_batch_storable scrub net (completion_order batch)) eqn:Es.
  - destruct (tq_goods_values (completion_order batch) Es) as [Hvs Hids].
    rewrite tq_batch_storable_split in Es. apply andb_true_iff in Es.
    rewrite Hvs, not_found_records_values, (proj2 Es). cbn [bind].
    rewrite tq_goods_ids. reflexivity.
  - rewrite tq_batch_storable_split in Es. apply andb_false_iff in Es.
    destruct (forallb storable (tq_goods scrub net (completion_order batch))) eqn:Eg.
    + destruct Es as [Es|Es]; [discriminate|].
      destruct (mapM_values_accepted _ Eg) as [vs Hvs].
      rewrite Hvs. cbn [bind].
      rewrite not_found_records_values, Es. reflexivity.
    + rewrite (mapM_values_rejected _ Eg). reflexivity.
Qed.

Lemma tq_run_batch_inv (s s' : db) (batch : list Z) :
  TikiQueue.run_batch scrub completion_order net s batch = Returned s' ->
  tq_batch_storable scrub net (completion_order batch) = true
  /\ s' = mk_db
            (TikiQueue.update_queue_status
               (TikiQueue.update_queue_status (tiki_queue s)
                  (tq_good_ids scrub net (completion_order batch)) "done" None)
               (tq_error_ids scrub net (completion_order batch)) "error"
               (Some "404 Not Found"))
            (fold_left upsert_row (tq_good_rows scrub net (completion_order batch))
               (tiki_product s))
            (fold_left upsert_row
               (map not_found_row (tq_error_ids scrub net (completion_order batch)))
               (tiki_error s)).
Proof.
  rewrite tq_run_batch_eq.
  destruct (tq_batch_storable scrub net (completion_order batch));
    [|discriminate].
  intros H. injection H as <-. split; reflexivity.
Qed.

End TikiQueueBatch.

(** ** Which bodies yield a record *)

Section Bodies.

Variable scrub : string -> string.

Lemma main_class_rejected : class_compiles Main.KEPT_CHARS = false.
Proof. reflexivity. Qed.

Lemma tq_class_compiles : class_compiles TikiQueue.KEPT_CHARS = true.
Proof. reflexivity. Qed.

(** [clean_text] of the second script. *)
Lemma tq_clean_text_cases (v : pyval) :
  clean_text scrub TikiQueue.KEPT_CHARS v
  = if text_like v then Returned (cleaned scrub v) else Raised TypeError.
Proof.
  unfold clean_text, text_like, cleaned. rewrite tq_class_compiles.
  destruct v as [| b | n | x | s | l | l]; cbn [truthy negb orb]; try reflexivity.
  - destruct b; reflexivity.
  - destruct (n =? 0); reflexivity.
  - destruct (Qeq_bool x 0); reflexivity.
  - destruct (s =? "")%string; reflexivity.
  - destruct l; reflexivity.
  - destruct l; reflexivity.
Qed.

(** [clean_text] of the first script: it returns for a falsy value
    only. *)
Lemma main_clean_text_cases (v : pyval) :
  if negb (truthy v)
  then clean_text scrub Main.KEPT_CHARS v = Returned ""%string
  else exists e, clean_text scrub Main.KEPT_CHARS v = Raised e /\ decode_error e = true.
Proof.
  unfold clean_text. rewrite main_class_rejected.
  destruct (negb (truthy v)); [reflexivity|].
  destruct v; eexists; split; reflexivity.
Qed.

Lemma image_url_cases (data : pydict) :
  if images_ok (get data "images")
  then image_url data = Returned (first_image data)
  else exists e, image_url data = Raised e /\ decode_error e = true.
Proof.
  unfold image_url, images_ok, first_image.
  destruct (get data "images") as [| b | n | x | s | l | l]; cbn [truthy negb orb].
  - reflexivity.
  - destruct b; cbn; [eexists; split; reflexivity | reflexivity].
  - destruct (n =? 0); cbn; [reflexivity | eexists; split; reflexivity].
  - destruct (Qeq_bool x 0); cbn; [reflexivity | eexists; split; reflexivity].
  - destruct (s =? "")%string; cbn; [reflexivity | eexists; split; reflexivity].
  - destruct l as [|y l]; cbn; [reflexivity|].
    destruct y; cbn; first [reflexivity | eexists; split; reflexivity].
  - destruct l as [|y l]; cbn; [reflexivity | eexists; split; reflexivity].
Qed.

(** The dict literal of [fetch_product], evaluated, in the second
    script. *)
Lemma tq_extract_eval (pid : Z) (body : option pyval) :
  if extractable body
  then extract scrub TikiQueue.KEPT_CHARS pid body = Returned (tq_fields scrub pid body)
  else exists e, extract scrub TikiQueue.KEPT_CHARS pid body = Raised e
                 /\ decode_error e = true.
Proof.
  unfold tq_fields, extractable, extract, body_fields.
  destruct body as [json|]; [|eexists; split; reflexivity].
  destruct json as [| b | n | x | s | l | data]; cbn [bind as_dict];
    try (eexists; split; reflexivity).
  rewrite !tq_clean_text_cases.
  pose proof (image_url_cases data) as Himg.
  destruct (text_like (get data "name")); cbn [andb bind];
    [|eexists; split; reflexivity].
  destruct (text_like (get data "description")); cbn [andb bind];
    [|eexists; split; reflexivity].
  destruct (images_ok (get data "images")).
  - rewrite Himg. reflexivity.
  - destruct Himg as [e [He Hd]]. exists e. rewrite He. auto.
Qed.

(** The same in the first script, whose [name] and [description] can
    only be the empty string. *)
Lemma main_extract_eval (pid : Z) (body : option pyval) :
  if main_extractable body
  then extract scrub Main.KEPT_CHARS pid body = Returned (main_fields pid body)
  else exists e, extract scrub Main.KEPT_CHARS pid body = Raised e
                 /\ decode_error e = true.
Proof.
  unfold main_fields, main_extractable, extract, body_fields.
  destruct body as [json|]; [|eexists; split; reflexivity].
  destruct json as [| b | n | x | s | l | data]; cbn [bind as_dict];
    try (eexists; split; reflexivity).
  pose proof (main_clean_text_cases (get data "name")) as Hn.
  pose proof (main_clean_text_cases (get data "description")) as Hd.
  pose proof (image_url_cases data) as Himg.
  destruct (negb (truthy (get data "name"))); cbn [andb].
  - rewrite Hn. cbn [bind].
    destruct (negb (truthy (get data "description"))); cbn [andb].
    + rewrite Hd. cbn [bind]. destruct (images_ok (get data "images")).
      * rewrite Himg. reflexivity.
      * destruct Himg as [e [He Hde]]. exists e. rewrite He. auto.
    + destruct Hd as [e [He Hde]]. exists e. rewrite He. auto.
  - destruct Hn as [e [He Hde]]. exists e. rewrite He. auto.
Qed.

Lemma main_extractable_extractable (body : option pyval) :
  main_extractable body = true -> extractable body = true.
Proof.
  unfold main_extractable, extractable, text_like.
  destruct body as [[| | | | | |data]|]; try discriminate.
  intros H. apply andb_true_iff in H. destruct H as [H Hi].
  apply andb_true_iff in H. destruct H as [Hn Hd].
  rewrite Hn, Hd, Hi. reflexivity.
Qed.

Lemma tq_extract_broken (pid : Z) (body : option pyval) :
  extractable body = false ->
  exists e, normalize scrub TikiQueue.KEPT_CHARS TikiQueue.is_missing pid body = Raised e
            /\ decode_error e = true.
Proof.
  intros H. pose proof (tq_extract_eval pid body) as Hc. rewrite H in Hc.
  destruct Hc as [e [He Hd]]. exists e. unfold normalize. rewrite He. auto.
Qed.

Lemma main_extract_broken (pid : Z) (body : option pyval) :
  main_extractable body = false ->
  exists e, normalize scrub Main.KEPT_CHARS Main.is_missing pid body = Raised e
            /\ decode_error e = true.
Proof.
  intros H. pose proof (main_extract_eval pid body) as Hc. rewrite H in Hc.
  destruct Hc as [e [He Hd]]. exists e. unfold normalize. rewrite He. auto.
Qed.

Lemma broken_main_broken (r : response) : broken r = true -> main_broken r = true.
Proof.
  unfold broken, main_broken. destruct r as [status body|]; [|reflexivity].
  intros H. apply andb_true_iff in H. destruct H as [H200 Hx]. rewrite H200.
  apply negb_true_iff in Hx. cbn [andb]. apply negb_true_iff.
  destruct (main_extractable body) eqn:E; [|reflexivity].
  apply main_extractable_extractable in E. congruence.
Qed.

(** One attempt that ends in an exception, in each script. *)
Lemma main_step_main_broken (net : network) (pid : Z) (a : nat) :
  main_broken (net pid a) = true ->
  Main.attempt_step scrub net pid a = (Returned Next, [EvRequest (a + 1)]).
Proof.
  unfold main_broken. destruct (net pid a) as [status body|] eqn:En;
    [|intros _; apply main_step_exception, En].
  intros H. apply andb_true_iff in H. destruct H as [H200 Hx].
  apply negb_true_iff in Hx.
  destruct (main_extract_broken pid body Hx) as [e [He _]].
  unfold Main.attempt_step, Main.try_body. rewrite En, H200, He. reflexivity.
Qed.

Lemma main_step_broken (net : network) (pid : Z) (a : nat) :
  broken (net pid a) = true ->
  Main.attempt_step scrub net pid a = (Returned Next, [EvRequest (a + 1)]).
Proof.
  intros H. apply main_step_main_broken, broken_main_broken, H.
Qed.

Lemma tq_step_broken (net : network) (pid : Z) (a : nat) :
  broken (net pid (a - 1)%nat) = true ->
  TikiQueue.attempt_step scrub net pid a
  = (Returned Next, [EvRequest a; EvSleep (2 * a)]).
Proof.
  unfold broken. destruct (net pid (a - 1)%nat) as [status body|] eqn:En.
  - intros H. apply andb_true_iff in H. destruct H as [H200 Hx].
    apply negb_true_iff in Hx.
    destruct (tq_extract_broken pid body Hx) as [e [He Hd]].
    unfold TikiQueue.attempt_step, TikiQueue.try_body. rewrite En, H200, He.
    cbn [bind]. destruct e; try discriminate; reflexivity.
  - intros _. apply tq_step_transient. rewrite En. reflexivity.
Qed.

(** One attempt that builds a record. *)
Lemma main_step_ok (net : network) (pid : Z) (a : nat) (body : option pyval) :
  net pid a = Resp 200 body ->
  main_extractable body = true ->
  Main.attempt_step scrub net pid a
  = (Returned (Return_ (with_missing Main.is_missing (main_fields pid body))),
     [EvRequest (a + 1)]).
Proof.
  intros Hn Hx. pose proof (main_extract_eval pid body) as He. rewrite Hx in He.
  unfold Main.attempt_step, Main.try_body, normalize. rewrite Hn. cbn.
  rewrite He. reflexivity.
Qed.

Lemma tq_step_ok (net : network) (pid : Z) (a : nat) (body : option pyval) :
  net pid (a - 1)%nat = Resp 200 body ->
  extractable body = true ->
  TikiQueue.attempt_step scrub net pid a
  = (Returned (Return_ (with_missing TikiQueue.is_missing (tq_fields scrub pid body))),
     [EvRequest a]).
Proof.
  intros Hn Hx. pose proof (tq_extract_eval pid body) as He. rewrite Hx in He.
  unfold TikiQueue.attempt_step, TikiQueue.try_body, normalize. rewrite Hn. cbn.
  rewrite He. reflexivity.
Qed.

(** One attempt after which the fetch goes on. *)
Lemma main_step_retried (net : network) (pid : Z) (a : nat) :
  main_retried (net pid a) = true ->
  Main.attempt_step scrub net pid a
  = (Returned Next,
     EvRequest (a + 1)
     :: (if transient_http (net pid a) then [EvSleep (2 * (a + 1))] else [])).
Proof.
  unfold main_retried. intros H.
  destruct (transient_http (net pid a)) eqn:Et.
  - apply main_step_transient, Et.
  - cbn [orb] in H. apply main_step_main_broken, H.
Qed.

Lemma tq_step_retried (net : network) (pid : Z) (a : nat) :
  tq_retried (net pid (a - 1)%nat) = true ->
  TikiQueue.attempt_step scrub net pid a
  = (Returned Next, [EvRequest a; EvSleep (2 * a)]).
Proof.
  unfold tq_retried. intros H. apply orb_true_iff in H. destruct H as [H|H].
  - apply tq_step_transient, H.
  - apply tq_step_broken, H.
Qed.

End Bodies.

(** ** Traces of a fetch *)

Section FetchTraces.

Variable scrub : string -> string.
Variable net : network.
Variable pid : Z.

Lemma backoff_shift (n : nat) :
  forall a,
    flat_map (fun a0 => [EvRequest (a0 + 1); EvSleep (2 * (a0 + 1))]) (seq a n)
    = flat_map (fun a1 => [EvRequest a1; EvSleep (2 * a1)]) (seq (a + 1) n).
Proof.
  induction n as [|n IH]; intros a; [reflexivity|].
  cbn [seq flat_map]. rewrite IH. replace (S a + 1)%nat with (S (a + 1)) by lia.
  reflexivity.
Qed.

Lemma requests_shift (n : nat) :
  forall a,
    flat_map (fun a0 => [EvRequest (a0 + 1)]) (seq a n)
    = map EvRequest (seq (a + 1) n).
Proof.
  induction n as [|n IH]; intros a; [reflexivity|].
  cbn [seq flat_map map]. rewrite IH. replace (S a + 1)%nat with (S (a + 1)) by lia.
  reflexivity.
Qed.

(** The second script, after [n] transient outcomes. *)
Lemma tq_fetch_prefix (n : nat) :
  (n <= RETRIES)%nat ->
  (forall k, (k < n)%nat -> transient (net pid k) = true) ->
  TikiQueue.fetch_product scrub net pid =
  (fst (retry_loop (TikiQueue.attempt_step scrub net pid) (seq (1 + n) (RETRIES - n))),
   backoff n
   ++ snd (retry_loop (TikiQueue.attempt_step scrub net pid) (seq (1 + n) (RETRIES - n)))).
Proof.
  intros Hn Htr. unfold TikiQueue.fetch_product, backoff.
  apply (retry_loop_prefix _ (fun a => [EvRequest a; EvSleep (2 * a)])); [exact Hn|].
  intros k Hk. apply tq_step_transient.
  replace (1 + k - 1)%nat with k by lia. apply Htr, Hk.
Qed.

(** The first script, after [n] transient HTTP statuses. *)
Lemma main_loop_prefix (n : nat) :
  (n <= RETRIES)%nat ->
  (forall k, (k < n)%nat -> transient_http (net pid k) = true) ->
  retry_loop (Main.attempt_step scrub net pid) (seq 0 RETRIES) =
  (fst (retry_loop (Main.attempt_step scrub net pid) (seq n (RETRIES - n))),
   backoff n
   ++ snd (retry_loop (Main.attempt_step scrub net pid) (seq n (RETRIES - n)))).
Proof.
  intros Hn Htr. unfold backoff.
  rewrite <- (backoff_shift n 0
              : _ = flat_map (fun a1 => [EvRequest a1; EvSleep (2 * a1)]) (seq 1 n)).
  apply (retry_loop_prefix _ (fun a0 => [EvRequest (a0 + 1); EvSleep (2 * (a0 + 1))])
           n 0%nat RETRIES Hn).
  intros k Hk. apply main_step_transient. apply Htr, Hk.
Qed.

(** The first script, after [n] transport-level exceptions: no sleep. *)
Lemma main_loop_exceptions (n : nat) :
  (n <= RETRIES)%nat ->
  (forall k, (k < n)%nat -> net pid k = TransportError) ->
  retry_loop (Main.attempt_step scrub net pid) (seq 0 RETRIES) =
  (fst (retry_loop (Main.attempt_step scrub net pid) (seq n (RETRIES - n))),
   map EvRequest (seq 1 n)
   ++ snd (retry_loop (Main.attempt_step scrub net pid) (seq n (RETRIES - n)))).
Proof.
  intros Hn Htr.
  rewrite <- (requests_shift n 0 : _ = map EvRequest (seq 1 n)).
  apply (retry_loop_prefix _ (fun a0 => [EvRequest (a0 + 1)]) n 0%nat RETRIES Hn).
  intros k Hk. apply main_step_exception. apply Htr, Hk.
Qed.

(** The second script, after [n] attempts that were retried. *)
Lemma tq_fetch_retried (n : nat) :
  (n <= RETRIES)%nat ->
  (forall k, (k < n)%nat -> tq_retried (net pid k) = true) ->
  TikiQueue.fetch_product scrub net pid =
  (fst (retry_loop (TikiQueue.attempt_step scrub net pid) (seq (1 + n) (RETRIES - n))),
   backoff n
   ++ snd (retry_loop (TikiQueue.attempt_step scrub net pid) (seq (1 + n) (RETRIES - n)))).
Proof.
  intros Hn Htr. unfold TikiQueue.fetch_product, backoff.
  apply (retry_loop_prefix _ (fun a => [EvRequest a; EvSleep (2 * a)])); [exact Hn|].
  intros k Hk. apply tq_step_retried.
  replace (1 + k - 1)%nat with k by lia. apply Htr, Hk.
Qed.

Lemma main_retries_shift (n : nat) :
  forall a,
    flat_map (fun a0 => EvRequest (a0 + 1)
                        :: (if transient_http (net pid a0)
                            then [EvSleep (2 * (a0 + 1))] else []))
      (seq a n)
    = flat_map (fun a1 => EvRequest a1
                          :: (if transient_http (net pid (a1 - 1)%nat)
                              then [EvSleep (2 * a1)] else []))
        (seq (a + 1) n).
Proof.
  induction n as [|n IH]; intros a; [reflexivity|].
  cbn [seq flat_map]. rewrite IH. replace (S a + 1)%nat with (S (a + 1)) by lia.
  replace (a + 1 - 1)%nat with a by lia. reflexivity.
Qed.

(** The first script, after [n] attempts that were retried. *)
Lemma main_loop_retried (n : nat) :
  (n <= RETRIES)%nat ->
  (forall k, (k < n)%nat -> main_retried (net pid k) = true) ->
  retry_loop (Main.attempt_step scrub net pid) (seq 0 RETRIES) =
  (fst (retry_loop (Main.attempt_step scrub net pid) (seq n (RETRIES - n))),
   main_retries net pid n
   ++ snd (retry_loop (Main.attempt_step scrub net pid) (seq n (RETRIES - n)))).
Proof.
  intros Hn Htr. unfold main_retries.
  change (seq 1 n) with (seq (0 + 1) n). rewrite <- (main_retries_shift n 0).
  apply (retry_loop_prefix _
           (fun a0 => EvRequest (a0 + 1)
                      :: (if transient_http (net pid a0)
                          then [EvSleep (2 * (a0 + 1))] else []))
           n 0%nat RETRIES Hn).
  intros k Hk. apply main_step_retried. apply Htr, Hk.
Qed.

Lemma seq_rest (a n : nat) :
  (n < RETRIES)%nat -> seq a (RETRIES - n) = a :: seq (S a) (RETRIES - n - 1).
Proof.
  intros H. destruct (RETRIES - n)%nat as [|m] eqn:E; [lia|].
  simpl. rewrite Nat.sub_0_r. reflexivity.
Qed.

Lemma last_request_lt (n : nat) : (n < RETRIES)%nat -> last_request n = [EvRequest (n + 1)].
Proof.
  intros H. unfold last_request. apply Nat.ltb_lt in H. rewrite H. reflexivity.
Qed.

Lemma last_request_all : last_request RETRIES = [].
Proof. reflexivity. Qed.

(** The end of the loop of each script: all attempts used, or stopped
    by the response to request [n] (counted from 0). *)
Lemma tq_loop_end (n : nat) (o : outcome flow) :
  (n <= RETRIES)%nat ->
  (n < RETRIES -> TikiQueue.attempt_step scrub net pid (1 + n) = (o, [EvRequest (1 + n)])
                  /\ o <> Returned Next)%nat ->
  retry_loop (TikiQueue.attempt_step scrub net pid) (seq (1 + n) (RETRIES - n))
  = (match o with
     | Returned (Return_ r) => if (n <? RETRIES)%nat then Returned (Some r) else Returned None
     | Raised e => if (n <? RETRIES)%nat then Raised e else Returned None
     | _ => Returned None
     end, last_request n).
Proof.
  intros Hle Hend. destruct (Nat.eq_dec n RETRIES) as [->|Hne].
  - rewrite Nat.sub_diag. simpl. destruct o as [[r| |]|e]; reflexivity.
  - assert (Hlt : (n < RETRIES)%nat) by lia.
    destruct (Hend Hlt) as [Hs Hnext].
    rewrite (seq_rest _ _ Hlt). cbn [retry_loop]. rewrite Hs.
    rewrite (last_request_lt _ Hlt).
    replace (n + 1)%nat with (1 + n)%nat by lia.
    apply Nat.ltb_lt in Hlt. rewrite Hlt.
    destruct o as [[r| |]|e]; try reflexivity. congruence.
Qed.

Lemma main_loop_end (n : nat) (o : outcome flow) :
  (n <= RETRIES)%nat ->
  (n < RETRIES -> Main.attempt_step scrub net pid n = (o, [EvRequest (n + 1)])
                  /\ o <> Returned Next)%nat ->
  retry_loop (Main.attempt_step scrub net pid) (seq n (RETRIES - n))
  = (match o with
     | Returned (Return_ r) => if (n <? RETRIES)%nat then Returned (Some r) else Returned None
     | Raised e => if (n <? RETRIES)%nat then Raised e else Returned None
     | _ => Returned None
     end, last_request n).
Proof.
  intros Hle Hend. destruct (Nat.eq_dec n RETRIES) as [->|Hne].
  - rewrite Nat.sub_diag. simpl. destruct o as [[r| |]|e]; reflexivity.
  - assert (Hlt : (n < RETRIES)%nat) by lia.
    destruct (Hend Hlt) as [Hs Hnext].
    rewrite (seq_rest _ _ Hlt). cbn [retry_loop]. rewrite Hs.
    rewrite (last_request_lt _ Hlt).
    apply Nat.ltb_lt in Hlt. rewrite Hlt.
    destruct o as [[r| |]|e]; try reflexivity. congruence.
Qed.

End FetchTraces.

(** ** Routing of the fetches that end without a record *)

Section Routing.

Variable scrub : string -> string.
Variable completion_order : list Z -> list Z.

Lemma map_id_failure_rows (ids : list Z) : map p_id (map failure_row ids) = ids.
Proof.
  induction ids as [|i ids IH]; [reflexivity|]. cbn [map]. rewrite IH. reflexivity.
Qed.

Lemma map_id_not_found_rows (ids : list Z) : map p_id (map not_found_row ids) = ids.
Proof.
  induction ids as [|i ids IH]; [reflexivity|]. cbn [map]. rewrite IH. reflexivity.
Qed.

(** A batch whose records the driver accepts does not raise. *)
Lemma main_run_batch_ok (net : network) (s : db) (batch : list Z) :
  main_batch_storable scrub net (completion_order batch) = true ->
  exists s', Main.run_batch scrub completion_order net s batch = Returned s'.
Proof.
  intros H. rewrite main_run_batch_eq, H. eauto.
Qed.

Lemma tq_run_batch_ok (net : network) (s : db) (batch : list Z) :
  tq_batch_storable scrub net (completion_order batch) = true ->
  exists s', TikiQueue.run_batch scrub completion_order net s batch = Returned s'.
Proof.
  intros H. rewrite tq_run_batch_eq, H. eauto.
Qed.

(** First script: an id whose fetch ends without a record gets the
    all-null row in [tiki_error] and the status 'error'. *)
Lemma main_failure_routed (net : network) (s s' : db) (batch : list Z) (pid : Z) :
  In pid (completion_order batch) ->
  has_qrow (tiki_queue s) pid = true ->
  main_found scrub net pid = None ->
  Main.run_batch scrub completion_order net s batch = Returned s' ->
  find_row (tiki_error s') pid = Some (failure_row pid)
  /\ find_qrow (tiki_queue s') pid
     = Some (mk_qrow pid "error" (Some "Failed after retries")).
Proof.
  intros Hin Hq Hnone Hrun.
  apply main_run_batch_inv in Hrun. destruct Hrun as [_ ->].
  cbn [tiki_error tiki_queue].
  assert (He : In pid (main_error_ids scrub net (completion_order batch))).
  { apply filter_In. split; [exact Hin|]. rewrite Hnone. reflexivity. }
  split.
  - apply (find_row_fold_in _ _ (failure_row pid)).
    + apply in_map, He.
    + intros v' Hv' Hid. apply in_map_iff in Hv'. destruct Hv' as [x [<- _]].
      simpl in Hid. subst x. reflexivity.
  - apply (main_update_in _ _ "error" (Some "Failed after retries") pid He).
    rewrite (has_qrow_same_ids (tiki_queue s)); [exact Hq | apply main_update_ids].
Qed.

(** Second script: an id whose fetch raises [ProductNotFoundError] gets
    the 'all_fields' row in [tiki_error] and the status 'error'. *)
Lemma tq_not_found_routed (net : network) (s s' : db) (batch : list Z) (pid : Z) :
  In pid (completion_order batch) ->
  has_qrow (tiki_queue s) pid = true ->
  tq_result scrub net pid = Raised (ProductNotFoundError pid) ->
  TikiQueue.run_batch scrub completion_order net s batch = Returned s' ->
  find_row (tiki_error s') pid = Some (not_found_row pid)
  /\ find_qrow (tiki_queue s') pid = Some (mk_qrow pid "error" (Some "404 Not Found")).
Proof.
  intros Hin Hq Hraised Hrun.
  apply tq_run_batch_inv in Hrun. destruct Hrun as [_ ->].
  cbn [tiki_error tiki_queue].
  assert (He : In pid (tq_error_ids scrub net (completion_order batch))).
  { apply filter_In. split; [exact Hin|]. rewrite Hraised. reflexivity. }
  split.
  - apply (find_row_fold_in _ _ (not_found_row pid)).
    + apply in_map, He.
    + intros v' Hv' Hid. apply in_map_iff in Hv'. destruct Hv' as [x [<- _]].
      simpl in Hid. subst x. reflexivity.
  - apply (tq_update_in _ _ "error" (Some "404 Not Found") pid He).
    rewrite (has_qrow_same_ids (tiki_queue s)); [exact Hq | apply tq_update_ids].
Qed.

(** Second script: an id whose fetch returns [None] is left as it was. *)
Lemma tq_exhausted_untouched (net : network) (s s' : db) (batch : list Z) (pid : Z) :
  tq_result scrub net pid = Returned None ->
  TikiQueue.run_batch scrub completion_order net s batch = Returned s' ->
  find_row (tiki_error s') pid = find_row (tiki_error s) pid
  /\ find_row (tiki_product s') pid = find_row (tiki_product s) pid
  /\ find_qrow (tiki_queue s') pid = find_qrow (tiki_queue s) pid.
Proof.
  intros Hnone Hrun.
  apply tq_run_batch_inv in Hrun. destruct Hrun as [Hst ->].
  destruct (tq_goods_values scrub net _ Hst) as [_ Hids].
  cbn [tiki_error tiki_queue tiki_product].
  assert (He : ~ In pid (tq_error_ids scrub net (completion_order batch))).
  { intros H. apply filter_In in H. rewrite Hnone in H. destruct H; discriminate. }
  assert (Hg : ~ In pid (tq_good_ids scrub net (completion_order batch))).
  { intros H. apply filter_In in H. rewrite Hnone in H. destruct H; discriminate. }
  split; [|split].
  - apply find_row_fold_other. rewrite map_id_not_found_rows. exact He.
  - apply find_row_fold_other. rewrite Hids. exact Hg.
  - rewrite tq_update_other by exact He. apply tq_update_other, Hg.
Qed.

(** The queue ids after a batch are the queue ids before it. *)
Lemma tq_batch_ids (net : network) (s s' : db) (batch : list Z) :
  TikiQueue.run_batch scrub completion_order net s batch = Returned s' ->
  map q_id (tiki_queue s') = map q_id (tiki_queue s).
Proof.
  intros Hrun. apply tq_run_batch_inv in Hrun. destruct Hrun as [_ ->].
  cbn [tiki_queue]. rewrite !tq_update_ids. reflexivity.
Qed.

(** C2, as amended.  Take a batch whose records the driver accepts.  In
    the first script, an id of the batch whose fetch ends without a
    record (all RETRIES attempts used, or retrying given up) gets an
    all-null row in error storage, and its queue status is set to 'error'
    with the reason "Failed after retries".  In the second script such a
    fetch returns [None]: the batch writes no error row for the id and
    leaves its queue row as it was, so an id that was selected for this
    run is selected again by the next one. *)
Theorem exhausted_routing (net : network) (s : db) (batch : list Z) (pid : Z) :
  In pid (completion_order batch) ->
  has_qrow (tiki_queue s) pid = true ->
  (main_found scrub net pid = None ->
   main_batch_storable scrub net (completion_order batch) = true ->
   exists s',
     Main.run_batch scrub completion_order net s batch = Returned s'
     /\ find_row (tiki_error s') pid = Some (failure_row pid)
     /\ find_qrow (tiki_queue s') pid
        = Some (mk_qrow pid "error" (Some "Failed after retries")))
  /\ (tq_result scrub net pid = Returned None ->
      tq_batch_storable scrub net (completion_order batch) = true ->
      exists s',
        TikiQueue.run_batch scrub completion_order net s batch = Returned s'
        /\ find_row (tiki_error s') pid = find_row (tiki_error s) pid
        /\ find_qrow (tiki_queue s') pid = find_qrow (tiki_queue s) pid
        /\ (pk_queue (tiki_queue s) ->
            In pid (TikiQueue.fetch_pending_or_error_ids (tiki_queue s)) ->
            In pid (TikiQueue.fetch_pending_or_error_ids (tiki_queue s')))).
Proof.
  intros Hin Hq. split.
  - intros Hnone Hst.
    destruct (main_run_batch_ok net s batch Hst) as [s' Hrun].
    exists s'. split; [exact Hrun|].
    apply (main_failure_routed net s s' batch pid); assumption.
  - intros Hnone Hst.
    destruct (tq_run_batch_ok net s batch Hst) as [s' Hrun].
    exists s'. split; [exact Hrun|].
    destruct (tq_exhausted_untouched net s s' batch pid Hnone Hrun) as [H1 [_ H3]].
    split; [exact H1|]. split; [exact H3|].
    intros Hpk Hsel.
    assert (Hpk' : pk_queue (tiki_queue s')).
    { unfold pk_queue. rewrite (tq_batch_ids net s s' batch Hrun). exact Hpk. }
    apply (pending_or_error_selected (tiki_queue s') pid Hpk').
    apply (pending_or_error_selected (tiki_queue s) pid Hpk) in Hsel.
    unfold status_is in *. rewrite H3. exact Hsel.
Qed.

End Routing.

(** A record the driver rejects aborts the batch in both scripts: nothing
    of the batch is written. *)
Lemma numeric_url_key_aborts_batch :
  storable (with_missing Main.is_missing (main_fields 7 (Some payload_numeric_url_key)))
  = false
  /\ Main.run_batch keep in_order net_numeric_url_key db_7 [7] = Raised DataError
  /\ TikiQueue.run_batch keep in_order net_numeric_url_key db_7 [7] = Raised DataError.
Proof. repeat split; reflexivity. Qed.

Lemma exhausted_routing_witness :
  (exists s',
     Main.run_batch keep reversed net_503 db_7 [7] = Returned s'
     /\ find_row (tiki_error s') 7 = Some (failure_row 7)
     /\ find_qrow (tiki_queue s') 7
        = Some (mk_qrow 7 "error" (Some "Failed after retries")))
  /\ (exists s',
        TikiQueue.run_batch keep reversed net_503 db_7 [7] = Returned s'
        /\ find_row (tiki_error s') 7 = find_row (tiki_error db_7) 7
        /\ find_qrow (tiki_queue s') 7 = find_qrow (tiki_queue db_7) 7
        /\ (pk_queue (tiki_queue db_7) ->
            In 7 (TikiQueue.fetch_pending_or_error_ids (tiki_queue db_7)) ->
            In 7 (TikiQueue.fetch_pending_or_error_ids (tiki_queue s')))).
Proof.
  destruct (exhausted_routing keep reversed net_503 db_7 [7] 7) as [H1 H2].
  - simpl. left. reflexivity.
  - reflexivity.
  - split; [apply H1 | apply H2]; reflexivity.
Defined.

(** C2 as stated fails on the second script: with every response a 503,
    the fetch of id 7 uses all five attempts and returns [None]; the batch
    then writes no error row and the status of 7 stays 'pending'. *)
Lemma tiki_queue_drops_exhausted :
  requests (snd (TikiQueue.fetch_product keep net_503 7)) = [1; 2; 3; 4; 5]%nat
  /\ fst (TikiQueue.fetch_product keep net_503 7) = Returned None
  /\ exists s',
       TikiQueue.run_batch keep in_order net_503 db_7 [7] = Returned s'
       /\ has_row (tiki_error s') 7 = false
       /\ find_qrow (tiki_queue s') 7 = Some (mk_qrow 7 "pending" None).
Proof.
  split; [reflexivity|]. split; [reflexivity|].
  eexists. split; [reflexivity|]. split; reflexivity.
Qed.

(** ** Not found, and the back-off schedule *)

Lemma transient_http_transient (r : response) :
  transient_http r = true -> transient r = true.
Proof. destruct r; simpl; auto. Qed.

Lemma sleeps_backoff (n : nat) : sleeps (backoff n) = map (Nat.mul 2) (seq 1 n).
Proof.
  unfold backoff.
  assert (H : forall a, sleeps (flat_map (fun a => [EvRequest a; EvSleep (2 * a)]) (seq a n))
                        = map (Nat.mul 2) (seq a n)).
  { induction n as [|n IH]; intros a; [reflexivity|].
    cbn [seq flat_map map]. rewrite sleeps_app, IH. reflexivity. }
  apply H.
Qed.

Lemma requests_backoff (n : nat) : requests (backoff n) = seq 1 n.
Proof.
  unfold backoff.
  assert (H : forall a, requests (flat_map (fun a => [EvRequest a; EvSleep (2 * a)]) (seq a n))
                        = seq a n).
  { induction n as [|n IH]; intros a; [reflexivity|].
    cbn [seq flat_map]. rewrite requests_app, IH. reflexivity. }
  apply H.
Qed.

Section NotFound.

Variable scrub : string -> string.
Variable completion_order : list Z -> list Z.

Lemma tq_fetch_not_found (net : network) (pid : Z) (n : nat) :
  (n < RETRIES)%nat ->
  (forall k, (k < n)%nat -> transient (net pid k) = true) ->
  is_404 (net pid n) = true ->
  TikiQueue.fetch_product scrub net pid
  = (Raised (ProductNotFoundError pid), backoff n ++ [EvRequest (n + 1)]).
Proof.
  intros Hn Htr H404.
  rewrite (tq_fetch_prefix scrub net pid n) by (try lia; exact Htr).
  rewrite (tq_loop_end scrub net pid n (Raised (ProductNotFoundError pid))); try lia.
  - cbn [fst snd]. rewrite (last_request_lt _ Hn).
    apply Nat.ltb_lt in Hn. rewrite Hn. reflexivity.
  - intros _. split; [|discriminate]. apply tq_step_404.
    replace (1 + n - 1)%nat with n by lia. exact H404.
Qed.

Lemma main_fetch_break (net : network) (pid : Z) (rc : counter) (n : nat) :
  (n <= RETRIES)%nat ->
  (forall k, (k < n)%nat -> transient_http (net pid k) = true) ->
  (n < RETRIES -> (other_status (net pid n) || is_404 (net pid n)) = true)%nat ->
  Main.fetch_product scrub net pid rc
  = (Returned (Main.failure_record pid, counter_set rc pid (counter_get rc pid + 1)),
     backoff n ++ last_request n).
Proof.
  intros Hn Htr Hend. unfold Main.fetch_product.
  rewrite (main_loop_prefix scrub net pid n Hn Htr).
  rewrite (main_loop_end scrub net pid n (Returned Break) Hn).
  - reflexivity.
  - intros Hlt. split; [|discriminate]. apply main_step_break, Hend, Hlt.
Qed.

Lemma main_found_of_fetch (net : network) (pid : Z) (rc rc' : counter) (tr : list event) :
  Main.fetch_product scrub net pid rc = (Returned (Main.failure_record pid, rc'), tr) ->
  main_found scrub net pid = None.
Proof.
  intros H. destruct (main_found scrub net pid) as [r|] eqn:E; [|reflexivity].
  pose proof (main_fetch_product_eq scrub net pid rc) as Heq.
  rewrite H, E in Heq. cbn [fst] in Heq. inversion Heq as [Hr].
  apply main_found_record in E. rewrite <- Hr in E.
  destruct E as [n [u [p [d [i [m E]]]]]]. discriminate.
Qed.

Lemma tq_fetch_not_found_retried (net : network) (pid : Z) (n : nat) :
  (n < RETRIES)%nat ->
  (forall k, (k < n)%nat -> tq_retried (net pid k) = true) ->
  is_404 (net pid n) = true ->
  TikiQueue.fetch_product scrub net pid
  = (Raised (ProductNotFoundError pid), backoff n ++ [EvRequest (n + 1)]).
Proof.
  intros Hn Htr H404.
  rewrite (tq_fetch_retried scrub net pid n) by (try lia; exact Htr).
  rewrite (tq_loop_end scrub net pid n (Raised (ProductNotFoundError pid))); try lia.
  - cbn [fst snd]. rewrite (last_request_lt _ Hn).
    apply Nat.ltb_lt in Hn. rewrite Hn. reflexivity.
  - intros _. split; [|discriminate]. apply tq_step_404.
    replace (1 + n - 1)%nat with n by lia. exact H404.
Qed.

Lemma main_fetch_break_retried (net : network) (pid : Z) (rc : counter) (n : nat) :
  (n <= RETRIES)%nat ->
  (forall k, (k < n)%nat -> main_retried (net pid k) = true) ->
  (n < RETRIES -> (other_status (net pid n) || is_404 (net pid n)) = true)%nat ->
  Main.fetch_product scrub net pid rc
  = (Returned (Main.failure_record pid, counter_set rc pid (counter_get rc pid + 1)),
     main_retries net pid n ++ last_request n).
Proof.
  intros Hn Htr Hend. unfold Main.fetch_product.
  rewrite (main_loop_retried scrub net pid n Hn Htr).
  rewrite (main_loop_end scrub net pid n (Returned Break) Hn).
  - reflexivity.
  - intros Hlt. split; [|discriminate]. apply main_step_break, Hend, Hlt.
Qed.

(** A fetch that ends with a record. *)
Lemma main_fetch_found (net : network) (pid : Z) (rc : counter) (n : nat)
  (body : option pyval) :
  (n < RETRIES)%nat ->
  (forall k, (k < n)%nat -> main_retried (net pid k) = true) ->
  net pid n = Resp 200 body ->
  main_extractable body = true ->
  Main.fetch_product scrub net pid rc
  = (Returned (with_missing Main.is_missing (main_fields pid body), rc),
     main_retries net pid n ++ [EvRequest (n + 1)]).
Proof.
  intros Hn Htr H200 Hx. unfold Main.fetch_product.
  rewrite (main_loop_retried scrub net pid n) by (try lia; exact Htr).
  rewrite (main_loop_end scrub net pid n
             (Returned (Return_ (with_missing Main.is_missing (main_fields pid body)))));
    try lia.
  - cbn [fst snd]. rewrite (last_request_lt _ Hn).
    apply Nat.ltb_lt in Hn. rewrite Hn. reflexivity.
  - intros _. split; [|discriminate]. apply main_step_ok; assumption.
Qed.

Lemma tq_fetch_found (net : network) (pid : Z) (n : nat) (body : option pyval) :
  (n < RETRIES)%nat ->
  (forall k, (k < n)%nat -> tq_retried (net pid k) = true) ->
  net pid n = Resp 200 body ->
  extractable body = true ->
  TikiQueue.fetch_product scrub net pid
  = (Returned (Some (with_missing TikiQueue.is_missing (tq_fields scrub pid body))),
     backoff n ++ [EvRequest (n + 1)]).
Proof.
  intros Hn Htr H200 Hx.
  rewrite (tq_fetch_retried scrub net pid n) by (try lia; exact Htr).
  rewrite (tq_loop_end scrub net pid n
             (Returned (Return_ (with_missing TikiQueue.is_missing
                                   (tq_fields scrub pid body)))));
    try lia.
  - cbn [fst snd]. rewrite (last_request_lt _ Hn).
    apply Nat.ltb_lt in Hn. rewrite Hn. reflexivity.
  - intros _. split; [|discriminate]. apply tq_step_ok; [|exact Hx].
    replace (1 + n - 1)%nat with n by lia. exact H200.
Qed.

Lemma main_found_of_record (net : network) (pid : Z) (rc rc' : counter) (r : pydict)
  (tr : list event) :
  product_record pid r ->
  Main.fetch_product scrub net pid rc = (Returned (r, rc'), tr) ->
  main_found scrub net pid = Some r.
Proof.
  intros Hrec H. pose proof (main_fetch_product_eq scrub net pid rc) as Heq.
  rewrite H in Heq. cbn [fst] in Heq.
  destruct (main_found scrub net pid) as [r0|] eqn:E; inversion Heq as [Hr]; subst.
  - reflexivity.
  - destruct Hrec as [n [u [p [d [i [m Hrec]]]]]]. discriminate.
Qed.

(** C3, as amended.  Let the response to request [n + 1] for an id be a
    404, each earlier request having been retried (a transient status, a
    transport failure, or a 200 whose body yields no record).  Fetching
    ends with that request: no further attempt and no sleep after it.
    In the second script the fetch raises [ProductNotFoundError]; the
    batch, when the driver accepts its records, writes the 'all_fields'
    row to error storage and sets the status 'error' with the reason
    "404 Not Found".  In the first script the fetch returns the all-null
    record, and the batch sets the status 'error' with the same reason
    as for exhausted retries, "Failed after retries". *)
Theorem not_found_routing (net : network) (s : db) (batch : list Z) (pid : Z)
  (rc : counter) (n : nat) :
  (n < RETRIES)%nat ->
  is_404 (net pid n) = true ->
  In pid (completion_order batch) ->
  has_qrow (tiki_queue s) pid = true ->
  ((forall k, (k < n)%nat -> tq_retried (net pid k) = true) ->
   TikiQueue.fetch_product scrub net pid
   = (Raised (ProductNotFoundError pid), backoff n ++ [EvRequest (n + 1)])
   /\ (tq_batch_storable scrub net (completion_order batch) = true ->
       exists s',
         TikiQueue.run_batch scrub completion_order net s batch = Returned s'
         /\ find_row (tiki_error s') pid = Some (not_found_row pid)
         /\ find_qrow (tiki_queue s') pid
            = Some (mk_qrow pid "error" (Some "404 Not Found"))))
  /\ ((forall k, (k < n)%nat -> main_retried (net pid k) = true) ->
      Main.fetch_product scrub net pid rc
      = (Returned (Main.failure_record pid, counter_set rc pid (counter_get rc pid + 1)),
         main_retries net pid n ++ [EvRequest (n + 1)])
      /\ (main_batch_storable scrub net (completion_order batch) = true ->
          exists s',
            Main.run_batch scrub completion_order net s batch = Returned s'
            /\ find_row (tiki_error s') pid = Some (failure_row pid)
            /\ find_qrow (tiki_queue s') pid
               = Some (mk_qrow pid "error" (Some "Failed after retries")))).
Proof.
  intros Hn H404 Hin Hq. split.
  - intros Htr.
    assert (Htq : TikiQueue.fetch_product scrub net pid
                  = (Raised (ProductNotFoundError pid),
                     backoff n ++ [EvRequest (n + 1)]))
      by (apply tq_fetch_not_found_retried; auto).
    split; [exact Htq|]. intros Hst.
    destruct (tq_run_batch_ok scrub completion_order net s batch Hst) as [s' Hrun].
    exists s'. split; [exact Hrun|].
    apply (tq_not_found_routed scrub completion_order net s s' batch pid); auto.
    unfold tq_result. rewrite Htq. reflexivity.
  - intros Htr.
    assert (Hmain : Main.fetch_product scrub net pid rc
                    = (Returned (Main.failure_record pid,
                                 counter_set rc pid (counter_get rc pid + 1)),
                       main_retries net pid n ++ [EvRequest (n + 1)])).
    { rewrite <- (last_request_lt n Hn).
      apply main_fetch_break_retried; [lia | exact Htr|].
      intros _. rewrite H404. apply orb_true_r. }
    split; [exact Hmain|]. intros Hst.
    destruct (main_run_batch_ok scrub completion_order net s batch Hst) as [s' Hrun].
    exists s'. split; [exact Hrun|].
    apply (main_failure_routed scrub completion_order net s s' batch pid); auto.
    eapply main_found_of_fetch; eauto.
Qed.

(** C4, as amended.  Let the responses to the first [n] requests for an
    id be transient and, when attempts are left, the next one carry a
    status other than 200, 404 and the transient ones.  In the second
    script every transient outcome, HTTP status or transport-level
    exception, is followed by a sleep of [2 * attempt] seconds.  In the
    first script this holds for the transient HTTP statuses, whereas a
    transport-level exception is followed by no sleep.  In both, the
    sleeps never decrease, at most RETRIES requests are issued, exactly
    RETRIES when all outcomes are transient, and the other status ends
    the fetch at once. *)
Theorem backoff_schedule (net : network) (pid : Z) (rc : counter) (n : nat) :
  (n <= RETRIES)%nat ->
  (n < RETRIES -> other_status (net pid n) = true)%nat ->
  ((forall k, (k < n)%nat -> transient (net pid k) = true) ->
   TikiQueue.fetch_product scrub net pid = (Returned None, backoff n ++ last_request n))
  /\ ((forall k, (k < n)%nat -> transient_http (net pid k) = true) ->
      Main.fetch_product scrub net pid rc
      = (Returned (Main.failure_record pid,
                   counter_set rc pid (counter_get rc pid + 1)),
         backoff n ++ last_request n))
  /\ ((forall k, (k < n)%nat -> net pid k = TransportError) ->
      snd (Main.fetch_product scrub net pid rc)
      = map EvRequest (seq 1 n) ++ last_request n)
  /\ sleeps (backoff n ++ last_request n) = map (Nat.mul 2) (seq 1 n)
  /\ requests (backoff n ++ last_request n) = seq 1 (Nat.min (n + 1) RETRIES)
  /\ non_decreasing (sleeps (snd (TikiQueue.fetch_product scrub net pid)))
  /\ non_decreasing (sleeps (snd (Main.fetch_product scrub net pid rc)))
  /\ (List.length (requests (snd (TikiQueue.fetch_product scrub net pid))) <= RETRIES)%nat
  /\ (List.length (requests (snd (Main.fetch_product scrub net pid rc))) <= RETRIES)%nat.
Proof.
  intros Hn Hend.
  assert (Hend' : (n < RETRIES ->
                   (other_status (net pid n) || is_404 (net pid n)) = true)%nat).
  { intros Hlt. rewrite (Hend Hlt). reflexivity. }
  repeat split.
  - intros Htr.
    rewrite (tq_fetch_prefix scrub net pid n Hn Htr).
    rewrite (tq_loop_end scrub net pid n (Returned Break) Hn); [reflexivity|].
    intros Hlt. split; [|discriminate]. apply tq_step_break.
    replace (1 + n - 1)%nat with n by lia. apply Hend, Hlt.
  - intros Htr. apply main_fetch_break; assumption.
  - intros Hex. unfold Main.fetch_product. cbn [snd].
    rewrite (main_loop_exceptions scrub net pid n Hn Hex).
    rewrite (main_loop_end scrub net pid n (Returned Break) Hn); [reflexivity|].
    intros Hlt. split; [|discriminate]. apply main_step_break, Hend', Hlt.
  - rewrite sleeps_app, sleeps_backoff. unfold last_request.
    destruct (n <? RETRIES)%nat; simpl; apply app_nil_r.
  - rewrite requests_app, requests_backoff. unfold last_request.
    destruct (n <? RETRIES)%nat eqn:E.
    + apply Nat.ltb_lt in E. rewrite Nat.min_l by lia.
      replace (n + 1)%nat with (S n) by lia. rewrite seq_S. reflexivity.
    + apply Nat.ltb_ge in E. rewrite Nat.min_r by lia.
      replace n with RETRIES by lia. reflexivity.
  - apply (retry_loop_sleeps _ 0 (tq_step_sleeps scrub net pid)).
  - apply (retry_loop_sleeps _ 1 (main_step_sleeps scrub net pid)).
  - apply (retry_loop_requests _ (tq_step_requests scrub net pid) (seq 1 RETRIES)).
  - apply (retry_loop_requests _ (main_step_requests scrub net pid) (seq 0 RETRIES)).
Qed.

End NotFound.

Lemma not_found_routing_witness :
  (TikiQueue.fetch_product keep net_503_404 7
   = (Raised (ProductNotFoundError 7), [EvRequest 1; EvSleep 2; EvRequest 2])
   /\ exists s',
        TikiQueue.run_batch keep in_order net_503_404 db_7 [7] = Returned s'
        /\ find_row (tiki_error s') 7 = Some (not_found_row 7)
        /\ find_qrow (tiki_queue s') 7 = Some (mk_qrow 7 "error" (Some "404 Not Found")))
  /\ (Main.fetch_product keep net_503_404 7 []
      = (Returned (Main.failure_record 7, [(7, 1%nat)]),
         [EvRequest 1; EvSleep 2; EvRequest 2])
      /\ exists s',
           Main.run_batch keep in_order net_503_404 db_7 [7] = Returned s'
           /\ find_row (tiki_error s') 7 = Some (failure_row 7)
           /\ find_qrow (tiki_queue s') 7
              = Some (mk_qrow 7 "error" (Some "Failed after retries"))).
Proof.
  destruct (not_found_routing keep in_order net_503_404 db_7 [7] 7 [] 1)
    as [H1 H2].
  - unfold RETRIES. lia.
  - reflexivity.
  - simpl. left. reflexivity.
  - reflexivity.
  - split.
    + destruct H1 as [Hf Hb].
      * intros k Hk. assert (k = 0%nat) as -> by lia. reflexivity.
      * split; [exact Hf | apply Hb; reflexivity].
    + destruct H2 as [Hf Hb].
      * intros k Hk. assert (k = 0%nat) as -> by lia. reflexivity.
      * split; [exact Hf | apply Hb; reflexivity].
Defined.

(** C3 as stated fails on the first script: after a 404 the queue row
    reads exactly as after exhausted retries. *)
Lemma main_404_like_exhausted :
  fst (Main.fetch_product keep net_404 7 []) = fst (Main.fetch_product keep net_503 7 [])
  /\ requests (snd (Main.fetch_product keep net_404 7 [])) = [1%nat]
  /\ requests (snd (Main.fetch_product keep net_503 7 [])) = [1; 2; 3; 4; 5]%nat
  /\ Main.run_batch keep in_order net_404 db_7 [7]
     = Main.run_batch keep in_order net_503 db_7 [7]
  /\ exists s',
       Main.run_batch keep in_order net_404 db_7 [7] = Returned s'
       /\ find_qrow (tiki_queue s') 7
          = Some (mk_qrow 7 "error" (Some "Failed after retries")).
Proof.
  repeat split; try reflexivity.
  eexists. split; reflexivity.
Qed.

Lemma backoff_schedule_witness :
  TikiQueue.fetch_product keep net_503_403 7
  = (Returned None, [EvRequest 1; EvSleep 2; EvRequest 2; EvSleep 4; EvRequest 3])
  /\ Main.fetch_product keep net_503_403 7 []
     = (Returned (Main.failure_record 7, [(7, 1%nat)]),
        [EvRequest 1; EvSleep 2; EvRequest 2; EvSleep 4; EvRequest 3])
  /\ non_decreasing (sleeps (snd (TikiQueue.fetch_product keep net_503_403 7))).
Proof.
  destruct (backoff_schedule keep net_503_403 7 [] 2) as [H1 [H2 [_ [_ [_ [H3 _]]]]]].
  - unfold RETRIES. lia.
  - intros _. reflexivity.
  - split; [|split; [|exact H3]].
    + apply H1. intros k Hk. destruct k as [|[|k]]; [reflexivity | reflexivity | lia].
    + apply H2. intros k Hk. destruct k as [|[|k]]; [reflexivity | reflexivity | lia].
Defined.

(** C4 as stated fails on the first script: with every request ending in
    a transport-level exception, the five attempts follow one another
    with no sleep at all. *)
Lemma main_no_sleep_after_exception :
  snd (Main.fetch_product keep net_down 7 [])
  = [EvRequest 1; EvRequest 2; EvRequest 3; EvRequest 4; EvRequest 5]
  /\ sleeps (snd (Main.fetch_product keep net_down 7 [])) = []
  /\ sleeps (snd (TikiQueue.fetch_product keep net_down 7)) = [2; 4; 6; 8; 10]%nat.
Proof.
  repeat split; reflexivity.
Qed.

(** ** The fully-empty flag and the interface of [fetch_product] *)

Lemma all_none_spec (result : pydict) (ks : list string) (b : bool) :
  Main.all_none result ks = Returned b ->
  (b = true <-> Forall (fun k => k = "id" \/ dict_get result k = Some PNone) ks).
Proof.
  revert b. induction ks as [|k ks IH]; intros b; cbn [Main.all_none].
  - intros H. inversion H. split; [constructor | reflexivity].
  - destruct (k =? "id")%string eqn:Ek; cbn [negb].
    + apply String.eqb_eq in Ek. intros H. rewrite (IH b H). split.
      * intros HF. constructor; [left; exact Ek | exact HF].
      * intros HF. inversion HF; assumption.
    + apply String.eqb_neq in Ek.
      destruct (dict_get result k) as [v|] eqn:Eg; [|discriminate].
      destruct (is_none v) eqn:En; intros H.
      * assert (v = PNone) by (destruct v; [reflexivity | discriminate ..]). subst v.
        rewrite (IH b H). split.
        -- intros HF. constructor; [right; exact Eg | exact HF].
        -- intros HF. inversion HF; assumption.
      * inversion H. split; [discriminate|].
        intros HF. inversion HF as [|x l Hx Hl]. destruct Hx as [Hx|Hx]; [tauto|].
        rewrite Eg in Hx. inversion Hx. subst v. discriminate.
Qed.

(** The flag computed by [process_batch] is true exactly when every
    field other than [id] is null. *)
Lemma is_fully_empty_spec (result : pydict) (b : bool) :
  Main.is_fully_empty result = Returned b -> (b = true <-> all_null result).
Proof.
  unfold Main.is_fully_empty, all_null. destruct result as [|kv result].
  - intros H. inversion H. split; [discriminate|].
    intros HF. inversion HF as [|x l _ Hl]. inversion Hl as [|y l' [Hy|Hy] _].
    + discriminate.
    + discriminate.
  - apply all_none_spec.
Qed.

Section FullyEmpty.

Variable scrub : string -> string.
Variable completion_order : list Z -> list Z.

Lemma main_good_rows_in (net : network) (l : list Z) (v : prow) :
  In v (main_good_rows scrub net l) ->
  exists r, In (p_id v) l /\ main_found scrub net (p_id v) = Some r
            /\ values_of r = Returned v.
Proof.
  unfold main_good_rows. intros H. apply in_flat_map in H.
  destruct H as [pid [Hin Hv]].
  destruct (main_found scrub net pid) as [r|] eqn:Ef; [|destruct Hv].
  destruct (values_of r) as [v0|e] eqn:Hv0; [|destruct Hv].
  pose proof (product_record_values pid r v0 (main_found_record scrub net pid r Ef) Hv0)
    as Hid.
  destruct Hv as [<-|[]]. subst pid. eauto.
Qed.

(** Where a batch of the first script writes the record of an id. *)
Lemma main_good_routed (net : network) (s s' : db) (batch : list Z) (pid : Z)
  (r : pydict) :
  In pid (completion_order batch) ->
  main_found scrub net pid = Some r ->
  Main.run_batch scrub completion_order net s batch = Returned s' ->
  exists row,
    values_of r = Returned row
    /\ find_row (tiki_product s') pid = Some row
    /\ find_row (tiki_error s') pid = find_row (tiki_error s) pid.
Proof.
  intros Hin Ef Hrun.
  apply main_run_batch_inv in Hrun. destruct Hrun as [Hst ->].
  pose proof (main_found_record scrub net pid r Ef) as Hrec.
  assert (Hp : storable r = true).
  { unfold main_batch_storable in Hst. rewrite forallb_forall in Hst.
    specialize (Hst pid Hin). unfold main_id_storable in Hst.
    rewrite Ef in Hst. exact Hst. }
  destruct (storable_values r Hp) as [v Hv].
  pose proof (product_record_values pid r v Hrec Hv) as Hid.
  exists v. split; [exact Hv|]. cbn [tiki_product tiki_error]. split.
  - rewrite <- Hid. apply find_row_fold_in.
    + unfold main_good_rows. apply in_flat_map. exists pid.
      split; [exact Hin|]. rewrite Ef, Hv. left. reflexivity.
    + intros v' Hv' Hsame. apply main_good_rows_in in Hv'.
      destruct Hv' as [r' [_ [Hf' Hv'']]].
      rewrite Hsame, Hid, Ef in Hf'. inversion Hf'; subst r'. congruence.
  - apply find_row_fold_other. rewrite map_id_failure_rows.
    intros H. apply filter_In in H. rewrite Ef in H. destruct H; discriminate.
Qed.

(** C5, as amended.  Take a batch of the first script whose records the
    driver accepts.  The record the fetch of an id returns is flagged
    fully empty exactly when every field other than [id] is null, and
    that is exactly when the fetch ended without a record: the record
    built from a 200 response is never flagged, whatever its body, since
    its [name], [description] and [missing_fields] are strings.  A
    flagged record is written to error storage and not to success
    storage; any other record, so every record of a 200 response, is
    written to success storage and not to error storage. *)
Theorem fully_empty_routing (net : network) (s : db) (batch : list Z) (pid : Z)
  (rc : counter) :
  In pid (completion_order batch) ->
  main_batch_storable scrub net (completion_order batch) = true ->
  exists r rc' b s' row,
    fst (Main.fetch_product scrub net pid rc) = Returned (r, rc')
    /\ Main.is_fully_empty r = Returned b
    /\ (b = true <-> all_null r)
    /\ (b = true <-> main_found scrub net pid = None)
    /\ (forall n body,
           (n < RETRIES)%nat ->
           (forall k, (k < n)%nat -> main_retried (net pid k) = true) ->
           net pid n = Resp 200 body ->
           main_extractable body = true ->
           r = with_missing Main.is_missing (main_fields pid body) /\ b = false)
    /\ Main.run_batch scrub completion_order net s batch = Returned s'
    /\ values_of r = Returned row
    /\ if b
       then find_row (tiki_error s') pid = Some row
            /\ find_row (tiki_product s') pid = find_row (tiki_product s) pid
       else find_row (tiki_product s') pid = Some row
            /\ find_row (tiki_error s') pid = find_row (tiki_error s) pid.
Proof.
  intros Hin Hst.
  pose proof (main_fetch_product_eq scrub net pid rc) as Hf.
  destruct (main_run_batch_ok scrub completion_order net s batch Hst) as [s' Hrun].
  assert (H200 : forall r0 n body,
             main_found scrub net pid = r0 ->
             (n < RETRIES)%nat ->
             (forall k, (k < n)%nat -> main_retried (net pid k) = true) ->
             net pid n = Resp 200 body ->
             main_extractable body = true ->
             r0 = Some (with_missing Main.is_missing (main_fields pid body))).
  { intros r0 n body Hr0 Hn Htr Hresp Hx.
    pose proof (main_fetch_found scrub net pid rc n body Hn Htr Hresp Hx) as Hfound.
    rewrite <- Hr0. eapply main_found_of_record; [|exact Hfound].
    pose proof (main_extract_eval scrub pid body) as He. rewrite Hx in He.
    apply (normalize_shape scrub Main.KEPT_CHARS Main.is_missing pid body).
    unfold normalize. rewrite He. reflexivity. }
  destruct (main_found scrub net pid) as [r|] eqn:Ef.
  - pose proof (main_found_record scrub net pid r Ef) as Hrec.
    destruct (main_good_routed net s s' batch pid r Hin Ef Hrun) as [v [Hv [Hp He]]].
    exists r, rc, false, s', v.
    split; [exact Hf|]. split; [apply (product_record_not_empty pid), Hrec|].
    split; [apply is_fully_empty_spec, (product_record_not_empty pid), Hrec|].
    split; [split; discriminate|].
    split.
    { intros n body Hn Htr Hresp Hx.
      pose proof (H200 (Some r) n body eq_refl Hn Htr Hresp Hx) as H.
      inversion H. split; reflexivity. }
    split; [exact Hrun|]. split; [exact Hv|]. split; assumption.
  - assert (Hi : int64 pid = true).
    { unfold main_batch_storable in Hst. rewrite forallb_forall in Hst.
      specialize (Hst pid Hin). unfold main_id_storable in Hst.
      rewrite Ef in Hst. exact Hst. }
    exists (Main.failure_record pid), (counter_set rc pid (counter_get rc pid + 1)), true,
      s', (failure_row pid).
    split; [exact Hf|]. split; [reflexivity|].
    split; [apply is_fully_empty_spec; reflexivity|].
    split; [split; reflexivity|].
    split.
    { intros n body Hn Htr Hresp Hx.
      pose proof (H200 None n body eq_refl Hn Htr Hresp Hx) as H. discriminate. }
    split; [exact Hrun|].
    split; [rewrite failure_record_values, Hi; reflexivity|].
    pose proof Hrun as Hrun'.
    apply main_run_batch_inv in Hrun'. destruct Hrun' as [_ Hs'].
    destruct (main_goods_values scrub net _ Hst) as [_ Hids].
    split.
    + rewrite Hs'. cbn [tiki_error]. apply (find_row_fold_in _ _ (failure_row pid)).
      * apply in_map, filter_In. split; [exact Hin|]. rewrite Ef. reflexivity.
      * intros v' Hv' Hsame. apply in_map_iff in Hv'. destruct Hv' as [x [<- _]].
        simpl in Hsame. subst x. reflexivity.
    + rewrite Hs'. cbn [tiki_product]. apply find_row_fold_other. rewrite Hids.
      intros H. apply filter_In in H. rewrite Ef in H. destruct H; discriminate.
Qed.

(** A record built from a 200 response is never flagged: [clean_text]
    turns a null [name] into the empty string. *)
Lemma decoded_record_not_flagged (pid : Z) (body : option pyval) (r : pydict) :
  normalize scrub Main.KEPT_CHARS Main.is_missing pid body = Returned r ->
  Main.is_fully_empty r = Returned false /\ ~ all_null r.
Proof.
  intros H. apply normalize_shape in H.
  pose proof (product_record_not_empty pid r H) as Hb.
  split; [exact Hb|]. intros Hall.
  apply (is_fully_empty_spec r false Hb) in Hall. discriminate.
Qed.

(** C10.  In the first script [fetch_product] returns to its caller for
    every id, whatever the remote answers: it never raises.  The dict
    returned has [id] equal to the id asked for; it is either a record
    built from a 200 response or, in the failure case, the dict in which
    every field other than [id] is null. *)
Theorem fetch_product_total (net : network) (pid : Z) (rc : counter) :
  exists d rc',
    fst (Main.fetch_product scrub net pid rc) = Returned (d, rc')
    /\ dict_get d "id" = Some (PInt pid)
    /\ ((main_found scrub net pid = Some d /\ product_record pid d)
        \/ (main_found scrub net pid = None /\ d = Main.failure_record pid
            /\ all_null d)).
Proof.
  pose proof (main_fetch_product_eq scrub net pid rc) as Hf.
  destruct (main_found scrub net pid) as [r|] eqn:Ef.
  - pose proof (main_found_record scrub net pid r Ef) as Hrec.
    exists r, rc. split; [exact Hf|].
    split; [apply product_record_id, Hrec|]. left. auto.
  - exists (Main.failure_record pid), (counter_set rc pid (counter_get rc pid + 1)).
    split; [exact Hf|]. split; [reflexivity|]. right.
    split; [reflexivity|]. split; [reflexivity|].
    apply (is_fully_empty_spec _ true); reflexivity.
Qed.

End FullyEmpty.

Lemma fully_empty_routing_witness :
  exists r rc' b s' row,
    fst (Main.fetch_product keep net_empty_object 7 []) = Returned (r, rc')
    /\ Main.is_fully_empty r = Returned b
    /\ (b = true <-> all_null r)
    /\ (b = true <-> main_found keep net_empty_object 7 = None)
    /\ (forall n body,
           (n < RETRIES)%nat ->
           (forall k, (k < n)%nat -> main_retried (net_empty_object 7 k) = true) ->
           net_empty_object 7 n = Resp 200 body ->
           main_extractable body = true ->
           r = with_missing Main.is_missing (main_fields 7 body) /\ b = false)
    /\ Main.run_batch keep in_order net_empty_object db_7 [7] = Returned s'
    /\ values_of r = Returned row
    /\ if b
       then find_row (tiki_error s') 7 = Some row
            /\ find_row (tiki_product s') 7 = find_row (tiki_product db_7) 7
       else find_row (tiki_product s') 7 = Some row
            /\ find_row (tiki_error s') 7 = find_row (tiki_error db_7) 7.
Proof.
  apply (fully_empty_routing keep in_order net_empty_object db_7 [7] 7 []).
  - simpl. left. reflexivity.
  - reflexivity.
Defined.

(** C5 as stated fails on both scripts: a 200 response whose body is the
    empty JSON object has no usable field, yet its record is not flagged
    (its [name] and [description] are the empty string, not null): the
    batch writes it to success storage, writes nothing to error storage
    and marks the id 'done'. *)
Lemma empty_payload_stored_as_success :
  Main.fetch_product keep net_empty_object 7 []
  = (Returned ([ ("id", PInt 7); ("name", PStr ""); ("url_key", PNone);
                 ("price", PNone); ("description", PStr ""); ("image_url", PNone);
                 ("missing_fields", PStr "name,url_key,price,description,image_url") ],
               []),
     [EvRequest 1])
  /\ Main.is_fully_empty
       [ ("id", PInt 7); ("name", PStr ""); ("url_key", PNone);
         ("price", PNone); ("description", PStr ""); ("image_url", PNone);
         ("missing_fields", PStr "name,url_key,price,description,image_url") ]
     = Returned false
  /\ (exists s',
         Main.run_batch keep in_order net_empty_object db_7 [7] = Returned s'
         /\ has_row (tiki_product s') 7 = true
         /\ has_row (tiki_error s') 7 = false
         /\ find_qrow (tiki_queue s') 7 = Some (mk_qrow 7 "done" None))
  /\ (exists s',
         TikiQueue.run_batch keep in_order net_empty_object db_7 [7] = Returned s'
         /\ has_row (tiki_product s') 7 = true
         /\ has_row (tiki_error s') 7 = false
         /\ find_qrow (tiki_queue s') 7 = Some (mk_qrow 7 "done" None)).
Proof.
  split; [reflexivity|]. split; [reflexivity|].
  split; eexists; (split; [reflexivity|]); repeat split; reflexivity.
Qed.

(** ** Missing fields *)

Lemma null_or_empty_is_missing (v : pyval) : Main.is_missing v = null_or_empty v.
Proof. destruct v; reflexivity. Qed.

(** First script: [missing_fields] joins with commas the names of exactly
    the fields, other than [id], that are null or the empty string, in
    declared order; it is the empty string when there is none.  A price of
    0 is therefore not listed. *)
Lemma main_missing_fields (scrub : string -> string) (pid : Z) (body : option pyval)
  (r : pydict) :
  normalize scrub Main.KEPT_CHARS Main.is_missing pid body = Returned r ->
  dict_get r "missing_fields"
  = Some (PStr (String.concat ","
                  (filter (fun k => null_or_empty (get r k)) DATA_FIELDS))).
Proof.
  unfold normalize. intros H.
  apply bind_returned in H. destruct H as [base [Hb H]].
  apply extract_shape in Hb.
  destruct Hb as [name [uk [price [description [img Hb]]]]]. subst base.
  inversion H as [Hr]. clear H Hr.
  unfold with_missing, missing, DATA_FIELDS.
  cbn [filter fst snd String.eqb Ascii.eqb Bool.eqb negb andb map].
  rewrite !null_or_empty_is_missing.
  destruct (null_or_empty (PStr name)) eqn:E1, (null_or_empty uk) eqn:E2,
    (null_or_empty price) eqn:E3, (null_or_empty (PStr description)) eqn:E4,
    (null_or_empty img) eqn:E5;
    cbn [map fst dict_set String.eqb Ascii.eqb Bool.eqb dict_get get filter];
    rewrite ?E1, ?E2, ?E3, ?E4, ?E5; reflexivity.
Qed.

(** Second script: the fields listed are those whose value is falsy. *)
Lemma tq_missing_fields (scrub : string -> string) (pid : Z) (body : option pyval)
  (r : pydict) :
  normalize scrub TikiQueue.KEPT_CHARS TikiQueue.is_missing pid body = Returned r ->
  dict_get r "missing_fields"
  = Some (PStr (String.concat ","
                  (filter (fun k => negb (truthy (get r k))) DATA_FIELDS))).
Proof.
  unfold normalize. intros H.
  apply bind_returned in H. destruct H as [base [Hb H]].
  apply extract_shape in Hb.
  destruct Hb as [name [uk [price [description [img Hb]]]]]. subst base.
  inversion H as [Hr]. clear H Hr.
  unfold with_missing, missing, DATA_FIELDS, TikiQueue.is_missing.
  cbn [filter fst snd String.eqb Ascii.eqb Bool.eqb negb andb map].
  destruct (truthy (PStr name)) eqn:E1, (truthy uk) eqn:E2,
    (truthy price) eqn:E3, (truthy (PStr description)) eqn:E4,
    (truthy img) eqn:E5;
    cbn [map fst dict_set String.eqb Ascii.eqb Bool.eqb dict_get get filter negb];
    rewrite ?E1, ?E2, ?E3, ?E4, ?E5; reflexivity.
Qed.

(** C8 fails on the second script.  For a 200 response whose [price] is
    the number 0 and whose other fields are all present, the second script
    lists [price] in [missing_fields] although the price stored is 0.  On
    a response with a price of 0 and an empty name and description, the
    first script lists the name and the description only, the second
    script the price as well.  (The first script builds no record from
    the first response: its [clean_text] raises on the name.) *)
Theorem tiki_queue_lists_price_zero :
  fst (TikiQueue.fetch_product keep net_price_0 1)
  = Returned (Some [ ("id", PInt 1); ("name", PStr "lamp"); ("url_key", PStr "lamp-1");
                     ("price", PInt 0); ("description", PStr "a lamp");
                     ("image_url", PStr "http://img/1");
                     ("missing_fields", PStr "price") ])
  /\ fst (TikiQueue.fetch_product keep net_unnamed_price_0 1)
     = Returned (Some [ ("id", PInt 1); ("name", PStr ""); ("url_key", PStr "lamp-1");
                        ("price", PInt 0); ("description", PStr "");
                        ("image_url", PStr "http://img/1");
                        ("missing_fields", PStr "name,price,description") ])
  /\ fst (Main.fetch_product keep net_unnamed_price_0 1 [])
     = Returned ([ ("id", PInt 1); ("name", PStr ""); ("url_key", PStr "lamp-1");
                   ("price", PInt 0); ("description", PStr "");
                   ("image_url", PStr "http://img/1");
                   ("missing_fields", PStr "name,description") ], [])
  /\ fst (Main.fetch_product keep net_price_0 1 [])
     = Returned (Main.failure_record 1, [(1, 1%nat)]).
Proof. repeat split; reflexivity. Qed.

(** ** The batch upsert *)




Lemma last_for_cons (v : prow) (vs : list prow) (id : Z) :
    last_for (v :: vs) id =
    match last_for vs id with
    | Some x => Some x
    | None => if p_id v =? id then Some v else None
    end.
Proof.
    change (find_row (rev vs ++ [v]) id =
            match find_row (rev vs) id with
            | Some x => Some x
            | None => if p_id v =? id then Some v else None
            end).
    rewrite find_row_app. destruct (find_row (rev vs) id); [reflexivity|].
    unfold find_row. simpl. destruct (p_id v =? id); reflexivity.
Qed.







(** ** Queue initialisation *)

Lemma has_qrow_app (q1 q2 : queue) (id : Z) :
  has_qrow (q1 ++ q2) id = has_qrow q1 id || has_qrow q2 id.
Proof. apply existsb_app. Qed.

Lemma insert_pending_fold_app (ids : list Z) :
  forall q, exists extra,
    fold_left insert_pending ids q = q ++ extra
    /\ Forall (fun r => q_status r = "pending" /\ q_last_error r = None
                        /\ In (q_id r) ids /\ has_qrow q (q_id r) = false) extra.
Proof.
  induction ids as [|pid ids IH]; intros q; cbn [fold_left].
  - exists []. rewrite app_nil_r. split; [reflexivity | constructor].
  - destruct (IH (insert_pending q pid)) as [extra [Heq Hall]].
    unfold insert_pending in *. destruct (has_qrow q pid) eqn:Hh.
    + exists extra. split; [exact Heq|].
      eapply Forall_impl; [|exact Hall]. simpl. intros r [H1 [H2 [H3 H4]]]. auto.
    + exists (mk_qrow pid "pending" None :: extra).
      split; [rewrite Heq, <- app_assoc; reflexivity|].
      constructor; [simpl; auto|].
      eapply Forall_impl; [|exact Hall]. simpl. intros r [H1 [H2 [H3 H4]]].
      rewrite has_qrow_app in H4. apply orb_false_iff in H4. tauto.
Qed.

Lemma insert_pending_fold_has (ids : list Z) (id : Z) :
  forall q, has_qrow (fold_left insert_pending ids q) id = true
            <-> has_qrow q id = true \/ In id ids.
Proof.
  induction ids as [|pid ids IH]; intros q; cbn [fold_left].
  - simpl. tauto.
  - rewrite IH. unfold insert_pending. cbn [In]. destruct (has_qrow q pid) eqn:Hh.
    + split; [tauto|]. intros [H|[H|H]]; auto. subst pid. auto.
    + rewrite has_qrow_app. simpl. rewrite orb_false_r, orb_true_iff, Z.eqb_eq.
      split; [intros [[H|H]|H]; auto | intros [H|[H|H]]; auto].
Qed.

Lemma insert_pending_fold_noop (ids : list Z) (q : queue) :
  Forall (fun id => has_qrow q id = true) ids -> fold_left insert_pending ids q = q.
Proof.
  induction ids as [|pid ids IH]; intros Hall; [reflexivity|].
  inversion Hall as [|x l Hx Hl]; subst. cbn [fold_left].
  unfold insert_pending at 2. rewrite Hx. apply IH, Hl.
Qed.

Lemma insert_pending_fold_pk (ids : list Z) :
  forall q, pk_queue q -> pk_queue (fold_left insert_pending ids q).
Proof.
  induction ids as [|pid ids IH]; intros q Hpk; [exact Hpk|].
  cbn [fold_left]. apply IH. unfold insert_pending.
  destruct (has_qrow q pid) eqn:Hh; [exact Hpk|].
  unfold pk_queue. rewrite map_app. simpl.
  apply NoDup_app; [exact Hpk | repeat constructor; simpl; tauto|].
  intros a Ha [Hb|[]]. subst a. apply has_qrow_in in Ha. congruence.
Qed.

Lemma dedup_in (ids : list Z) (x : Z) : In x (dedup ids) <-> In x ids.
Proof.
  unfold dedup.
  assert (H : forall acc, In x (fold_left (fun acc y => if existsb (Z.eqb y) acc
                                                        then acc else acc ++ [y]) ids acc)
                          <-> In x acc \/ In x ids).
  { induction ids as [|y ids IH]; intros acc; cbn [fold_left].
    - simpl. tauto.
    - rewrite IH. cbn [In]. destruct (existsb (Z.eqb y) acc) eqn:E.
      + apply existsb_eqb_in in E. split; [tauto|].
        intros [H|[H|H]]; auto. subst y. auto.
      + rewrite in_app_iff. simpl. tauto. }
  rewrite H. simpl. tauto.
Qed.

Lemma tq_init_spec (q : queue) (ids : list Z) :
  pk_queue q -> init_spec TikiQueue.init_queue q ids.
Proof.
  intros Hpk. unfold init_spec, TikiQueue.init_queue.
  assert (Hall : Forall (fun id => has_qrow (fold_left insert_pending ids q) id = true) ids).
  { apply Forall_forall. intros id Hin. apply insert_pending_fold_has. auto. }
  split; [apply insert_pending_fold_app|]. split; [exact Hall|].
  split; [apply insert_pending_fold_noop, Hall | apply insert_pending_fold_pk, Hpk].
Qed.

Lemma main_init_spec (q : queue) (ids : list Z) :
  pk_queue q -> init_spec Main.init_queue q ids.
Proof.
  intros Hpk. unfold init_spec, Main.init_queue.
  assert (Hall : Forall (fun id => has_qrow (fold_left insert_pending (dedup ids) q) id = true)
                   ids).
  { apply Forall_forall. intros id Hin. apply insert_pending_fold_has.
    right. apply dedup_in, Hin. }
  split; [|split; [exact Hall|split]].
  - destruct (insert_pending_fold_app (dedup ids) q) as [extra [Heq Hex]].
    exists extra. split; [exact Heq|].
    eapply Forall_impl; [|exact Hex]. simpl. intros r [H1 [H2 [H3 H4]]].
    rewrite dedup_in in H3. auto.
  - apply insert_pending_fold_noop. apply Forall_forall. intros id Hin.
    rewrite Forall_forall in Hall. apply Hall. apply dedup_in, Hin.
  - apply insert_pending_fold_pk, Hpk.
Qed.

(** C7, as amended.  In both scripts queue initialisation only appends
    rows: each row added is 'pending' and belongs to an id of the input
    that the queue did not hold, so the rows already present keep their
    status and error; afterwards every id of the input is present; calling
    it again with the same ids leaves the queue as it is, row count and
    statuses included; and the primary key stays unique.  Called with a
    superset of the ids, it again only appends: the rows present are
    unchanged and the ids that are new are added as 'pending', so the row
    count grows by their number. *)
Theorem init_queue_idempotent (q : queue) (ids more : list Z) :
  pk_queue q ->
  init_spec Main.init_queue q ids
  /\ init_spec TikiQueue.init_queue q ids
  /\ init_spec Main.init_queue (Main.init_queue q ids) (ids ++ more)
  /\ init_spec TikiQueue.init_queue (TikiQueue.init_queue q ids) (ids ++ more).
Proof.
  intros Hpk.
  pose proof (main_init_spec q ids Hpk) as Hm.
  pose proof (tq_init_spec q ids Hpk) as Ht.
  split; [exact Hm|]. split; [exact Ht|]. split.
  - apply main_init_spec. apply Hm.
  - apply tq_init_spec. apply Ht.
Qed.

Lemma init_queue_idempotent_witness :
  init_spec Main.init_queue [mk_qrow 1 "done" None] [1; 2]
  /\ init_spec TikiQueue.init_queue [mk_qrow 1 "done" None] [1; 2]
  /\ init_spec Main.init_queue (Main.init_queue [mk_qrow 1 "done" None] [1; 2])
       ([1; 2] ++ [3])
  /\ init_spec TikiQueue.init_queue (TikiQueue.init_queue [mk_qrow 1 "done" None] [1; 2])
       ([1; 2] ++ [3]).
Proof.
  apply (init_queue_idempotent [mk_qrow 1 "done" None] [1; 2] [3]).
  unfold pk_queue. simpl. repeat constructor. simpl. tauto.
Defined.

(** C7 as stated fails: initialising again with a superset of the ids
    changes the row count. *)
Lemma init_superset_adds_rows :
  List.length (Main.init_queue [] [1; 2]) = 2%nat
  /\ List.length (Main.init_queue (Main.init_queue [] [1; 2]) [1; 2; 3]) = 3%nat
  /\ List.length (TikiQueue.init_queue [] [1; 2]) = 2%nat
  /\ List.length (TikiQueue.init_queue (TikiQueue.init_queue [] [1; 2]) [1; 2; 3]) = 3%nat.
Proof. repeat split; reflexivity. Qed.

(** ** Error storage and queue status *)

Section ErrorRows.

Variable scrub : string -> string.
Variable completion_order : list Z -> list Z.
Hypothesis completion_order_perm : forall l, Permutation (completion_order l) l.

Lemma completed_in (batch : list Z) (id : Z) :
  In id (completion_order batch) <-> In id batch.
Proof.
  split; apply Permutation_in; [|symmetry]; apply completion_order_perm.
Qed.

Lemma status_is_unique (q : queue) (id : Z) (s1 s2 : string) :
  status_is q id s1 -> status_is q id s2 -> s1 = s2.
Proof.
  intros [r1 [H1 E1]] [r2 [H2 E2]]. congruence.
Qed.

Lemma status_is_has (q : queue) (id : Z) (st : string) :
  status_is q id st -> has_qrow q id = true.
Proof.
  intros [r [H _]]. apply has_qrow_find. eauto.
Qed.

Lemma status_is_append (q extra : queue) (id : Z) (st : string) :
  status_is q id st -> status_is (q ++ extra) id st.
Proof.
  intros [r [H E]]. exists r. rewrite find_qrow_app, H. auto.
Qed.

Lemma main_pk_batch (net : network) (s s' : db) (batch : list Z) :
  pk_queue (tiki_queue s) ->
  Main.run_batch scrub completion_order net s batch = Returned s' ->
  pk_queue (tiki_queue s').
Proof.
  intros Hpk Hrun. apply main_run_batch_inv in Hrun. destruct Hrun as [_ ->].
  unfold pk_queue. cbn [tiki_queue]. rewrite !main_update_ids. exact Hpk.
Qed.

Lemma main_reachable_pk (s : db) :
  main_reachable scrub completion_order s -> pk_queue (tiki_queue s).
Proof.
  induction 1 as [|s ids Hr IH|s s' net batch Hr IH Hincl Hrun].
  - constructor.
  - cbn [tiki_queue]. apply main_init_spec, IH.
  - eapply main_pk_batch; eauto.
Qed.

(** A batch of the first script leaves the queue row of an id outside
    the batch as it was. *)
Lemma main_batch_other (net : network) (s s' : db) (batch : list Z) (id : Z) :
  ~ In id batch ->
  Main.run_batch scrub completion_order net s batch = Returned s' ->
  find_qrow (tiki_queue s') id = find_qrow (tiki_queue s) id.
Proof.
  intros Hn Hrun. apply main_run_batch_inv in Hrun. destruct Hrun as [_ ->].
  cbn [tiki_queue].
  rewrite !main_update_other; [reflexivity| |];
    intros H; apply filter_In in H; destruct H as [H _];
    apply (proj1 (completed_in batch id)) in H; tauto.
Qed.

Lemma main_batch_marked (net : network) (s s' : db) (batch : list Z) :
  pk_queue (tiki_queue s) ->
  error_rows_marked s ->
  incl batch (Main.fetch_pending_ids (tiki_queue s)) ->
  Main.run_batch scrub completion_order net s batch = Returned s' ->
  error_rows_marked s'.
Proof.
  intros Hpk Hinv Hincl Hrun id Hrow.
  assert (Hpending : forall x, In x batch -> status_is (tiki_queue s) x "pending").
  { intros x Hx. apply (pending_selected (tiki_queue s) x Hpk), Hincl, Hx. }
  pose proof Hrun as Hrun'.
  apply main_run_batch_inv in Hrun'. destruct Hrun' as [_ Hs']. symmetry in Hs'.
  rewrite <- Hs' in Hrow. cbn [tiki_error] in Hrow.
  apply has_row_fold in Hrow. rewrite map_id_failure_rows in Hrow.
  destruct Hrow as [Hold|Hnew].
  - pose proof (Hinv id Hold) as Herr.
    assert (Hout : ~ In id batch).
    { intros Hin. pose proof (status_is_unique _ _ _ _ Herr (Hpending id Hin)).
      discriminate. }
    destruct Herr as [r [Hr Hst]]. exists r.
    rewrite (main_batch_other net s s' batch id Hout Hrun). auto.
  - rewrite <- Hs'. cbn [tiki_queue]. eexists. split.
    + apply main_update_in; [exact Hnew|].
      rewrite (has_qrow_same_ids (tiki_queue s)); [|apply main_update_ids].
      apply filter_In in Hnew. destruct Hnew as [Hin _].
      apply (proj1 (completed_in batch id)) in Hin.
      eapply status_is_has, Hpending, Hin.
    + reflexivity.
Qed.

Lemma tq_batch_marked (net : network) (s s' : db) (batch : list Z) :
  error_rows_marked_or_done s ->
  incl batch (TikiQueue.fetch_pending_or_error_ids (tiki_queue s)) ->
  TikiQueue.run_batch scrub completion_order net s batch = Returned s' ->
  error_rows_marked_or_done s'.
Proof.
  intros Hinv Hincl Hrun id Hrow.
  apply tq_run_batch_inv in Hrun. destruct Hrun as [Hst Hs']. symmetry in Hs'.
  destruct (tq_goods_values scrub net _ Hst) as [_ Hids].
  rewrite <- Hs' in Hrow. cbn [tiki_error] in Hrow. rewrite <- Hs'. cbn [tiki_queue].
  apply has_row_fold in Hrow. rewrite map_id_not_found_rows in Hrow.
  destruct (in_dec Z.eq_dec id (tq_error_ids scrub net (completion_order batch)))
    as [Hnew|Hnot].
  - left. eexists. split.
    + apply tq_update_in; [exact Hnew|].
      rewrite (has_qrow_same_ids (tiki_queue s)); [|apply tq_update_ids].
      apply filter_In in Hnew. destruct Hnew as [Hin _].
      apply (proj1 (completed_in batch id)) in Hin. apply Hincl in Hin.
      unfold TikiQueue.fetch_pending_or_error_ids in Hin.
      apply has_qrow_in. apply in_map_iff in Hin. destruct Hin as [r [Hid Hin]].
      apply filter_In in Hin. rewrite <- Hid. apply in_map. tauto.
    + reflexivity.
  - destruct Hrow as [Hold|Hnew]; [|tauto].
    unfold status_is. rewrite (tq_update_other _ _ _ _ _ Hnot).
    destruct (in_dec Z.eq_dec id (tq_good_ids scrub net (completion_order batch)))
      as [Hgood|Hother].
    + right. eexists. split; [apply tq_update_in; [exact Hgood|] | reflexivity].
      destruct (Hinv id Hold) as [H|H]; eapply status_is_has; eauto.
    + rewrite (tq_update_other _ _ _ _ _ Hother). apply Hinv, Hold.
Qed.

(** C9, as amended.  Between the batches of any number of runs of the
    first script, started on empty tables, every id with a row in error
    storage has the queue status 'error'.  The second script selects the
    ids in status 'error' again and never deletes an error row: there,
    every id with a row in error storage has the status 'error' or, once
    a later fetch of it has succeeded, 'done'. *)
Theorem error_rows_invariant (s : db) :
  (main_reachable scrub completion_order s -> error_rows_marked s)
  /\ (tq_reachable scrub completion_order s -> error_rows_marked_or_done s).
Proof.
  split.
  - induction 1 as [|s ids Hr IH|s s' net batch Hr IH Hincl Hrun].
    + intros id H. discriminate.
    + intros id H. cbn [tiki_error tiki_queue] in *.
      destruct (insert_pending_fold_app (dedup ids) (tiki_queue s)) as [extra [Heq _]].
      unfold Main.init_queue. rewrite Heq. apply status_is_append, IH, H.
    + eapply main_batch_marked; eauto. apply main_reachable_pk, Hr.
  - induction 1 as [|s ids Hr IH|s s' net batch Hr IH Hincl Hrun].
    + intros id H. discriminate.
    + intros id H. cbn [tiki_error tiki_queue] in *.
      destruct (insert_pending_fold_app ids (tiki_queue s)) as [extra [Heq _]].
      unfold TikiQueue.init_queue. rewrite Heq.
      destruct (IH id H) as [H'|H']; [left | right]; apply status_is_append, H'.
    + eapply tq_batch_marked; eauto.
Qed.

End ErrorRows.

Lemma error_rows_invariant_witness : error_rows_marked db_7_failed.
Proof.
  apply (proj1 (error_rows_invariant keep in_order
                  (fun l => Permutation_refl (in_order l)) db_7_failed)).
  apply (main_batch keep in_order db_7 db_7_failed net_404 [7]).
  - apply (main_init keep in_order empty_db [7]). apply main_start.
  - intros x Hx. exact Hx.
  - reflexivity.
Defined.

(** C9 as stated fails on the second script.  A first run gets a 404 for
    id 2: error row, status 'error'.  A second run selects id 2 again and
    gets a 200: the status becomes 'done' while the error row stays. *)
Lemma tiki_queue_error_row_outlives_retry :
  exists s1 s2,
    TikiQueue.main keep in_order net_404 [2] empty_db = Returned s1
    /\ TikiQueue.main keep in_order net_price_0 [2] s1 = Returned s2
    /\ has_row (tiki_error s2) 2 = true
    /\ find_qrow (tiki_queue s2) 2 = Some (mk_qrow 2 "done" None)
    /\ ~ error_rows_marked s2.
Proof.
  eexists. eexists.
  split; [vm_compute; reflexivity|]. split; [vm_compute; reflexivity|].
  split; [reflexivity|]. split; [reflexivity|].
  intros H. specialize (H 2 eq_refl). destruct H as [r [Hr Hs]].
  vm_compute in Hr. inversion Hr; subst r. discriminate.
Qed.

(** ** Runs of the scripts stay within the reachable states *)

Lemma firstn_plus {A : Type} (n k : nat) :
    forall l : list A, firstn (n + k) l = firstn n l ++ firstn k (skipn n l).
Proof.
    induction n as [|n IH]; intros l; [reflexivity|].
    destruct l as [|x l]; simpl.
    - rewrite firstn_nil. reflexivity.
    - rewrite IH. reflexivity.
Qed.

Lemma concat_slices {A : Type} (size : nat) (l : list A) (m : nat) :
    forall a,
      List.concat (map (fun i => slice l i size) (map (fun k => (k * size)%nat) (seq a m)))
      = firstn (m * size) (skipn (a * size) l).
Proof.
    induction m as [|m IH]; intros a; [reflexivity|].
    cbn [seq map List.concat]. rewrite IH. unfold slice.
    replace (S m * size)%nat with (size + m * size)%nat by lia.
    rewrite firstn_plus, skipn_skipn.
    replace (size + a * size)%nat with (S a * size)%nat by lia. reflexivity.
Qed.

(** The batches of the main loop cut the selected ids into consecutive
      slices: together they are the whole list, each id once. *)
Lemma concat_batches (size : nat) (ids : list Z) :
    (0 < size)%nat -> List.concat (batches size ids) = ids.
Proof.
    intros Hpos. unfold batches, range_step. rewrite concat_slices.
    cbn [Nat.mul skipn]. apply firstn_all2.
    pose proof (Nat.div_mod_eq (List.length ids + size - 1) size) as Hdm.
    pose proof (Nat.mod_upper_bound (List.length ids + size - 1) size) as Hub.
    nia.
Qed.

Lemma NoDup_app_disjoint {A : Type} (l1 l2 : list A) (x : A) :
    NoDup (l1 ++ l2) -> In x l1 -> In x l2 -> False.
Proof.
    induction l1 as [|y l1 IH]; simpl; intros Hnd H1 H2; [tauto|].
    inversion Hnd as [|z l Hnot Hnd']; subst.
    destruct H1 as [->|H1].
    - apply Hnot. apply in_or_app. auto.
    - apply IH; assumption.
Qed.

Lemma NoDup_selected (f : qrow -> bool) (q : queue) :
    pk_queue q -> NoDup (map q_id (filter f q)).
Proof.
    unfold pk_queue. induction q as [|r q IH]; simpl; intros H; [constructor|].
    inversion H as [|x l Hnot Hnd]; subst.
    destruct (f r); [|apply IH, Hnd].
    simpl. constructor; [|apply IH, Hnd].
    intros Hin. apply Hnot. apply in_map_iff in Hin. destruct Hin as [r' [Hid Hin]].
    apply filter_In in Hin. rewrite <- Hid. apply in_map. tauto.
Qed.

Section Runs.

Variable scrub : string -> string.
Variable completion_order : list Z -> list Z.
Hypothesis completion_order_perm : forall l, Permutation (completion_order l) l.

Lemma main_foldM_reachable (net : network) (bs : list (list Z)) :
  forall s s',
    main_reachable scrub completion_order s ->
    NoDup (List.concat bs) ->
    incl (List.concat bs) (Main.fetch_pending_ids (tiki_queue s)) ->
    foldM (Main.run_batch scrub completion_order net) bs s = Returned s' ->
    main_reachable scrub completion_order s'.
Proof.
  induction bs as [|b bs IH]; intros s s' Hr Hnd Hincl Hfold.
  - inversion Hfold. subst. exact Hr.
  - cbn [foldM List.concat] in *. apply bind_returned in Hfold.
    destruct Hfold as [s1 [Hrun Hfold]].
    assert (Hr1 : main_reachable scrub completion_order s1).
    { apply (main_batch scrub completion_order s s1 net b Hr); [|exact Hrun].
      intros x Hx. apply Hincl, in_or_app. auto. }
    apply (IH s1 s' Hr1); [eapply NoDup_app_remove_l; eauto| |exact Hfold].
    intros x Hx.
    pose proof (main_reachable_pk scrub completion_order s Hr) as Hpk.
    pose proof (main_reachable_pk scrub completion_order s1 Hr1) as Hpk1.
    apply (pending_selected (tiki_queue s1) x Hpk1).
    assert (Hp : status_is (tiki_queue s) x "pending").
    { apply (pending_selected (tiki_queue s) x Hpk), Hincl, in_or_app. auto. }
    unfold status_is.
    rewrite (main_batch_other scrub completion_order completion_order_perm net s s1 b x);
      [exact Hp| |exact Hrun].
    intros Hb. eapply NoDup_app_disjoint; eauto.
Qed.

(** A run of the first script from a reachable state ends in one. *)
Lemma main_run_reachable (net : network) (input : list Z) (s s' : db) :
  main_reachable scrub completion_order s ->
  Main.main scrub completion_order net input s = Returned s' ->
  main_reachable scrub completion_order s'.
Proof.
  intros Hr Hmain. unfold Main.main in Hmain.
  pose proof (main_init scrub completion_order s input Hr) as Hr1.
  eapply main_foldM_reachable; [exact Hr1| | |exact Hmain];
    rewrite concat_batches by (unfold BATCH_SIZE; lia).
  - apply NoDup_selected. apply (main_reachable_pk scrub completion_order _ Hr1).
  - apply incl_refl.
Qed.

Lemma tq_pk_batch (net : network) (s s' : db) (batch : list Z) :
  pk_queue (tiki_queue s) ->
  TikiQueue.run_batch scrub completion_order net s batch = Returned s' ->
  pk_queue (tiki_queue s').
Proof.
  intros Hpk Hrun.
  apply tq_run_batch_inv in Hrun. destruct Hrun as [_ ->].
  unfold pk_queue. cbn [tiki_queue]. rewrite !tq_update_ids. exact Hpk.
Qed.

Lemma tq_reachable_pk (s : db) :
  tq_reachable scrub completion_order s -> pk_queue (tiki_queue s).
Proof.
  induction 1 as [|s ids Hr IH|s s' net batch Hr IH Hincl Hrun].
  - constructor.
  - cbn [tiki_queue]. apply tq_init_spec, IH.
  - eapply tq_pk_batch; eauto.
Qed.

(** A batch of the second script leaves the queue row of an id outside
    the batch as it was. *)
Lemma tq_batch_other (net : network) (s s' : db) (batch : list Z) (id : Z) :
  ~ In id batch ->
  TikiQueue.run_batch scrub completion_order net s batch = Returned s' ->
  find_qrow (tiki_queue s') id = find_qrow (tiki_queue s) id.
Proof.
  intros Hn Hrun.
  apply tq_run_batch_inv in Hrun. destruct Hrun as [_ ->].
  cbn [tiki_queue].
  rewrite !tq_update_other; [reflexivity| |];
    intros H; apply filter_In in H; destruct H as [H _];
    apply (proj1 (completed_in completion_order completion_order_perm batch id)) in H;
    tauto.
Qed.

Lemma tq_foldM_reachable (net : network) (bs : list (list Z)) :
  forall s s',
    tq_reachable scrub completion_order s ->
    NoDup (List.concat bs) ->
    incl (List.concat bs) (TikiQueue.fetch_pending_or_error_ids (tiki_queue s)) ->
    foldM (TikiQueue.run_batch scrub completion_order net) bs s = Returned s' ->
    tq_reachable scrub completion_order s'.
Proof.
  induction bs as [|b bs IH]; intros s s' Hr Hnd Hincl Hfold.
  - inversion Hfold. subst. exact Hr.
  - cbn [foldM List.concat] in *. apply bind_returned in Hfold.
    destruct Hfold as [s1 [Hrun Hfold]].
    assert (Hr1 : tq_reachable scrub completion_order s1).
    { apply (tq_batch scrub completion_order s s1 net b Hr); [|exact Hrun].
      intros x Hx. apply Hincl, in_or_app. auto. }
    apply (IH s1 s' Hr1); [eapply NoDup_app_remove_l; eauto| |exact Hfold].
    intros x Hx.
    pose proof (tq_reachable_pk s Hr) as Hpk.
    pose proof (tq_reachable_pk s1 Hr1) as Hpk1.
    apply (pending_or_error_selected (tiki_queue s1) x Hpk1).
    assert (Hp : status_is (tiki_queue s) x "pending" \/ status_is (tiki_queue s) x "error").
    { apply (pending_or_error_selected (tiki_queue s) x Hpk), Hincl, in_or_app. auto. }
    unfold status_is.
    rewrite (tq_batch_other net s s1 b x); [exact Hp| |exact Hrun].
    intros Hb. eapply NoDup_app_disjoint; eauto.
Qed.

(** A run of the second script from a reachable state ends in one. *)
Lemma tq_run_reachable (net : network) (input : list Z) (s s' : db) :
  tq_reachable scrub completion_order s ->
  TikiQueue.main scrub completion_order net input s = Returned s' ->
  tq_reachable scrub completion_order s'.
Proof.
  intros Hr Hmain. unfold TikiQueue.main in Hmain.
  assert (Hr1 : tq_reachable scrub completion_order
                  (mk_db (if (List.length (tiki_queue s) =? 0)%nat
                          then TikiQueue.init_queue (tiki_queue s) (dedup input)
                          else tiki_queue s)
                     (tiki_product s) (tiki_error s))).
  { destruct (List.length (tiki_queue s) =? 0)%nat.
    - apply tq_init, Hr.
    - destruct s. exact Hr. }
  eapply tq_foldM_reachable; [exact Hr1| | |exact Hmain];
    rewrite concat_batches by (unfold BATCH_SIZE; lia).
  - apply NoDup_selected. apply (tq_reachable_pk _ Hr1).
  - apply incl_refl.
Qed.

End Runs.


(** * Further properties of the two scripts *)

(** ** Deduplication of the input ids *)

Lemma dedup_snoc (l : list Z) (x : Z) :
  dedup (l ++ [x]) = if existsb (Z.eqb x) l then dedup l else dedup l ++ [x].
Proof.
  unfold dedup at 1. rewrite fold_left_app. cbn [fold_left]. fold (dedup l).
  destruct (existsb (Z.eqb x) (dedup l)) eqn:E1; destruct (existsb (Z.eqb x) l) eqn:E2;
    try reflexivity.
  - apply (proj1 (existsb_eqb_in _ _)), (proj1 (dedup_in _ _)),
      (proj2 (existsb_eqb_in _ _)) in E1. congruence.
  - apply (proj1 (existsb_eqb_in _ _)), (proj2 (dedup_in _ _)),
      (proj2 (existsb_eqb_in _ _)) in E2. congruence.
Qed.

Lemma dedup_NoDup (l : list Z) : NoDup (dedup l).
Proof.
  induction l as [|x l IH] using rev_ind; [constructor|].
  rewrite dedup_snoc. destruct (existsb (Z.eqb x) l) eqn:E; [exact IH|].
  apply NoDup_app; [exact IH | repeat constructor; simpl; tauto|].
  intros a Ha [<-|[]].
  apply (proj1 (dedup_in _ _)), (proj2 (existsb_eqb_in _ _)) in Ha. congruence.
Qed.

Lemma dedup_fixed (l : list Z) : NoDup l -> dedup l = l.
Proof.
  induction l as [|x l IH] using rev_ind; intros Hnd; [reflexivity|].
  rewrite dedup_snoc.
  assert (Hl : NoDup l) by (eapply NoDup_app_remove_r; eauto).
  destruct (existsb (Z.eqb x) l) eqn:E.
  - apply existsb_eqb_in in E. exfalso.
    apply (NoDup_app_disjoint l [x] x Hnd E). simpl. auto.
  - rewrite (IH Hl). reflexivity.
Qed.

(** X1.  [list(dict.fromkeys(ids))] reads the ids from left to right and
    keeps an id only the first time it is met: the result has no
    duplicates and the same members as the input, it leaves a list
    without duplicates as it is, and doing it twice is doing it once. *)
Theorem dedup_first_occurrences (ids : list Z) (x : Z) :
  dedup (ids ++ [x]) = (if existsb (Z.eqb x) ids then dedup ids else dedup ids ++ [x])
  /\ NoDup (dedup ids)
  /\ (In x (dedup ids) <-> In x ids)
  /\ dedup (dedup ids) = dedup ids
  /\ (NoDup ids -> dedup ids = ids).
Proof.
  split; [apply dedup_snoc|]. split; [apply dedup_NoDup|].
  split; [apply dedup_in|]. split; [apply dedup_fixed, dedup_NoDup | apply dedup_fixed].
Qed.

(** ** The batches of a run *)

Lemma batches_eq (size : nat) (ids : list Z) :
  batches size ids
  = map (fun k => slice ids (k * size) size)
      (seq 0 ((List.length ids + size - 1) / size)).
Proof.
  unfold batches, range_step. apply map_map.
Qed.

Lemma batch_count_bound (size len k : nat) :
  (0 < size)%nat -> (k < (len + size - 1) / size)%nat -> (k * size < len)%nat.
Proof.
  intros Hpos Hk.
  pose proof (Nat.div_mod_eq (len + size - 1) size) as Hdm.
  pose proof (Nat.mod_upper_bound (len + size - 1) size) as Hub.
  nia.
Qed.

Lemma batch_full_bound (size len k : nat) :
  (0 < size)%nat -> (S k < (len + size - 1) / size)%nat -> (size <= len - k * size)%nat.
Proof.
  intros Hpos Hk.
  pose proof (Nat.div_mod_eq (len + size - 1) size) as Hdm.
  pose proof (Nat.mod_upper_bound (len + size - 1) size) as Hub.
  nia.
Qed.

(** X2.  The loop [for i in range(0, len(ids), size): ids[i:i+size]] cuts
    the selected ids into consecutive batches: put end to end the batches
    are the list itself, there are ceil(len/size) of them, none is empty
    or longer than [size], and every batch but the last has exactly
    [size] ids. *)
Theorem batches_partition (size : nat) (ids : list Z) :
  (0 < size)%nat ->
  List.concat (batches size ids) = ids
  /\ List.length (batches size ids) = ((List.length ids + size - 1) / size)%nat
  /\ Forall (fun b => (0 < List.length b <= size)%nat) (batches size ids)
  /\ (forall k b, nth_error (batches size ids) k = Some b ->
                  (S k < List.length (batches size ids))%nat ->
                  List.length b = size).
Proof.
  intros Hpos. split; [apply concat_batches, Hpos|].
  rewrite batches_eq, length_map, length_seq.
  split; [reflexivity|]. split.
  - apply Forall_forall. intros b Hb. apply in_map_iff in Hb.
    destruct Hb as [k [<- Hk]]. apply in_seq in Hk. unfold slice.
    rewrite length_firstn, length_skipn.
    pose proof (batch_count_bound size (List.length ids) k Hpos) as Hlt. lia.
  - intros k b Hnth Hk. rewrite nth_error_map in Hnth.
    rewrite nth_error_seq in Hnth.
    destruct (k <? (List.length ids + size - 1) / size)%nat eqn:E;
      [|discriminate].
    cbn in Hnth. inversion Hnth. unfold slice.
    rewrite length_firstn, length_skipn.
    pose proof (batch_full_bound size (List.length ids) k Hpos Hk). lia.
Qed.

Lemma batches_partition_witness :
  List.concat (batches 2 ids_1_5) = ids_1_5
  /\ List.length (batches 2 ids_1_5) = ((List.length ids_1_5 + 2 - 1) / 2)%nat
  /\ Forall (fun b => (0 < List.length b <= 2)%nat) (batches 2 ids_1_5)
  /\ (forall k b, nth_error (batches 2 ids_1_5) k = Some b ->
                  (S k < List.length (batches 2 ids_1_5))%nat ->
                  List.length b = 2%nat).
Proof.
  apply (batches_partition 2 ids_1_5). lia.
Defined.

(** ** Marking the queue *)

Lemma fold_update_row_any (status : string) (le : option string) (ids : list Z) :
  forall q,
    fold_left (fun q pid => update_row status le pid q) ids q
    = TikiQueue.update_any status le ids q.
Proof.
  unfold TikiQueue.update_any.
  induction ids as [|pid ids IH]; intros q; cbn [fold_left].
  - simpl. symmetry. apply map_id.
  - rewrite IH. unfold update_row. rewrite map_map. apply map_ext.
    intros r. cbn [existsb].
    destruct (q_id r =? pid); cbn [q_id orb]; [|reflexivity].
    destruct (existsb (Z.eqb (q_id r)) ids); reflexivity.
Qed.

Lemma update_any_nil (status : string) (le : option string) (q : queue) :
  TikiQueue.update_any status le [] q = q.
Proof. unfold TikiQueue.update_any. simpl. apply map_id. Qed.

(** X3.  [update_queue_status] computes the same queue in both scripts,
    whether by one UPDATE per id or by one UPDATE over [ANY(ids)]: every
    row whose id is listed gets the status, and the message as
    [last_error] (NULL when the message is absent or empty); every other
    row is left as it is; no row is added, removed or moved, so an id
    that the queue does not hold is silently ignored; and the empty list
    changes nothing. *)
Theorem update_queue_status_rows (q : queue) (ids : list Z) (status : string)
  (error_message : option string) :
  Main.update_queue_status q ids status error_message
  = map (fun r => if existsb (Z.eqb (q_id r)) ids
                  then mk_qrow (q_id r) status (stored_error error_message)
                  else r) q
  /\ TikiQueue.update_queue_status q ids status error_message
     = Main.update_queue_status q ids status error_message
  /\ map q_id (Main.update_queue_status q ids status error_message) = map q_id q
  /\ Main.update_queue_status q [] status error_message = q.
Proof.
  assert (Hm : Main.update_queue_status q ids status error_message
               = TikiQueue.update_any status (stored_error error_message) ids q).
  { unfold Main.update_queue_status, stored_error.
    destruct ids as [|i ids]; [symmetry; apply update_any_nil|].
    destruct error_message as [m|]; [destruct (m =? "")%string|];
      apply fold_update_row_any. }
  assert (Ht : TikiQueue.update_queue_status q ids status error_message
               = TikiQueue.update_any status (stored_error error_message) ids q).
  { unfold TikiQueue.update_queue_status, stored_error.
    destruct ids as [|i ids]; [symmetry; apply update_any_nil|].
    destruct error_message as [m|]; [destruct (m =? "")%string|]; reflexivity. }
  split; [exact Hm|]. split; [congruence|].
  split; [apply main_update_ids | reflexivity].
Qed.

(** ** Which bodies yield a record *)

Section Extraction.

Variable scrub : string -> string.

(** X4.  In the second script a 200 response yields a record exactly
    when its body decodes to a JSON object whose [name] and
    [description] are each falsy (absent, null, "", 0, false, empty) or a
    string, and whose [images] is falsy or a list starting with an
    object.  The record then holds the cleaned name and description (the
    empty string for a falsy one), [url_key] and [price] as they are
    (null when absent) and, as [image_url], the [base_url] of the first
    image (null without images or without that key).  In the first
    script the character class of [clean_text] does not compile, so
    [clean_text] raises on every non-empty string: a record is built
    exactly when, moreover, [name] and [description] are both falsy, and
    its name and description are the empty string.  Any other body
    raises a decoding error. *)
Theorem extract_cases (pid : Z) (body : option pyval) :
  (if extractable body
   then extract scrub TikiQueue.KEPT_CHARS pid body = Returned (tq_fields scrub pid body)
   else exists e, extract scrub TikiQueue.KEPT_CHARS pid body = Raised e
                  /\ decode_error e = true)
  /\ (if main_extractable body
      then extract scrub Main.KEPT_CHARS pid body = Returned (main_fields pid body)
      else exists e, extract scrub Main.KEPT_CHARS pid body = Raised e
                     /\ decode_error e = true)
  /\ (if main_extractable body then extractable body = true else True)
  /\ class_compiles TikiQueue.KEPT_CHARS = true
  /\ class_compiles Main.KEPT_CHARS = false.
Proof.
  split; [apply tq_extract_eval|]. split; [apply main_extract_eval|].
  split; [|split; reflexivity].
  destruct (main_extractable body) eqn:E; [|exact I].
  apply main_extractable_extractable, E.
Qed.

(** X5.  A body that cannot be turned into a record is handled like a
    failed connection.  When each of the first [n] requests for an id
    ends in an exception (transport failure, or a 200 whose body is not
    extractable), and, if attempts are left, the next response has a
    status other than 200 and the transient ones, the first script tries
    again at once, without any sleep, and ends with the all-null record;
    the second script sleeps [2 * attempt] seconds after each of them
    and ends with [None]. *)
Theorem broken_responses (net : network) (pid : Z) (rc : counter) (n : nat) :
  (n <= RETRIES)%nat ->
  (forall k, (k < n)%nat -> broken (net pid k) = true) ->
  (n < RETRIES -> other_status (net pid n) = true)%nat ->
  Main.fetch_product scrub net pid rc
  = (Returned (Main.failure_record pid, counter_set rc pid (counter_get rc pid + 1)),
     map EvRequest (seq 1 n) ++ last_request n)
  /\ TikiQueue.fetch_product scrub net pid
     = (Returned None, backoff n ++ last_request n).
Proof.
  intros Hn Hbr Hend. split.
  - unfold Main.fetch_product.
    assert (Hp : retry_loop (Main.attempt_step scrub net pid) (seq 0 RETRIES)
                 = (fst (retry_loop (Main.attempt_step scrub net pid) (seq n (RETRIES - n))),
                    map EvRequest (seq 1 n)
                    ++ snd (retry_loop (Main.attempt_step scrub net pid)
                              (seq n (RETRIES - n))))).
    { rewrite <- (requests_shift n 0 : _ = map EvRequest (seq 1 n)).
      apply (retry_loop_prefix _ (fun a0 => [EvRequest (a0 + 1)]) n 0%nat RETRIES Hn).
      intros k Hk. apply (main_step_broken scrub), Hbr, Hk. }
    rewrite Hp.
    rewrite (main_loop_end scrub net pid n (Returned Break) Hn); [reflexivity|].
    intros Hlt. split; [|discriminate]. apply main_step_break.
    rewrite (Hend Hlt). reflexivity.
  - unfold TikiQueue.fetch_product.
    assert (Hp : retry_loop (TikiQueue.attempt_step scrub net pid) (seq 1 RETRIES)
                 = (fst (retry_loop (TikiQueue.attempt_step scrub net pid)
                           (seq (1 + n) (RETRIES - n))),
                    backoff n
                    ++ snd (retry_loop (TikiQueue.attempt_step scrub net pid)
                              (seq (1 + n) (RETRIES - n))))).
    { unfold backoff.
      apply (retry_loop_prefix _ (fun a => [EvRequest a; EvSleep (2 * a)])); [exact Hn|].
      intros k Hk. apply (tq_step_broken scrub).
      replace (1 + k - 1)%nat with k by lia. apply Hbr, Hk. }
    rewrite Hp.
    rewrite (tq_loop_end scrub net pid n (Returned Break) Hn); [reflexivity|].
    intros Hlt. split; [|discriminate]. apply tq_step_break.
    replace (1 + n - 1)%nat with n by lia. apply Hend, Hlt.
Qed.

End Extraction.

Lemma broken_responses_witness :
  Main.fetch_product keep net_bad_name 7 []
  = (Returned (Main.failure_record 7, counter_set [] 7 (counter_get [] 7 + 1)),
     map EvRequest (seq 1 5) ++ last_request 5)
  /\ TikiQueue.fetch_product keep net_bad_name 7
     = (Returned None, backoff 5 ++ last_request 5).
Proof.
  apply (broken_responses keep net_bad_name 7 [] 5).
  - unfold RETRIES. lia.
  - intros k Hk. reflexivity.
  - unfold RETRIES. lia.
Defined.

(** ** A fetch that succeeds *)

Section Success.

Variable scrub : string -> string.
Variable completion_order : list Z -> list Z.

Lemma tq_good_rows_in (net : network) (l : list Z) (v : prow) :
  In v (tq_good_rows scrub net l) ->
  exists r, In (p_id v) l /\ tq_result scrub net (p_id v) = Returned (Some r)
            /\ values_of r = Returned v.
Proof.
  unfold tq_good_rows. intros H. apply in_flat_map in H.
  destruct H as [pid [Hin Hv]].
  destruct (tq_result_cases scrub net pid) as [[r [Hr Hrec]]|[Hr|Hr]];
    rewrite Hr in Hv; try (destruct Hv; fail).
  destruct (values_of r) as [v0|e] eqn:Hv0; [|destruct Hv].
  pose proof (product_record_values pid r v0 Hrec Hv0) as Hid.
  destruct Hv as [<-|[]]. subst pid. eauto.
Qed.

(** First script: an id whose fetch returns a record gets the status
    'done' without error message. *)
Lemma main_good_marked (net : network) (s s' : db) (batch : list Z) (pid : Z)
  (r : pydict) :
  In pid (completion_order batch) ->
  has_qrow (tiki_queue s) pid = true ->
  main_found scrub net pid = Some r ->
  Main.run_batch scrub completion_order net s batch = Returned s' ->
  find_qrow (tiki_queue s') pid = Some (mk_qrow pid "done" None).
Proof.
  intros Hin Hq Hf Hrun.
  apply main_run_batch_inv in Hrun. destruct Hrun as [_ ->]. cbn [tiki_queue].
  assert (Hg : In pid (main_good_ids scrub net (completion_order batch))).
  { apply filter_In. split; [exact Hin|]. rewrite Hf. reflexivity. }
  assert (He : ~ In pid (main_error_ids scrub net (completion_order batch))).
  { intros H. apply filter_In in H. rewrite Hf in H. destruct H; discriminate. }
  rewrite (main_update_other _ _ _ _ _ He).
  apply (main_update_in _ _ "done" None pid Hg Hq).
Qed.

(** Second script: an id whose fetch returns a record gets that record
    in [tiki_product], no row in [tiki_error], and the status 'done'
    without error message. *)
Lemma tq_good_routed (net : network) (s s' : db) (batch : list Z) (pid : Z)
  (r : pydict) :
  In pid (completion_order batch) ->
  has_qrow (tiki_queue s) pid = true ->
  tq_result scrub net pid = Returned (Some r) ->
  TikiQueue.run_batch scrub completion_order net s batch = Returned s' ->
  exists row,
    values_of r = Returned row
    /\ find_row (tiki_product s') pid = Some row
    /\ find_row (tiki_error s') pid = find_row (tiki_error s) pid
    /\ find_qrow (tiki_queue s') pid = Some (mk_qrow pid "done" None).
Proof.
  intros Hin Hq Hf Hrun.
  apply tq_run_batch_inv in Hrun. destruct Hrun as [Hst ->].
  assert (Hrec : product_record pid r).
  { destruct (tq_result_cases scrub net pid) as [[r' [Hr Hrec]]|[Hr|Hr]];
      rewrite Hr in Hf; inversion Hf; subst; exact Hrec. }
  assert (Hp : storable r = true).
  { unfold tq_batch_storable in Hst. rewrite forallb_forall in Hst.
    specialize (Hst pid Hin). unfold tq_id_storable in Hst.
    rewrite Hf in Hst. exact Hst. }
  destruct (storable_values r Hp) as [v Hv].
  pose proof (product_record_values pid r v Hrec Hv) as Hid.
  exists v. split; [exact Hv|]. cbn [tiki_product tiki_error tiki_queue].
  assert (Hg : In pid (tq_good_ids scrub net (completion_order batch))).
  { apply filter_In. split; [exact Hin|]. rewrite Hf. reflexivity. }
  assert (He : ~ In pid (tq_error_ids scrub net (completion_order batch))).
  { intros H. apply filter_In in H. rewrite Hf in H. destruct H; discriminate. }
  split; [|split].
  - rewrite <- Hid. apply find_row_fold_in.
    + unfold tq_good_rows. apply in_flat_map. exists pid.
      split; [exact Hin|]. rewrite Hf, Hv. left. reflexivity.
    + intros v' Hv' Hsame. apply tq_good_rows_in in Hv'.
      destruct Hv' as [r' [_ [Hf' Hv'']]].
      rewrite Hsame, Hid, Hf in Hf'. inversion Hf'; subst r'. congruence.
  - apply find_row_fold_other. rewrite map_id_not_found_rows. exact He.
  - rewrite (tq_update_other _ _ _ _ _ He).
    apply (tq_update_in _ _ "done" None pid Hg Hq).
Qed.

(** X6.  Let the response to request [n + 1] for an id be a 200 from
    whose body the script builds a record, each earlier request having
    been retried.  The script stops at that request and returns the
    record; the first script leaves [retry_counter] alone.  The batch,
    when the driver accepts its records, then writes the record to
    success storage, writes nothing to error storage for the id, and sets
    the status 'done' with [last_error] cleared. *)
Theorem success_after_retries (net : network) (s : db) (batch : list Z) (pid : Z)
  (rc : counter) (n : nat) (body : option pyval) :
  (n < RETRIES)%nat ->
  net pid n = Resp 200 body ->
  In pid (completion_order batch) ->
  has_qrow (tiki_queue s) pid = true ->
  ((forall k, (k < n)%nat -> main_retried (net pid k) = true) ->
   main_extractable body = true ->
   Main.fetch_product scrub net pid rc
   = (Returned (with_missing Main.is_missing (main_fields pid body), rc),
      main_retries net pid n ++ [EvRequest (n + 1)])
   /\ (main_batch_storable scrub net (completion_order batch) = true ->
       exists s' row,
         Main.run_batch scrub completion_order net s batch = Returned s'
         /\ values_of (with_missing Main.is_missing (main_fields pid body)) = Returned row
         /\ find_row (tiki_product s') pid = Some row
         /\ find_row (tiki_error s') pid = find_row (tiki_error s) pid
         /\ find_qrow (tiki_queue s') pid = Some (mk_qrow pid "done" None)))
  /\ ((forall k, (k < n)%nat -> tq_retried (net pid k) = true) ->
      extractable body = true ->
      TikiQueue.fetch_product scrub net pid
      = (Returned (Some (with_missing TikiQueue.is_missing (tq_fields scrub pid body))),
         backoff n ++ [EvRequest (n + 1)])
      /\ (tq_batch_storable scrub net (completion_order batch) = true ->
          exists s' row,
            TikiQueue.run_batch scrub completion_order net s batch = Returned s'
            /\ values_of (with_missing TikiQueue.is_missing (tq_fields scrub pid body))
               = Returned row
            /\ find_row (tiki_product s') pid = Some row
            /\ find_row (tiki_error s') pid = find_row (tiki_error s) pid
            /\ find_qrow (tiki_queue s') pid = Some (mk_qrow pid "done" None))).
Proof.
  intros Hn H200 Hin Hq. split.
  - intros Htr Hx.
    pose proof (main_fetch_found scrub net pid rc n body Hn Htr H200 Hx) as Hm.
    split; [exact Hm|]. intros Hst.
    assert (Hf : main_found scrub net pid
                 = Some (with_missing Main.is_missing (main_fields pid body))).
    { eapply main_found_of_record; [|exact Hm].
      pose proof (main_extract_eval scrub pid body) as He. rewrite Hx in He.
      apply (normalize_shape scrub Main.KEPT_CHARS Main.is_missing pid body).
      unfold normalize. rewrite He. reflexivity. }
    destruct (main_run_batch_ok scrub completion_order net s batch Hst) as [s' Hrun].
    destruct (main_good_routed scrub completion_order net s s' batch pid _ Hin Hf Hrun)
      as [row [Hv [Hp He]]].
    exists s', row. split; [exact Hrun|]. split; [exact Hv|].
    split; [exact Hp|]. split; [exact He|].
    eapply main_good_marked; eauto.
  - intros Htr Hx.
    pose proof (tq_fetch_found scrub net pid n body Hn Htr H200 Hx) as Ht.
    split; [exact Ht|]. intros Hst.
    destruct (tq_run_batch_ok scrub completion_order net s batch Hst) as [s' Hrun].
    destruct (tq_good_routed net s s' batch pid _ Hin Hq
                (f_equal fst Ht) Hrun) as [row H].
    exists s', row. split; [exact Hrun | exact H].
Qed.

End Success.

Lemma success_after_retries_witness :
  (Main.fetch_product keep net_503_then_unnamed 7 []
   = (Returned (with_missing Main.is_missing
                  (main_fields 7 (Some payload_unnamed_price_0)), []),
      main_retries net_503_then_unnamed 7 3 ++ [EvRequest (3 + 1)])
   /\ exists s' row,
        Main.run_batch keep in_order net_503_then_unnamed db_7 [7] = Returned s'
        /\ values_of (with_missing Main.is_missing
                        (main_fields 7 (Some payload_unnamed_price_0))) = Returned row
        /\ find_row (tiki_product s') 7 = Some row
        /\ find_row (tiki_error s') 7 = find_row (tiki_error db_7) 7
        /\ find_qrow (tiki_queue s') 7 = Some (mk_qrow 7 "done" None))
  /\ (TikiQueue.fetch_product keep net_503_then_ok 7
      = (Returned (Some (with_missing TikiQueue.is_missing
                           (tq_fields keep 7 (Some payload_price_0)))),
         backoff 3 ++ [EvRequest (3 + 1)])
      /\ exists s' row,
           TikiQueue.run_batch keep in_order net_503_then_ok db_7 [7] = Returned s'
           /\ values_of (with_missing TikiQueue.is_missing
                           (tq_fields keep 7 (Some payload_price_0))) = Returned row
           /\ find_row (tiki_product s') 7 = Some row
           /\ find_row (tiki_error s') 7 = find_row (tiki_error db_7) 7
           /\ find_qrow (tiki_queue s') 7 = Some (mk_qrow 7 "done" None)).
Proof.
  split.
  - destruct (proj1 (success_after_retries keep in_order net_503_then_unnamed db_7 [7] 7
                       [] 3 (Some payload_unnamed_price_0)
                       ltac:(unfold RETRIES; lia) eq_refl (or_introl eq_refl) eq_refl))
      as [Hf Hb].
    + intros k Hk. destruct k as [|[|[|k]]]; [reflexivity | reflexivity | reflexivity | lia].
    + reflexivity.
    + split; [exact Hf | apply Hb; reflexivity].
  - destruct (proj2 (success_after_retries keep in_order net_503_then_ok db_7 [7] 7
                       [] 3 (Some payload_price_0)
                       ltac:(unfold RETRIES; lia) eq_refl (or_introl eq_refl) eq_refl))
      as [Hf Hb].
    + intros k Hk. destruct k as [|[|[|k]]]; [reflexivity | reflexivity | reflexivity | lia].
    + reflexivity.
    + split; [exact Hf | apply Hb; reflexivity].
Defined.

(** ** What [process_batch] of the first script returns *)

Lemma counter_get_replace (rc : counter) (pid pid' : Z) (n : nat) :
  counter_get (map (fun kv => if fst kv =? pid then (pid, n) else kv) rc) pid'
  = if pid' =? pid
    then (if existsb (fun kv => fst kv =? pid) rc then n else 0%nat)
    else counter_get rc pid'.
Proof.
  unfold counter_get. induction rc as [|kv rc IH]; cbn [map find existsb].
  - destruct (pid' =? pid); reflexivity.
  - destruct (fst kv =? pid) eqn:E1; cbn [fst snd orb].
    + apply Z.eqb_eq in E1. destruct (pid =? pid') eqn:E2.
      * apply Z.eqb_eq in E2. subst pid'. rewrite Z.eqb_refl. reflexivity.
      * rewrite IH. rewrite (Z.eqb_sym pid' pid), E2, E1, E2. reflexivity.
    + destruct (fst kv =? pid') eqn:E2.
      * apply Z.eqb_eq in E2. subst pid'. rewrite E1. reflexivity.
      * exact IH.
Qed.

Lemma counter_get_append (rc : counter) (pid pid' : Z) (n : nat) :
  existsb (fun kv => fst kv =? pid) rc = false ->
  counter_get (rc ++ [(pid, n)]) pid'
  = if pid' =? pid then n else counter_get rc pid'.
Proof.
  unfold counter_get. induction rc as [|kv rc IH]; cbn [app find existsb]; intros Ex.
  - cbn [fst snd]. rewrite (Z.eqb_sym pid pid'). destruct (pid' =? pid); reflexivity.
  - apply orb_false_iff in Ex. destruct Ex as [E1 Ex].
    destruct (fst kv =? pid') eqn:E2.
    + apply Z.eqb_eq in E2. subst pid'. rewrite E1. reflexivity.
    + apply (IH Ex).
Qed.

Lemma counter_get_set (rc : counter) (pid pid' : Z) (n : nat) :
  counter_get (counter_set rc pid n) pid'
  = if pid' =? pid then n else counter_get rc pid'.
Proof.
  unfold counter_set. destruct (existsb (fun kv => fst kv =? pid) rc) eqn:Ex.
  - rewrite counter_get_replace, Ex. reflexivity.
  - apply counter_get_append, Ex.
Qed.

Lemma counter_get_bumps (ids : list Z) (pid : Z) :
  forall rc, counter_get (fold_left bump ids rc) pid
             = (counter_get rc pid + count_occ Z.eq_dec ids pid)%nat.
Proof.
  induction ids as [|x ids IH]; intros rc; cbn [fold_left count_occ]; [lia|].
  rewrite IH. unfold bump. rewrite counter_get_set.
  destruct (Z.eq_dec x pid) as [->|Hne].
  - rewrite Z.eqb_refl. lia.
  - destruct (pid =? x) eqn:E; [apply Z.eqb_eq in E; congruence | lia].
Qed.

Lemma filter_split_perm {A : Type} (f : A -> bool) (l : list A) :
  Permutation (filter f l ++ filter (fun x => negb (f x)) l) l.
Proof.
  induction l as [|x l IH]; [constructor|].
  cbn [filter]. destruct (f x); cbn [negb app].
  - constructor. exact IH.
  - apply Permutation_sym, Permutation_cons_app, Permutation_sym, IH.
Qed.

Section ProcessBatch.

Variable scrub : string -> string.
Variable net : network.

Lemma main_process_loop_counter (l : list Z) :
  forall good error rc,
    Main.process_loop scrub net l good error rc =
    Returned (good ++ main_goods scrub net l,
              error ++ map Main.failure_record (main_error_ids scrub net l),
              fold_left bump (main_error_ids scrub net l) rc).
Proof.
  induction l as [|pid l IH]; intros good error rc.
  - simpl. rewrite !app_nil_r. reflexivity.
  - cbn [Main.process_loop]. rewrite main_fetch_product_eq.
    unfold main_goods, main_error_ids. cbn [bind filter flat_map].
    destruct (main_found scrub net pid) as [r|] eqn:Ef; cbn [fst snd is_some negb].
    + rewrite (product_record_not_empty pid r) by (eapply main_found_record; eauto).
      cbn [bind]. rewrite IH. rewrite <- app_assoc. reflexivity.
    + rewrite failure_record_empty. cbn [bind]. rewrite IH.
      cbn [map fold_left]. rewrite <- app_assoc. reflexivity.
Qed.

Lemma main_goods_length (l : list Z) :
  List.length (main_goods scrub net l) = List.length (main_good_ids scrub net l).
Proof.
  unfold main_goods, main_good_ids.
  induction l as [|pid l IH]; [reflexivity|]. cbn [flat_map filter].
  destruct (main_found scrub net pid); cbn [is_some app List.length]; lia.
Qed.

(** X7.  [process_batch] of the first script returns exactly one record
    for every id of the batch: in [good_records] the records of the ids
    whose fetch produced one, in [error_records] the all-null records of
    the others, each list in completion order, so the two counts add up
    to the size of the batch.  [retry_counter] holds for every id the
    number of its failed fetches in the batch: 1 for a failed id that
    occurs once, 0 for an id that did not fail. *)
Theorem process_batch_partition (completed : list Z) :
  Main.process_batch scrub net completed
  = Returned (main_goods scrub net completed,
              map Main.failure_record (main_error_ids scrub net completed),
              fold_left bump (main_error_ids scrub net completed) [])
  /\ ids_of (main_goods scrub net completed)
     = Returned (main_good_ids scrub net completed)
  /\ ids_of (map Main.failure_record (main_error_ids scrub net completed))
     = Returned (main_error_ids scrub net completed)
  /\ Permutation
       (main_good_ids scrub net completed ++ main_error_ids scrub net completed)
       completed
  /\ (List.length (main_goods scrub net completed)
      + List.length (map Main.failure_record (main_error_ids scrub net completed))
      = List.length completed)%nat
  /\ (forall pid,
         counter_get (fold_left bump (main_error_ids scrub net completed) []) pid
         = count_occ Z.eq_dec (main_error_ids scrub net completed) pid).
Proof.
  pose proof (filter_split_perm (fun pid => is_some (main_found scrub net pid)) completed)
    as Hperm.
  split; [apply (main_process_loop_counter completed [] [] [])|].
  split; [apply main_goods_ids|]. split; [apply failure_records_ids|].
  split; [exact Hperm|]. split.
  - rewrite main_goods_length, length_map.
    apply Permutation_length in Hperm. rewrite length_app in Hperm. exact Hperm.
  - intros pid. rewrite counter_get_bumps. reflexivity.
Qed.

End ProcessBatch.

(** ** A loop of batches *)

(** A loop over batches, for any loop body that rewrites the queue row of
    the ids of its batch and nothing else in the queue. *)
Section BatchLoop.

Variable step : db -> list Z -> outcome db.
Variable after : Z -> option qrow -> option qrow.

Hypothesis step_other :
  forall s s' b id, ~ In id b -> step s b = Returned s' ->
                    find_qrow (tiki_queue s') id = find_qrow (tiki_queue s) id.
Hypothesis step_ids :
  forall s s' b, step s b = Returned s' ->
                 map q_id (tiki_queue s') = map q_id (tiki_queue s).
Hypothesis step_row :
  forall s s' b id, In id b -> has_qrow (tiki_queue s) id = true ->
                    step s b = Returned s' ->
                    find_qrow (tiki_queue s') id = after id (find_qrow (tiki_queue s) id).
Hypothesis step_tables :
  forall s s' b id, ~ In id b -> step s b = Returned s' ->
                    find_row (tiki_product s') id = find_row (tiki_product s) id
                    /\ find_row (tiki_error s') id = find_row (tiki_error s) id.

Lemma loop_ids (bs : list (list Z)) :
  forall s s', foldM step bs s = Returned s' ->
               map q_id (tiki_queue s') = map q_id (tiki_queue s).
Proof.
  induction bs as [|b bs IH]; intros s s' H; cbn [foldM] in H.
  - inversion H. reflexivity.
  - apply bind_returned in H. destruct H as [s1 [H1 H]].
    rewrite (IH _ _ H). eapply step_ids; eauto.
Qed.

Lemma loop_other (bs : list (list Z)) (id : Z) :
  forall s s', ~ In id (List.concat bs) -> foldM step bs s = Returned s' ->
               find_qrow (tiki_queue s') id = find_qrow (tiki_queue s) id
               /\ find_row (tiki_product s') id = find_row (tiki_product s) id
               /\ find_row (tiki_error s') id = find_row (tiki_error s) id.
Proof.
  induction bs as [|b bs IH]; intros s s' Hn H; cbn [foldM List.concat] in *.
  - inversion H. auto.
  - apply bind_returned in H. destruct H as [s1 [H1 H]].
    rewrite in_app_iff in Hn.
    destruct (IH s1 s') as [Hq [Hp He]]; [tauto | exact H|].
    destruct (step_tables s s1 b id) as [Hp1 He1]; [tauto | exact H1|].
    rewrite Hq, Hp, He, Hp1, He1.
    rewrite (step_other s s1 b id); [auto | tauto | exact H1].
Qed.

Lemma loop_row (bs : list (list Z)) (id : Z) :
  forall s s', NoDup (List.concat bs) -> In id (List.concat bs) ->
               has_qrow (tiki_queue s) id = true ->
               foldM step bs s = Returned s' ->
               find_qrow (tiki_queue s') id = after id (find_qrow (tiki_queue s) id).
Proof.
  induction bs as [|b bs IH]; intros s s' Hnd Hin Hh H; cbn [foldM List.concat] in *.
  - destruct Hin.
  - apply bind_returned in H. destruct H as [s1 [H1 H]].
    apply in_app_iff in Hin. destruct Hin as [Hb|Hbs].
    + assert (Hn : ~ In id (List.concat bs)).
      { intros Hc. eapply NoDup_app_disjoint; eauto. }
      destruct (loop_other bs id s1 s' Hn H) as [Hq _]. rewrite Hq.
      eapply step_row; eauto.
    + assert (Hn : ~ In id b).
      { intros Hc. eapply NoDup_app_disjoint; eauto. }
      rewrite <- (step_other s s1 b id Hn H1).
      apply IH; [eapply NoDup_app_remove_l; eauto | exact Hbs | | exact H].
      rewrite (has_qrow_same_ids (tiki_queue s)); [exact Hh|].
      eapply step_ids; eauto.
Qed.

End BatchLoop.

Lemma foldM_returns {A B : Type} (f : A -> B -> outcome A) (l : list B) :
  (forall a b, In b l -> exists a', f a b = Returned a') ->
  forall a, exists a', foldM f l a = Returned a'.
Proof.
  induction l as [|b l IH]; intros Hf a; cbn [foldM].
  - eauto.
  - destruct (Hf a b (or_introl eq_refl)) as [a1 H1]. rewrite H1. cbn [bind].
    apply IH. intros a0 b0 Hb0. apply Hf. right. exact Hb0.
Qed.

(** The ids of a batch are ids of the list that was cut into batches. *)
Lemma batch_incl (size : nat) (ids b : list Z) :
  (0 < size)%nat -> In b (batches size ids) -> incl b ids.
Proof.
  intros Hpos Hb x Hx. rewrite <- (concat_batches size ids Hpos).
  apply in_concat. exists b. auto.
Qed.

Lemma no_member_nil {A : Type} (l : list A) : (forall x, ~ In x l) -> l = [].
Proof.
  destruct l as [|x l]; [reflexivity|]. intros H. exfalso. apply (H x). left. reflexivity.
Qed.

(** ** What a run of the first script leaves *)

Section MainRun.

Variable scrub : string -> string.
Variable completion_order : list Z -> list Z.
Hypothesis completion_order_perm : forall l, Permutation (completion_order l) l.
Variable net : network.

Lemma main_step_ids (s s' : db) (b : list Z) :
  Main.run_batch scrub completion_order net s b = Returned s' ->
  map q_id (tiki_queue s') = map q_id (tiki_queue s).
Proof.
  intros H. apply main_run_batch_inv in H. destruct H as [_ ->].
  cbn [tiki_queue]. rewrite !main_update_ids. reflexivity.
Qed.

Lemma main_step_row (s s' : db) (b : list Z) (id : Z) :
  In id b -> has_qrow (tiki_queue s) id = true ->
  Main.run_batch scrub completion_order net s b = Returned s' ->
  find_qrow (tiki_queue s') id = Some (main_row_after scrub net id).
Proof.
  intros Hin Hh Hrun. unfold main_row_after.
  assert (Hin' : In id (completion_order b)).
  { apply (completed_in completion_order completion_order_perm), Hin. }
  destruct (main_found scrub net id) as [r|] eqn:Ef; cbn [is_some].
  - apply (main_good_marked scrub completion_order net s s' b id r Hin' Hh Ef Hrun).
  - apply (main_failure_routed scrub completion_order net s s' b id Hin' Hh Ef Hrun).
Qed.

Lemma main_step_tables (s s' : db) (b : list Z) (id : Z) :
  ~ In id b ->
  Main.run_batch scrub completion_order net s b = Returned s' ->
  find_row (tiki_product s') id = find_row (tiki_product s) id
  /\ find_row (tiki_error s') id = find_row (tiki_error s) id.
Proof.
  intros Hn H. apply main_run_batch_inv in H. destruct H as [Hst ->].
  cbn [tiki_product tiki_error].
  destruct (main_goods_values scrub net (completion_order b) Hst) as [_ Hids].
  split; apply find_row_fold_other.
  - rewrite Hids. intros Hc. apply filter_In in Hc. destruct Hc as [Hc _].
    apply (proj1 (completed_in completion_order completion_order_perm b id)) in Hc.
    tauto.
  - rewrite map_id_failure_rows. intros Hc. apply filter_In in Hc.
    destruct Hc as [Hc _].
    apply (proj1 (completed_in completion_order completion_order_perm b id)) in Hc.
    tauto.
Qed.

(** The driver accepts the records of a batch when it accepts what the
    ids of the batch give, in whatever order the fetches complete. *)
Lemma main_storable_incl (l b : list Z) :
  main_batch_storable scrub net l = true ->
  incl b l ->
  main_batch_storable scrub net (completion_order b) = true.
Proof.
  unfold main_batch_storable. rewrite !forallb_forall. intros Hl Hb x Hx.
  apply Hl, Hb. apply (completed_in completion_order completion_order_perm), Hx.
Qed.

(** The loop of batches completes when the driver accepts the records of
    the ids selected. *)
Lemma main_run_returns (ids : list Z) (s : db) :
  main_batch_storable scrub net ids = true ->
  exists s',
    foldM (Main.run_batch scrub completion_order net) (batches BATCH_SIZE ids) s
    = Returned s'.
Proof.
  intros Hst. apply foldM_returns. intros a b Hb.
  apply main_run_batch_ok. apply (main_storable_incl ids b Hst).
  apply (batch_incl BATCH_SIZE); [unfold BATCH_SIZE; lia | exact Hb].
Qed.

Lemma main_row_after_status (id : Z) :
  q_status (main_row_after scrub net id) = "done"
  \/ q_status (main_row_after scrub net id) = "error".
Proof.
  unfold main_row_after. destruct (is_some (main_found scrub net id)); auto.
Qed.

(** X8.  A run of the first script, on a queue whose primary key is
    unique and for ids whose records the driver accepts, completes and
    drains the queue: every id of the input file is in the queue; every
    id that was 'pending' after initialisation is now 'done' (its fetch
    produced a record) or 'error' with the reason "Failed after
    retries"; and no id is left 'pending', so a second run right after it
    fetches nothing. *)
Theorem main_run_drains (input : list Z) (s : db) :
  pk_queue (tiki_queue s) ->
  main_batch_storable scrub net
    (Main.fetch_pending_ids (Main.init_queue (tiki_queue s) input)) = true ->
  exists s',
    Main.main scrub completion_order net input s = Returned s'
    /\ (forall id, In id input -> has_qrow (tiki_queue s') id = true)
    /\ (forall id, status_is (Main.init_queue (tiki_queue s) input) id "pending" ->
                   find_qrow (tiki_queue s') id = Some (main_row_after scrub net id))
    /\ Main.fetch_pending_ids (tiki_queue s') = [].
Proof.
  intros Hpk Hst. unfold Main.main.
  set (q1 := Main.init_queue (tiki_queue s) input) in *.
  set (s1 := mk_db q1 (tiki_product s) (tiki_error s)).
  set (bs := batches BATCH_SIZE (Main.fetch_pending_ids q1)).
  destruct (main_run_returns (Main.fetch_pending_ids q1) s1 Hst) as [s' Hrun].
  fold bs in Hrun. exists s'.
  split; [exact Hrun|].
  destruct (main_init_spec (tiki_queue s) input Hpk) as [_ [Hall [_ Hpk1]]].
  fold q1 in Hall, Hpk1.
  assert (Hcat : List.concat bs = Main.fetch_pending_ids q1).
  { apply concat_batches. unfold BATCH_SIZE. lia. }
  assert (Hids : map q_id (tiki_queue s') = map q_id q1).
  { apply (loop_ids (Main.run_batch scrub completion_order net) main_step_ids bs s1 s' Hrun). }
  assert (Hrow : forall id, status_is q1 id "pending" ->
                            find_qrow (tiki_queue s') id
                            = Some (main_row_after scrub net id)).
  { intros id Hp.
    apply (loop_row (Main.run_batch scrub completion_order net)
             (fun id _ => Some (main_row_after scrub net id))
             (main_batch_other scrub completion_order completion_order_perm net)
             main_step_ids
             (fun s0 s0' b id0 H1 H2 H3 => main_step_row s0 s0' b id0 H1 H2 H3)
             main_step_tables bs id s1 s').
    - rewrite Hcat. apply NoDup_selected, Hpk1.
    - rewrite Hcat. apply (pending_selected q1 id Hpk1), Hp.
    - eapply status_is_has; eauto.
    - exact Hrun. }
  split; [|split; [exact Hrow|]].
  - intros id Hin. rewrite (has_qrow_same_ids q1 _ id Hids).
    rewrite Forall_forall in Hall. apply Hall, Hin.
  - apply no_member_nil. intros id Hin.
    assert (Hpk' : pk_queue (tiki_queue s')) by (unfold pk_queue; rewrite Hids; exact Hpk1).
    apply (pending_selected _ id Hpk') in Hin.
    destruct (in_dec Z.eq_dec id (Main.fetch_pending_ids q1)) as [Hp|Hnp].
    + apply (pending_selected q1 id Hpk1) in Hp.
      destruct Hin as [r [Hr Hst']]. rewrite (Hrow id Hp) in Hr. inversion Hr; subst r.
      destruct (main_row_after_status id) as [H|H]; rewrite H in Hst'; discriminate.
    + rewrite <- Hcat in Hnp.
      destruct (loop_other (Main.run_batch scrub completion_order net)
                  (main_batch_other scrub completion_order completion_order_perm net)
                  main_step_tables bs id s1 s' Hnp Hrun) as [Hq _].
      unfold status_is in Hin. rewrite Hq in Hin. cbn [s1 tiki_queue] in Hin.
      apply (pending_selected q1 id Hpk1) in Hin. rewrite Hcat in Hnp. tauto.
Qed.

(** First script: a run leaves alone every id whose status is not
    'pending'. *)
Lemma main_settled_untouched (input : list Z) (s s' : db) (id : Z) (st : string) :
  pk_queue (tiki_queue s) ->
  status_is (tiki_queue s) id st ->
  st <> "pending" ->
  Main.main scrub completion_order net input s = Returned s' ->
  find_qrow (tiki_queue s') id = find_qrow (tiki_queue s) id
  /\ find_row (tiki_product s') id = find_row (tiki_product s) id
  /\ find_row (tiki_error s') id = find_row (tiki_error s) id.
Proof.
  intros Hpk Hst Hne Hrun. unfold Main.main in Hrun.
  set (q1 := Main.init_queue (tiki_queue s) input) in *.
  destruct (main_init_spec (tiki_queue s) input Hpk) as [[extra [Heq _]] [_ [_ Hpk1]]].
  fold q1 in Heq, Hpk1.
  assert (Hst1 : status_is q1 id st) by (rewrite Heq; apply status_is_append, Hst).
  assert (Hfind : find_qrow q1 id = find_qrow (tiki_queue s) id).
  { destruct Hst as [r [Hr _]]. rewrite Heq, find_qrow_app, Hr. reflexivity. }
  assert (Hn : ~ In id (List.concat (batches BATCH_SIZE (Main.fetch_pending_ids q1)))).
  { rewrite concat_batches by (unfold BATCH_SIZE; lia). intros Hin.
    apply (pending_selected q1 id Hpk1) in Hin.
    apply Hne. eapply status_is_unique; eauto. }
  destruct (loop_other (Main.run_batch scrub completion_order net)
              (main_batch_other scrub completion_order completion_order_perm net)
              main_step_tables _ id _ s' Hn Hrun) as [Hq [Hp He]].
  cbn [tiki_queue tiki_product tiki_error] in *. rewrite Hq, Hfind. auto.
Qed.

End MainRun.

(** ** What a run of the second script leaves *)

Lemma insert_pending_fold_fresh (ids : list Z) :
  forall q, NoDup ids -> (forall id, In id ids -> has_qrow q id = false) ->
            map q_id (fold_left insert_pending ids q) = map q_id q ++ ids.
Proof.
  induction ids as [|pid ids IH]; intros q Hnd Hfresh; cbn [fold_left].
  - rewrite app_nil_r. reflexivity.
  - inversion Hnd as [|x l Hnot Hnd']; subst.
    unfold insert_pending at 2. rewrite (Hfresh pid) by (left; reflexivity).
    rewrite IH; [rewrite map_app, <- app_assoc; reflexivity | exact Hnd'|].
    intros id Hin. rewrite has_qrow_app, (Hfresh id) by (right; exact Hin).
    simpl. rewrite orb_false_r. apply Z.eqb_neq. intros ->. tauto.
Qed.

Section TikiQueueRun.

Variable scrub : string -> string.
Variable completion_order : list Z -> list Z.
Hypothesis completion_order_perm : forall l, Permutation (completion_order l) l.
Variable net : network.

Lemma tq_step_ids (s s' : db) (b : list Z) :
  TikiQueue.run_batch scrub completion_order net s b = Returned s' ->
  map q_id (tiki_queue s') = map q_id (tiki_queue s).
Proof. apply tq_batch_ids. Qed.

Lemma tq_step_row (s s' : db) (b : list Z) (id : Z) :
  In id b -> has_qrow (tiki_queue s) id = true ->
  TikiQueue.run_batch scrub completion_order net s b = Returned s' ->
  find_qrow (tiki_queue s') id = tq_row_after scrub net id (find_qrow (tiki_queue s) id).
Proof.
  intros Hin Hh Hrun. unfold tq_row_after.
  assert (Hin' : In id (completion_order b)).
  { apply (completed_in completion_order completion_order_perm), Hin. }
  destruct (tq_result_cases scrub net id) as [[r [Hr Hrec]]|[Hr|Hr]]; rewrite Hr.
  - destruct (tq_good_routed scrub completion_order net s s' b id r Hin' Hh Hr Hrun)
      as [row [_ [_ [_ Hq]]]].
    exact Hq.
  - apply (tq_exhausted_untouched scrub completion_order net s s' b id Hr Hrun).
  - apply (tq_not_found_routed scrub completion_order net s s' b id Hin' Hh Hr Hrun).
Qed.

Lemma tq_step_tables (s s' : db) (b : list Z) (id : Z) :
  ~ In id b ->
  TikiQueue.run_batch scrub completion_order net s b = Returned s' ->
  find_row (tiki_product s') id = find_row (tiki_product s) id
  /\ find_row (tiki_error s') id = find_row (tiki_error s) id.
Proof.
  intros Hn H. apply tq_run_batch_inv in H. destruct H as [Hst ->].
  cbn [tiki_product tiki_error].
  destruct (tq_goods_values scrub net (completion_order b) Hst) as [_ Hids].
  split; apply find_row_fold_other.
  - rewrite Hids. intros Hc. apply filter_In in Hc. destruct Hc as [Hc _].
    apply (proj1 (completed_in completion_order completion_order_perm b id)) in Hc.
    tauto.
  - rewrite map_id_not_found_rows. intros Hc. apply filter_In in Hc.
    destruct Hc as [Hc _].
    apply (proj1 (completed_in completion_order completion_order_perm b id)) in Hc.
    tauto.
Qed.

Lemma tq_storable_incl (l b : list Z) :
  tq_batch_storable scrub net l = true ->
  incl b l ->
  tq_batch_storable scrub net (completion_order b) = true.
Proof.
  unfold tq_batch_storable. rewrite !forallb_forall. intros Hl Hb x Hx.
  apply Hl, Hb. apply (completed_in completion_order completion_order_perm), Hx.
Qed.

(** The loop of batches completes when the driver accepts the records of
    the ids selected. *)
Lemma tq_run_returns (ids : list Z) (s : db) :
  tq_batch_storable scrub net ids = true ->
  exists s',
    foldM (TikiQueue.run_batch scrub completion_order net) (batches BATCH_SIZE ids) s
    = Returned s'.
Proof.
  intros Hst. apply foldM_returns. intros a b Hb.
  apply tq_run_batch_ok. apply (tq_storable_incl ids b Hst).
  apply (batch_incl BATCH_SIZE); [unfold BATCH_SIZE; lia | exact Hb].
Qed.

Lemma tq_queue_at_start_pk (q : queue) (input : list Z) :
  pk_queue q -> pk_queue (tq_queue_at_start q input).
Proof.
  intros Hpk. unfold tq_queue_at_start.
  destruct (List.length q =? 0)%nat; [apply tq_init_spec, Hpk | exact Hpk].
Qed.

(** X9.  A run of the second script, on a queue whose primary key is
    unique and for ids whose records the driver accepts, completes, and
    only the ids fetched successfully leave the work list.  Every id
    that was selected ('pending' or 'error') ends 'done' when its fetch
    returned a record, 'error' with the reason "404 Not Found" when it
    raised, and keeps its row when the fetch gave up; so the ids selected
    by the next run are exactly those selected by this one whose fetch
    did not return a record. *)
Theorem tiki_queue_run_outstanding (input : list Z) (s : db) :
  pk_queue (tiki_queue s) ->
  tq_batch_storable scrub net
    (TikiQueue.fetch_pending_or_error_ids (tq_queue_at_start (tiki_queue s) input))
  = true ->
  exists s',
    TikiQueue.main scrub completion_order net input s = Returned s'
    /\ (forall id,
           In id (TikiQueue.fetch_pending_or_error_ids
                    (tq_queue_at_start (tiki_queue s) input)) ->
           find_qrow (tiki_queue s') id
           = tq_row_after scrub net id
               (find_qrow (tq_queue_at_start (tiki_queue s) input) id))
    /\ (forall id,
           In id (TikiQueue.fetch_pending_or_error_ids (tiki_queue s'))
           <-> In id (TikiQueue.fetch_pending_or_error_ids
                        (tq_queue_at_start (tiki_queue s) input))
               /\ tq_is_good (tq_result scrub net id) = false).
Proof.
  intros Hpk Hst. unfold TikiQueue.main. fold (tq_queue_at_start (tiki_queue s) input).
  set (q1 := tq_queue_at_start (tiki_queue s) input) in *.
  set (s1 := mk_db q1 (tiki_product s) (tiki_error s)).
  set (bs := batches BATCH_SIZE (TikiQueue.fetch_pending_or_error_ids q1)).
  destruct (tq_run_returns (TikiQueue.fetch_pending_or_error_ids q1) s1 Hst)
    as [s' Hrun].
  fold bs in Hrun. exists s'.
  split; [exact Hrun|].
  pose proof (tq_queue_at_start_pk (tiki_queue s) input Hpk) as Hpk1. fold q1 in Hpk1.
  assert (Hcat : List.concat bs = TikiQueue.fetch_pending_or_error_ids q1).
  { apply concat_batches. unfold BATCH_SIZE. lia. }
  assert (Hids : map q_id (tiki_queue s') = map q_id q1).
  { apply (loop_ids (TikiQueue.run_batch scrub completion_order net) tq_step_ids
             bs s1 s' Hrun). }
  assert (Hpk' : pk_queue (tiki_queue s')) by (unfold pk_queue; rewrite Hids; exact Hpk1).
  assert (Hrow : forall id, In id (TikiQueue.fetch_pending_or_error_ids q1) ->
                            find_qrow (tiki_queue s') id
                            = tq_row_after scrub net id (find_qrow q1 id)).
  { intros id Hin.
    apply (loop_row (TikiQueue.run_batch scrub completion_order net)
             (tq_row_after scrub net)
             (tq_batch_other scrub completion_order completion_order_perm net)
             tq_step_ids tq_step_row tq_step_tables bs id s1 s').
    - rewrite Hcat. apply NoDup_selected, Hpk1.
    - rewrite Hcat. exact Hin.
    - apply (pending_or_error_selected q1 id Hpk1) in Hin.
      destruct Hin as [H|H]; eapply status_is_has; eauto.
    - exact Hrun. }
  split; [exact Hrow|].
  intros id. split.
  - intros Hin. apply (pending_or_error_selected _ id Hpk') in Hin.
    destruct (in_dec Z.eq_dec id (TikiQueue.fetch_pending_or_error_ids q1)) as [Hp|Hnp].
    + split; [exact Hp|]. pose proof (Hrow id Hp) as Hr. unfold tq_row_after in Hr.
      destruct (tq_result scrub net id) as [[r|]|e]; try reflexivity.
      unfold status_is in Hin. rewrite Hr in Hin.
      destruct Hin as [[r' [Hr' Hst']]|[r' [Hr' Hst']]]; inversion Hr'; subst r';
        discriminate.
    + exfalso. apply Hnp. rewrite <- Hcat in Hnp.
      destruct (loop_other (TikiQueue.run_batch scrub completion_order net)
                  (tq_batch_other scrub completion_order completion_order_perm net)
                  tq_step_tables bs id s1 s' Hnp Hrun) as [Hq _].
      unfold status_is in Hin. rewrite Hq in Hin. cbn [s1 tiki_queue] in Hin.
      apply (pending_or_error_selected q1 id Hpk1). exact Hin.
  - intros [Hp Hng]. apply (pending_or_error_selected _ id Hpk').
    pose proof (Hrow id Hp) as Hr. unfold tq_row_after in Hr.
    unfold status_is. rewrite Hr.
    destruct (tq_result scrub net id) as [[r|]|e]; [discriminate| |].
    + apply (pending_or_error_selected q1 id Hpk1), Hp.
    + right. eexists. split; reflexivity.
Qed.

(** X10.  The second script enqueues ids only on an empty queue.  After
    a run that found rows in the queue, the queue holds the ids it held
    before, whatever the input file holds: an id that is new in the file
    is not added.  After a run that found the queue empty, the queue
    holds the ids of the file, each once. *)
Theorem tiki_queue_enqueues_once (input : list Z) (s s' : db) :
  TikiQueue.main scrub completion_order net input s = Returned s' ->
  (forall id,
      has_qrow (tiki_queue s') id = true
      <-> match tiki_queue s with
          | [] => In id input
          | _ :: _ => has_qrow (tiki_queue s) id = true
          end)
  /\ List.length (tiki_queue s')
     = match tiki_queue s with
       | [] => List.length (dedup input)
       | _ :: _ => List.length (tiki_queue s)
       end.
Proof.
  unfold TikiQueue.main.
  set (q1 := if (List.length (tiki_queue s) =? 0)%nat
             then TikiQueue.init_queue (tiki_queue s) (dedup input)
             else tiki_queue s).
  intros Hrun.
  pose proof (loop_ids (TikiQueue.run_batch scrub completion_order net) tq_step_ids
                _ _ s' Hrun) as Hids.
  cbn [tiki_queue] in Hids.
  assert (Hq1 : map q_id q1 = match tiki_queue s with
                              | [] => dedup input
                              | _ :: _ => map q_id (tiki_queue s)
                              end).
  { unfold q1. destruct (tiki_queue s) as [|r q]; cbn; [|reflexivity].
    unfold TikiQueue.init_queue.
    rewrite insert_pending_fold_fresh; [reflexivity | apply dedup_NoDup | reflexivity]. }
  split.
  - intros id. rewrite (has_qrow_same_ids q1 (tiki_queue s') id Hids).
    rewrite has_qrow_in, Hq1.
    destruct (tiki_queue s) as [|r q].
    + apply dedup_in.
    + symmetry. apply has_qrow_in.
  - rewrite <- (length_map q_id (tiki_queue s')), Hids, Hq1.
    destruct (tiki_queue s); [reflexivity | apply length_map].
Qed.

Lemma tq_done_untouched (input : list Z) (s s' : db) (id : Z) :
  pk_queue (tiki_queue s) ->
  status_is (tiki_queue s) id "done" ->
  TikiQueue.main scrub completion_order net input s = Returned s' ->
  find_qrow (tiki_queue s') id = find_qrow (tiki_queue s) id
  /\ find_row (tiki_product s') id = find_row (tiki_product s) id
  /\ find_row (tiki_error s') id = find_row (tiki_error s) id.
Proof.
  intros Hpk Hst Hrun. unfold TikiQueue.main in Hrun.
  assert (Hq1 : (if (List.length (tiki_queue s) =? 0)%nat
                 then TikiQueue.init_queue (tiki_queue s) (dedup input)
                 else tiki_queue s) = tiki_queue s).
  { destruct (tiki_queue s) as [|r q] eqn:E; [|reflexivity].
    destruct Hst as [r [Hr _]]. discriminate. }
  rewrite Hq1 in Hrun.
  assert (Hn : ~ In id (List.concat (batches BATCH_SIZE
                          (TikiQueue.fetch_pending_or_error_ids (tiki_queue s))))).
  { rewrite concat_batches by (unfold BATCH_SIZE; lia). intros Hin.
    apply (pending_or_error_selected _ id Hpk) in Hin.
    destruct Hin as [H|H]; pose proof (status_is_unique _ _ _ _ Hst H); discriminate. }
  destruct (loop_other (TikiQueue.run_batch scrub completion_order net)
              (tq_batch_other scrub completion_order completion_order_perm net)
              tq_step_tables _ id _ s' Hn Hrun) as [Hq [Hp He]].
  cbn [tiki_queue tiki_product tiki_error] in *. auto.
Qed.

End TikiQueueRun.

Lemma tiki_queue_enqueues_once_witness :
  TikiQueue.main keep in_order net_404 [4; 5] db_123 = Returned db_123_not_found
  /\ (forall id,
         has_qrow (tiki_queue db_123_not_found) id = true
         <-> has_qrow (tiki_queue db_123) id = true)
  /\ List.length (tiki_queue db_123_not_found) = List.length (tiki_queue db_123).
Proof.
  split; [reflexivity|].
  apply (tiki_queue_enqueues_once keep in_order net_404 [4; 5] db_123 db_123_not_found).
  reflexivity.
Defined.

(** X11.  No double processing.  A run that returns has not fetched or
    rewritten any id whose status was 'done': its queue row, its row in
    success storage and its row in error storage are after the run what
    they were before.  In the first script the same holds for an id
    whose status was 'error', which that script never selects again. *)
Theorem settled_rows_untouched (scrub : string -> string)
  (completion_order : list Z -> list Z) (net : network) (input : list Z) (s : db)
  (id : Z) (st : string) :
  (forall l, Permutation (completion_order l) l) ->
  pk_queue (tiki_queue s) ->
  status_is (tiki_queue s) id st ->
  st = "done" \/ st = "error" ->
  (forall s',
      Main.main scrub completion_order net input s = Returned s' ->
      find_qrow (tiki_queue s') id = find_qrow (tiki_queue s) id
      /\ find_row (tiki_product s') id = find_row (tiki_product s) id
      /\ find_row (tiki_error s') id = find_row (tiki_error s) id)
  /\ (st = "done" ->
      forall s',
        TikiQueue.main scrub completion_order net input s = Returned s' ->
        find_qrow (tiki_queue s') id = find_qrow (tiki_queue s) id
        /\ find_row (tiki_product s') id = find_row (tiki_product s) id
        /\ find_row (tiki_error s') id = find_row (tiki_error s) id).
Proof.
  intros Hperm Hpk Hst Hcase. split.
  - intros s' Hrun.
    apply (main_settled_untouched scrub completion_order Hperm net input s s' id st);
      auto.
    destruct Hcase as [-> | ->]; discriminate.
  - intros -> s' Hrun.
    apply (tq_done_untouched scrub completion_order Hperm net input s s' id); auto.
Qed.

Lemma settled_rows_untouched_witness :
  (Main.main keep in_order net_2_fails [1; 2] db_1_done = Returned db_1_done_2_failed
   /\ find_qrow (tiki_queue db_1_done_2_failed) 1 = find_qrow (tiki_queue db_1_done) 1
   /\ find_row (tiki_product db_1_done_2_failed) 1 = find_row (tiki_product db_1_done) 1
   /\ find_row (tiki_error db_1_done_2_failed) 1 = find_row (tiki_error db_1_done) 1)
  /\ (TikiQueue.main keep in_order net_404 [4; 5] db_123 = Returned db_123_not_found
      /\ find_qrow (tiki_queue db_123_not_found) 1 = find_qrow (tiki_queue db_123) 1
      /\ find_row (tiki_product db_123_not_found) 1 = find_row (tiki_product db_123) 1
      /\ find_row (tiki_error db_123_not_found) 1 = find_row (tiki_error db_123) 1).
Proof.
  split.
  - split; [reflexivity|].
    apply (proj1 (settled_rows_untouched keep in_order net_2_fails [1; 2] db_1_done 1
                    "done" (fun l => Permutation_refl (in_order l))
                    ltac:(unfold pk_queue; simpl; repeat constructor; simpl; tauto)
                    ltac:(eexists; split; reflexivity) (or_introl eq_refl))).
    reflexivity.
  - split; [reflexivity|].
    apply (proj2 (settled_rows_untouched keep in_order net_404 [4; 5] db_123 1
                    "done" (fun l => Permutation_refl (in_order l))
                    ltac:(unfold pk_queue; simpl; repeat constructor; simpl;
                          intuition discriminate)
                    ltac:(eexists; split; reflexivity) (or_introl eq_refl))
             eq_refl).
    reflexivity.
Defined.

(** ** Success storage and queue status *)

Section ProductRows.

Variable scrub : string -> string.
Variable completion_order : list Z -> list Z.
Hypothesis completion_order_perm : forall l, Permutation (completion_order l) l.

Lemma status_append_inv (q extra : queue) (id : Z) (st : string) :
  Forall (fun r => q_status r = "pending") extra ->
  st <> "pending" ->
  status_is (q ++ extra) id st -> status_is q id st.
Proof.
  intros Hall Hne [r [Hr Hst]]. rewrite find_qrow_app in Hr.
  destruct (find_qrow q id) as [r0|] eqn:E.
  - inversion Hr; subst r0. exists r. auto.
  - apply find_qrow_in in Hr. rewrite Forall_forall in Hall.
    rewrite (Hall r Hr) in Hst. congruence.
Qed.

Lemma init_product_rows (init : queue -> list Z -> queue) (s : db) (ids : list Z) :
  init_spec init (tiki_queue s) ids ->
  product_rows_done s ->
  product_rows_done (mk_db (init (tiki_queue s) ids) (tiki_product s) (tiki_error s)).
Proof.
  intros [[extra [Heq Hall]] _] Hinv id. cbn [tiki_product tiki_queue].
  rewrite Heq. rewrite (Hinv id). split.
  - apply status_is_append.
  - apply status_append_inv; [|discriminate].
    eapply Forall_impl; [|exact Hall]. simpl. tauto.
Qed.

Lemma main_batch_product_rows (net : network) (s s' : db) (batch : list Z) :
  pk_queue (tiki_queue s) ->
  product_rows_done s ->
  incl batch (Main.fetch_pending_ids (tiki_queue s)) ->
  Main.run_batch scrub completion_order net s batch = Returned s' ->
  product_rows_done s'.
Proof.
  intros Hpk Hinv Hincl Hrun id.
  assert (Hpending : forall x, In x batch -> status_is (tiki_queue s) x "pending").
  { intros x Hx. apply (pending_selected (tiki_queue s) x Hpk), Hincl, Hx. }
  pose proof (main_step_ids scrub completion_order net s s' batch Hrun) as Hids.
  assert (Hprod : has_row (tiki_product s') id = true
                  <-> has_row (tiki_product s) id = true
                      \/ In id (main_good_ids scrub net (completion_order batch))).
  { pose proof Hrun as H. apply main_run_batch_inv in H. destruct H as [Hst H].
    rewrite H. cbn [tiki_product]. rewrite has_row_fold.
    destruct (main_goods_values scrub net (completion_order batch) Hst) as [_ Hg].
    rewrite Hg. reflexivity. }
  destruct (in_dec Z.eq_dec id batch) as [Hin|Hout].
  - pose proof (Hpending id Hin) as Hp.
    pose proof (main_step_row scrub completion_order completion_order_perm net
                  s s' batch id Hin (status_is_has _ _ _ Hp) Hrun) as Hrow.
    assert (Hnot : has_row (tiki_product s) id <> true).
    { intros H. apply Hinv in H. pose proof (status_is_unique _ _ _ _ H Hp).
      discriminate. }
    rewrite Hprod. unfold status_is. rewrite Hrow. unfold main_row_after, main_good_ids.
    rewrite filter_In.
    rewrite (completed_in completion_order completion_order_perm batch id).
    destruct (is_some (main_found scrub net id)); split.
    + intros _. eexists. split; reflexivity.
    + intros _. right. auto.
    + intros [H|[_ H]]; [tauto | discriminate].
    + intros [r [Hr Hst]]. inversion Hr; subst r. discriminate.
  - rewrite Hprod. unfold status_is.
    rewrite (main_batch_other scrub completion_order completion_order_perm net
               s s' batch id Hout Hrun).
    fold (status_is (tiki_queue s) id "done"). rewrite <- (Hinv id). split; [|auto].
    intros [H|H]; [exact H|]. apply filter_In in H. destruct H as [H _].
    apply (proj1 (completed_in completion_order completion_order_perm batch id)) in H.
    tauto.
Qed.

Lemma tq_batch_product_rows (net : network) (s s' : db) (batch : list Z) :
  pk_queue (tiki_queue s) ->
  product_rows_done s ->
  incl batch (TikiQueue.fetch_pending_or_error_ids (tiki_queue s)) ->
  TikiQueue.run_batch scrub completion_order net s batch = Returned s' ->
  product_rows_done s'.
Proof.
  intros Hpk Hinv Hincl Hrun id.
  assert (Hsel : forall x, In x batch ->
                           status_is (tiki_queue s) x "pending"
                           \/ status_is (tiki_queue s) x "error").
  { intros x Hx. apply (pending_or_error_selected (tiki_queue s) x Hpk), Hincl, Hx. }
  assert (Hprod : has_row (tiki_product s') id = true
                  <-> has_row (tiki_product s) id = true
                      \/ In id (tq_good_ids scrub net (completion_order batch))).
  { pose proof Hrun as H. apply tq_run_batch_inv in H. destruct H as [Hst H].
    rewrite H. cbn [tiki_product]. rewrite has_row_fold.
    destruct (tq_goods_values scrub net (completion_order batch) Hst) as [_ Hg].
    rewrite Hg. reflexivity. }
  destruct (in_dec Z.eq_dec id batch) as [Hin|Hout].
  - assert (Hnd : ~ status_is (tiki_queue s) id "done").
    { intros H. destruct (Hsel id Hin) as [H'|H'];
        pose proof (status_is_unique _ _ _ _ H H'); discriminate. }
    assert (Hh : has_qrow (tiki_queue s) id = true).
    { destruct (Hsel id Hin) as [H'|H']; eapply status_is_has; eauto. }
    pose proof (tq_step_row scrub completion_order completion_order_perm net
                  s s' batch id Hin Hh Hrun) as Hrow.
    assert (Hnot : has_row (tiki_product s) id <> true).
    { intros H. apply Hinv in H. tauto. }
    rewrite Hprod. unfold tq_good_ids. rewrite filter_In.
    rewrite (completed_in completion_order completion_order_perm batch id).
    unfold status_is at 1. rewrite Hrow. unfold tq_row_after.
    destruct (tq_result scrub net id) as [[r|]|e]; cbn [tq_is_good]; split.
    + intros _. eexists. split; reflexivity.
    + intros _. right. auto.
    + intros [H|[_ H]]; [tauto | discriminate].
    + intros H. exfalso. apply Hnd. exact H.
    + intros [H|[_ H]]; [tauto | discriminate].
    + intros [r [Hr Hst]]. inversion Hr; subst r. discriminate.
  - rewrite Hprod. unfold status_is.
    rewrite (tq_batch_other scrub completion_order completion_order_perm net
               s s' batch id Hout Hrun).
    fold (status_is (tiki_queue s) id "done"). rewrite <- (Hinv id). split; [|auto].
    intros [H|H]; [exact H|]. apply filter_In in H. destruct H as [H _].
    apply (proj1 (completed_in completion_order completion_order_perm batch id)) in H.
    tauto.
Qed.

Lemma main_reachable_marked (s : db) :
  main_reachable scrub completion_order s -> error_rows_marked s.
Proof.
  induction 1 as [|s ids Hr IH|s s' net batch Hr IH Hincl Hrun].
  - intros id H. discriminate.
  - intros id H. cbn [tiki_error tiki_queue] in *.
    destruct (insert_pending_fold_app (dedup ids) (tiki_queue s)) as [extra [Heq _]].
    unfold Main.init_queue. rewrite Heq. apply status_is_append, IH, H.
  - eapply (main_batch_marked scrub completion_order completion_order_perm); eauto.
    apply (main_reachable_pk scrub completion_order), Hr.
Qed.

Lemma main_reachable_keyed (s : db) :
  main_reachable scrub completion_order s ->
  pk_table (tiki_product s) /\ pk_table (tiki_error s).
Proof.
  induction 1 as [|s ids Hr IH|s s' net batch Hr IH Hincl Hrun].
  - split; constructor.
  - exact IH.
  - apply main_run_batch_inv in Hrun. destruct Hrun as [_ ->].
    cbn [tiki_product tiki_error]. split; apply pk_fold_upsert; tauto.
Qed.

Lemma tq_reachable_keyed (s : db) :
  tq_reachable scrub completion_order s ->
  pk_table (tiki_product s) /\ pk_table (tiki_error s).
Proof.
  induction 1 as [|s ids Hr IH|s s' net batch Hr IH Hincl Hrun].
  - split; constructor.
  - exact IH.
  - apply tq_run_batch_inv in Hrun. destruct Hrun as [_ ->].
    cbn [tiki_product tiki_error]. split; apply pk_fold_upsert; tauto.
Qed.

(** X12.  Between the batches of any number of runs of either script,
    started on empty tables: the ids with a row in success storage are
    exactly the ids whose queue status is 'done'; no table ever holds two
    rows for one id; and, in the first script, no id has a row both in
    success storage and in error storage. *)
Theorem storage_invariants (s : db) :
  (main_reachable scrub completion_order s ->
   product_rows_done s /\ tables_keyed s /\ storage_disjoint s)
  /\ (tq_reachable scrub completion_order s ->
      product_rows_done s /\ tables_keyed s).
Proof.
  split.
  - intros Hr.
    assert (Hdone : product_rows_done s).
    { induction Hr as [|s ids Hr IH|s s' net batch Hr IH Hincl Hrun].
      - intros id. split; [discriminate | intros [r [H _]]; discriminate].
      - apply init_product_rows; [|exact IH].
        apply main_init_spec, (main_reachable_pk scrub completion_order), Hr.
      - eapply main_batch_product_rows; eauto.
        apply (main_reachable_pk scrub completion_order), Hr. }
    split; [exact Hdone|]. split.
    + split; [apply (main_reachable_pk scrub completion_order), Hr
             | apply main_reachable_keyed, Hr].
    + intros id Hp. destruct (has_row (tiki_error s) id) eqn:He; [|reflexivity].
      apply Hdone in Hp. apply (main_reachable_marked s Hr) in He.
      pose proof (status_is_unique _ _ _ _ Hp He). discriminate.
  - intros Hr. split.
    + induction Hr as [|s ids Hr IH|s s' net batch Hr IH Hincl Hrun].
      * intros id. split; [discriminate | intros [r [H _]]; discriminate].
      * apply init_product_rows; [|exact IH].
        apply tq_init_spec, (tq_reachable_pk scrub completion_order), Hr.
      * eapply tq_batch_product_rows; eauto.
        apply (tq_reachable_pk scrub completion_order), Hr.
    + split; [apply (tq_reachable_pk scrub completion_order), Hr
             | apply tq_reachable_keyed, Hr].
Qed.

End ProductRows.

(** ** The summary of a run *)

Lemma filter_length_perm {A : Type} (f : A -> bool) (l l' : list A) :
  Permutation l l' -> List.length (filter f l) = List.length (filter f l').
Proof.
  induction 1 as [|x l l' _ IH|x y l|l l' l'' _ IH1 _ IH2]; cbn [filter].
  - reflexivity.
  - destruct (f x); cbn [List.length]; lia.
  - destruct (f x), (f y); reflexivity.
  - lia.
Qed.

Lemma concat_map_perm {A : Type} (g : list A -> list A) (bs : list (list A)) :
  (forall l, Permutation (g l) l) ->
  Permutation (List.concat (map g bs)) (List.concat bs).
Proof.
  intros Hg. induction bs as [|b bs IH]; cbn [map List.concat]; [constructor|].
  apply Permutation_app; [apply Hg | exact IH].
Qed.

Lemma filter_three_lengths {A : Type} (f g h : A -> bool) (l : list A) :
  (forall x, (if f x then 1 else 0) + (if g x then 1 else 0) + (if h x then 1 else 0) = 1)%nat ->
  (List.length (filter f l) + List.length (filter g l) + List.length (filter h l)
   = List.length l)%nat.
Proof.
  intros H. induction l as [|x l IH]; [reflexivity|]. cbn [filter].
  specialize (H x). destruct (f x), (g x), (h x); cbn [List.length] in *; lia.
Qed.

Section Summaries.

Variable scrub : string -> string.
Variable completion_order : list Z -> list Z.
Hypothesis completion_order_perm : forall l, Permutation (completion_order l) l.
Variable net : network.

Lemma main_batch_totals_eq (s : db) (g e : list pydict) (batch : list Z) :
  main_batch_storable scrub net (completion_order batch) = true ->
  exists s',
    Main.run_batch scrub completion_order net s batch = Returned s'
    /\ main_batch_totals scrub completion_order net (s, (g, e)) batch
       = Returned (s', (g ++ main_goods scrub net (completion_order batch),
                        e ++ map Main.failure_record
                               (main_error_ids scrub net (completion_order batch)))).
Proof.
  intros Hst. eexists. split; [rewrite main_run_batch_eq, Hst; reflexivity|].
  destruct (main_goods_values scrub net (completion_order batch) Hst) as [Hvs Hids].
  rewrite main_batch_storable_split in Hst. apply andb_true_iff in Hst.
  unfold main_batch_totals, Main.process_batch.
  rewrite main_process_loop_counter. cbn [bind fst snd app].
  rewrite !main_insert_batch_eq. unfold executemany_upsert.
  rewrite Hvs, failure_records_values, (proj2 Hst). cbn [bind].
  rewrite main_goods_ids, failure_records_ids. reflexivity.
Qed.

Lemma main_totals_fold (bs : list (list Z)) :
  (forall b, In b bs -> main_batch_storable scrub net (completion_order b) = true) ->
  forall s g e, exists s',
    foldM (Main.run_batch scrub completion_order net) bs s = Returned s'
    /\ foldM (main_batch_totals scrub completion_order net) bs (s, (g, e))
       = Returned (s', (g ++ main_goods scrub net (List.concat (map completion_order bs)),
                        e ++ map Main.failure_record
                               (main_error_ids scrub net
                                  (List.concat (map completion_order bs))))).
Proof.
  induction bs as [|b bs IH]; intros Hst s g e; cbn [foldM map List.concat].
  - exists s. unfold main_goods, main_error_ids. cbn [flat_map filter map].
    rewrite !app_nil_r. split; reflexivity.
  - destruct (main_batch_totals_eq s g e b (Hst b (or_introl eq_refl))) as [s1 [H1 H2]].
    rewrite H1, H2. cbn [bind].
    destruct (IH (fun b0 Hb0 => Hst b0 (or_intror Hb0)) s1
                (g ++ main_goods scrub net (completion_order b))
                (e ++ map Main.failure_record
                        (main_error_ids scrub net (completion_order b))))
      as [s' [H3 H4]].
    exists s'. split; [exact H3|]. rewrite H4.
    unfold main_goods, main_error_ids.
    rewrite flat_map_app, filter_app, map_app, <- !app_assoc. reflexivity.
Qed.

Lemma tq_goods_length (l : list Z) :
  List.length (tq_goods scrub net l) = List.length (tq_good_ids scrub net l).
Proof.
  unfold tq_goods, tq_good_ids.
  induction l as [|pid l IH]; [reflexivity|]. cbn [flat_map filter].
  destruct (tq_result scrub net pid) as [[r|]|e]; cbn [tq_is_good app List.length]; lia.
Qed.

Lemma tq_batch_totals_eq (s : db) (g e : nat) (batch : list Z) :
  tq_batch_storable scrub net (completion_order batch) = true ->
  exists s',
    TikiQueue.run_batch scrub completion_order net s batch = Returned s'
    /\ tq_batch_totals scrub completion_order net (s, (g, e)) batch
       = Returned (s', (g + List.length (tq_good_ids scrub net (completion_order batch)),
                        e + List.length (tq_error_ids scrub net (completion_order batch)))%nat).
Proof.
  intros Hst. eexists. split; [rewrite tq_run_batch_eq, Hst; reflexivity|].
  destruct (tq_goods_values scrub net (completion_order batch) Hst) as [Hvs Hids].
  rewrite tq_batch_storable_split in Hst. apply andb_true_iff in Hst.
  unfold tq_batch_totals, TikiQueue.process_batch.
  rewrite tq_process_loop. cbn [fst snd app].
  rewrite !tq_insert_batch_eq. unfold executemany_upsert.
  rewrite Hvs, not_found_records_values, (proj2 Hst). cbn [bind].
  rewrite tq_goods_ids. cbn [bind fst snd].
  rewrite length_map, tq_goods_length. reflexivity.
Qed.

Lemma tq_totals_fold (bs : list (list Z)) :
  (forall b, In b bs -> tq_batch_storable scrub net (completion_order b) = true) ->
  forall s g e, exists s',
    foldM (TikiQueue.run_batch scrub completion_order net) bs s = Returned s'
    /\ foldM (tq_batch_totals scrub completion_order net) bs (s, (g, e))
       = Returned (s', (g + List.length
                              (tq_good_ids scrub net (List.concat (map completion_order bs))),
                        e + List.length
                              (tq_error_ids scrub net
                                 (List.concat (map completion_order bs))))%nat).
Proof.
  induction bs as [|b bs IH]; intros Hst s g e; cbn [foldM map List.concat].
  - exists s. cbn. rewrite !Nat.add_0_r. split; reflexivity.
  - destruct (tq_batch_totals_eq s g e b (Hst b (or_introl eq_refl))) as [s1 [H1 H2]].
    rewrite H1, H2. cbn [bind].
    destruct (IH (fun b0 Hb0 => Hst b0 (or_intror Hb0)) s1
                (g + List.length (tq_good_ids scrub net (completion_order b)))%nat
                (e + List.length (tq_error_ids scrub net (completion_order b)))%nat)
      as [s' [H3 H4]].
    exists s'. split; [exact H3|]. rewrite H4.
    unfold tq_good_ids, tq_error_ids.
    rewrite !filter_app, !length_app, !Nat.add_assoc. reflexivity.
Qed.

Lemma completed_batches_length (f : Z -> bool) (ids : list Z) :
  List.length (filter f (List.concat (map completion_order (batches BATCH_SIZE ids))))
  = List.length (filter f ids).
Proof.
  rewrite (filter_length_perm f _ (List.concat (batches BATCH_SIZE ids)))
    by (apply concat_map_perm, completion_order_perm).
  rewrite concat_batches by (unfold BATCH_SIZE; lia). reflexivity.
Qed.

(** X13.  The summary printed at the end of a run, for ids whose records
    the driver accepts.  In the first script [Completed] counts the
    selected ids whose fetch produced a record and [Errors] all the
    others, so the two add up to [Total Records Processed].  In the
    second script [Completed] counts the ids fetched successfully and
    [Errors] only the ids answered 404: the two fall short of the total
    by the number of ids whose fetch gave up without a record.  The
    database either run leaves is the one of [main]. *)
Theorem run_summaries (input : list Z) (s : db) :
  (main_batch_storable scrub net
     (Main.fetch_pending_ids (Main.init_queue (tiki_queue s) input)) = true ->
   exists s' sm,
      main_with_summary scrub completion_order net input s = Returned (s', sm)
      /\ Main.main scrub completion_order net input s = Returned s'
      /\ total_processed sm
         = List.length (Main.fetch_pending_ids (Main.init_queue (tiki_queue s) input))
      /\ total_good sm
         = List.length
             (main_good_ids scrub net
                (Main.fetch_pending_ids (Main.init_queue (tiki_queue s) input)))
      /\ (total_good sm + total_error sm = total_processed sm)%nat)
  /\ (tq_batch_storable scrub net
        (TikiQueue.fetch_pending_or_error_ids (tq_queue_at_start (tiki_queue s) input))
      = true ->
      exists s' sm,
         tq_with_summary scrub completion_order net input s = Returned (s', sm)
         /\ TikiQueue.main scrub completion_order net input s = Returned s'
         /\ total_processed sm
            = List.length
                (TikiQueue.fetch_pending_or_error_ids
                   (tq_queue_at_start (tiki_queue s) input))
         /\ total_good sm
            = List.length
                (tq_good_ids scrub net
                   (TikiQueue.fetch_pending_or_error_ids
                      (tq_queue_at_start (tiki_queue s) input)))
         /\ total_error sm
            = List.length
                (tq_error_ids scrub net
                   (TikiQueue.fetch_pending_or_error_ids
                      (tq_queue_at_start (tiki_queue s) input)))
         /\ (total_good sm + total_error sm
             + List.length
                 (filter (fun pid => tq_is_exhausted (tq_result scrub net pid))
                    (TikiQueue.fetch_pending_or_error_ids
                       (tq_queue_at_start (tiki_queue s) input)))
             = total_processed sm)%nat).
Proof.
  split.
  - intros Hst. unfold main_with_summary, Main.main. cbn [tiki_queue].
    set (pending := Main.fetch_pending_ids (Main.init_queue (tiki_queue s) input)) in *.
    destruct (main_totals_fold (batches BATCH_SIZE pending)
                (fun b Hb =>
                   main_storable_incl scrub completion_order completion_order_perm net
                     pending b Hst
                     (batch_incl BATCH_SIZE pending b
                        ltac:(unfold BATCH_SIZE; lia) Hb))
                (mk_db (Main.init_queue (tiki_queue s) input)
                   (tiki_product s) (tiki_error s)) [] [])
      as [s' [H1 H2]].
    rewrite H1, H2. cbn [bind fst snd app].
    eexists. eexists. split; [reflexivity|]. split; [reflexivity|].
    cbn [total_processed total_good total_error].
    rewrite main_goods_length, length_map. unfold main_good_ids, main_error_ids.
    rewrite !completed_batches_length.
    split; [reflexivity|]. split; [reflexivity|].
    pose proof (filter_split_perm (fun pid => is_some (main_found scrub net pid)) pending)
      as Hp.
    apply Permutation_length in Hp. rewrite length_app in Hp. exact Hp.
  - intros Hst. unfold tq_with_summary, TikiQueue.main.
    fold (tq_queue_at_start (tiki_queue s) input).
    set (pending := TikiQueue.fetch_pending_or_error_ids
                      (tq_queue_at_start (tiki_queue s) input)) in *.
    destruct (tq_totals_fold (batches BATCH_SIZE pending)
                (fun b Hb =>
                   tq_storable_incl scrub completion_order completion_order_perm net
                     pending b Hst
                     (batch_incl BATCH_SIZE pending b
                        ltac:(unfold BATCH_SIZE; lia) Hb))
                (mk_db (tq_queue_at_start (tiki_queue s) input)
                   (tiki_product s) (tiki_error s)) 0%nat 0%nat)
      as [s' [H1 H2]].
    rewrite H1, H2. cbn [bind fst snd Nat.add].
    eexists. eexists. split; [reflexivity|]. split; [reflexivity|].
    cbn [total_processed total_good total_error].
    unfold tq_good_ids, tq_error_ids. rewrite !completed_batches_length.
    split; [reflexivity|]. split; [reflexivity|]. split; [reflexivity|].
    apply filter_three_lengths. intros x.
    destruct (tq_result scrub net x) as [[r|]|e]; reflexivity.
Qed.

End Summaries.

(** ** The list of missing fields in the two scripts *)

Lemma null_or_empty_falsy (v : pyval) : null_or_empty v = true -> truthy v = false.
Proof.
  destruct v; simpl; try discriminate; auto. intros ->. reflexivity.
Qed.

Lemma with_missing_other (im1 im2 : pyval -> bool) (pid : Z)
  (name description : string) (url_key price img : pyval) (k : string) :
  k <> "missing_fields"%string ->
  dict_get (with_missing im1
              [ ("id", PInt pid); ("name", PStr name); ("url_key", url_key);
                ("price", price); ("description", PStr description);
                ("image_url", img) ]) k
  = dict_get (with_missing im2
                [ ("id", PInt pid); ("name", PStr name); ("url_key", url_key);
                  ("price", price); ("description", PStr description);
                  ("image_url", img) ]) k.
Proof.
  intros Hk. unfold with_missing.
  cbn [dict_set String.eqb Ascii.eqb Bool.eqb]. cbn [dict_get].
  repeat match goal with
         | |- context [if (?a =? k)%string then _ else _] =>
             destruct (a =? k)%string eqn:?; [reflexivity|]
         end.
  destruct ("missing_fields" =? k)%string eqn:E; [|reflexivity].
  apply String.eqb_eq in E. congruence.
Qed.

Lemma cleaned_falsy (scrub : string -> string) (v : pyval) :
  negb (truthy v) = true -> cleaned scrub v = ""%string.
Proof.
  destruct v as [| b | n | x | s | l | l]; try reflexivity.
  cbn [truthy cleaned]. destruct (s =? "")%string; [reflexivity | discriminate].
Qed.

Lemma main_fields_tq_fields (scrub : string -> string) (pid : Z) (body : option pyval) :
  main_extractable body = true -> tq_fields scrub pid body = main_fields pid body.
Proof.
  unfold main_extractable, tq_fields, main_fields, body_fields.
  destruct body as [[| | | | | |data]|]; try discriminate.
  intros H. apply andb_true_iff in H. destruct H as [H _].
  apply andb_true_iff in H. destruct H as [Hn Hd]. cbn [as_dict].
  rewrite (cleaned_falsy scrub _ Hn), (cleaned_falsy scrub _ Hd). reflexivity.
Qed.

(** X14.  For a 200 response from whose body the first script builds a
    record (name and description are falsy, the images are well formed)
    the two scripts build the same record up to [missing_fields].  The
    first script lists there, joined by commas and in declared order,
    the fields that are null or the empty string; the second script
    lists the fields whose value is falsy.  Every field the first script
    lists is listed by the second. *)
Theorem missing_fields_compared (scrub : string -> string) (pid : Z)
  (body : option pyval) :
  main_extractable body = true ->
  exists r1 r2,
    normalize scrub Main.KEPT_CHARS Main.is_missing pid body = Returned r1
    /\ normalize scrub TikiQueue.KEPT_CHARS TikiQueue.is_missing pid body = Returned r2
    /\ (forall k, k <> "missing_fields"%string -> dict_get r1 k = dict_get r2 k)
    /\ dict_get r1 "missing_fields"
       = Some (PStr (String.concat ","
                       (filter (fun k => null_or_empty (get r1 k)) DATA_FIELDS)))
    /\ dict_get r2 "missing_fields"
       = Some (PStr (String.concat ","
                       (filter (fun k => negb (truthy (get r2 k))) DATA_FIELDS)))
    /\ incl (filter (fun k => null_or_empty (get r1 k)) DATA_FIELDS)
            (filter (fun k => negb (truthy (get r2 k))) DATA_FIELDS).
Proof.
  intros Hx.
  pose proof (main_extract_eval scrub pid body) as He1. rewrite Hx in He1.
  pose proof (tq_extract_eval scrub pid body) as He2.
  rewrite (main_extractable_extractable body Hx) in He2.
  rewrite (main_fields_tq_fields scrub pid body Hx) in He2.
  assert (H1 : normalize scrub Main.KEPT_CHARS Main.is_missing pid body
               = Returned (with_missing Main.is_missing (main_fields pid body))).
  { unfold normalize. rewrite He1. reflexivity. }
  assert (H2 : normalize scrub TikiQueue.KEPT_CHARS TikiQueue.is_missing pid body
               = Returned (with_missing TikiQueue.is_missing (main_fields pid body))).
  { unfold normalize. rewrite He2. reflexivity. }
  eexists. eexists. split; [exact H1|]. split; [exact H2|].
  pose proof (with_missing_other Main.is_missing TikiQueue.is_missing pid
                ""%string ""%string
                (get (body_fields body) "url_key")
                (get (body_fields body) "price")
                (first_image (body_fields body))) as Hsame.
  fold (main_fields pid body) in Hsame.
  split; [exact Hsame|].
  split; [apply (main_missing_fields scrub pid body), H1|].
  split; [apply (tq_missing_fields scrub pid body), H2|].
  intros k Hk. apply filter_In in Hk. destruct Hk as [Hin Hnull].
  apply filter_In. split; [exact Hin|].
  assert (Hne : k <> "missing_fields"%string).
  { intros ->. unfold DATA_FIELDS in Hin. simpl in Hin.
    repeat destruct Hin as [Hin|Hin]; try discriminate. exact Hin. }
  unfold get in *. rewrite <- (Hsame k Hne).
  apply negb_true_iff, null_or_empty_falsy, Hnull.
Qed.

Lemma missing_fields_compared_witness :
  main_extractable (Some payload_unnamed_price_0) = true
  /\ exists r1 r2,
    normalize keep Main.KEPT_CHARS Main.is_missing 7 (Some payload_unnamed_price_0)
    = Returned r1
    /\ normalize keep TikiQueue.KEPT_CHARS TikiQueue.is_missing 7
         (Some payload_unnamed_price_0) = Returned r2
    /\ (forall k, k <> "missing_fields"%string -> dict_get r1 k = dict_get r2 k)
    /\ dict_get r1 "missing_fields"
       = Some (PStr (String.concat ","
                       (filter (fun k => null_or_empty (get r1 k)) DATA_FIELDS)))
    /\ dict_get r2 "missing_fields"
       = Some (PStr (String.concat ","
                       (filter (fun k => negb (truthy (get r2 k))) DATA_FIELDS)))
    /\ incl (filter (fun k => null_or_empty (get r1 k)) DATA_FIELDS)
            (filter (fun k => negb (truthy (get r2 k))) DATA_FIELDS).
Proof.
  split; [reflexivity|].
  apply (missing_fields_compared keep 7 (Some payload_unnamed_price_0)). reflexivity.
Defined.

(** ** Instances of the properties of a run *)

Lemma main_run_drains_witness :
  main_batch_storable keep net_mixed_unnamed
    (Main.fetch_pending_ids (Main.init_queue (tiki_queue db_1_done) ids_1_5)) = true
  /\ exists s',
    Main.main keep in_order net_mixed_unnamed ids_1_5 db_1_done = Returned s'
    /\ (forall id, In id ids_1_5 -> has_qrow (tiki_queue s') id = true)
    /\ (forall id,
           status_is (Main.init_queue (tiki_queue db_1_done) ids_1_5) id "pending" ->
           find_qrow (tiki_queue s') id = Some (main_row_after keep net_mixed_unnamed id))
    /\ Main.fetch_pending_ids (tiki_queue s') = [].
Proof.
  split; [reflexivity|].
  apply (main_run_drains keep in_order (fun l => Permutation_refl (in_order l))
           net_mixed_unnamed ids_1_5 db_1_done).
  - unfold pk_queue. simpl. repeat constructor. simpl. tauto.
  - reflexivity.
Defined.

Lemma tiki_queue_run_outstanding_witness :
  tq_batch_storable keep net_mixed
    (TikiQueue.fetch_pending_or_error_ids
       (tq_queue_at_start (tiki_queue empty_db) ids_1_5)) = true
  /\ exists s',
    TikiQueue.main keep in_order net_mixed ids_1_5 empty_db = Returned s'
    /\ (forall id,
           In id (TikiQueue.fetch_pending_or_error_ids
                    (tq_queue_at_start (tiki_queue empty_db) ids_1_5)) ->
           find_qrow (tiki_queue s') id
           = tq_row_after keep net_mixed id
               (find_qrow (tq_queue_at_start (tiki_queue empty_db) ids_1_5) id))
    /\ (forall id,
           In id (TikiQueue.fetch_pending_or_error_ids (tiki_queue s'))
           <-> In id (TikiQueue.fetch_pending_or_error_ids
                        (tq_queue_at_start (tiki_queue empty_db) ids_1_5))
               /\ tq_is_good (tq_result keep net_mixed id) = false).
Proof.
  split; [reflexivity|].
  apply (tiki_queue_run_outstanding keep in_order
           (fun l => Permutation_refl (in_order l)) net_mixed ids_1_5 empty_db).
  - unfold pk_queue. simpl. constructor.
  - reflexivity.
Defined.

Lemma storage_invariants_witness :
  product_rows_done db_7_failed /\ tables_keyed db_7_failed
  /\ storage_disjoint db_7_failed.
Proof.
  apply (proj1 (storage_invariants keep in_order
                  (fun l => Permutation_refl (in_order l)) db_7_failed)).
  apply (main_batch keep in_order db_7 db_7_failed net_404 [7]).
  - apply (main_init keep in_order empty_db [7]). apply main_start.
  - intros x Hx. exact Hx.
  - reflexivity.
Defined.

Lemma run_summaries_witness :
  (exists s' sm,
      main_with_summary keep in_order net_mixed_unnamed ids_1_5 empty_db
      = Returned (s', sm)
      /\ Main.main keep in_order net_mixed_unnamed ids_1_5 empty_db = Returned s'
      /\ total_processed sm = 5%nat
      /\ total_good sm = 3%nat
      /\ total_error sm = 2%nat)
  /\ (exists s' sm,
         tq_with_summary keep in_order net_mixed ids_1_5 empty_db = Returned (s', sm)
         /\ TikiQueue.main keep in_order net_mixed ids_1_5 empty_db = Returned s'
         /\ total_processed sm = 5%nat
         /\ total_good sm = 3%nat
         /\ total_error sm = 1%nat).
Proof.
  split.
  - destruct (proj1 (run_summaries keep in_order
                       (fun l => Permutation_refl (in_order l))
                       net_mixed_unnamed ids_1_5 empty_db) eq_refl)
      as [s' [sm [H1 [H2 [H3 [H4 H5]]]]]].
    exists s', sm. split; [exact H1|]. split; [exact H2|].
    split; [exact H3|]. split; [exact H4|].
    rewrite H3, H4 in H5. vm_compute in H5. vm_compute. lia.
  - destruct (proj2 (run_summaries keep in_order
                       (fun l => Permutation_refl (in_order l))
                       net_mixed ids_1_5 empty_db) eq_refl)
      as [s' [sm [H1 [H2 [H3 [H4 [H5 H6]]]]]]].
    exists s', sm. split; [exact H1|]. split; [exact H2|].
    split; [exact H3|]. split; [exact H4|]. exact H5.
Defined.

(** ** A batch of upserts *)

Lemma find_row_fold_last (vs : list prow) :
  forall (t : table) (id : Z),
    find_row (fold_left upsert_row vs t) id
    = match last_for vs id with
      | Some v => Some v
      | None => find_row t id
      end.
Proof.
  induction vs as [|v vs IH]; intros t id; cbn [fold_left]; [reflexivity|].
  rewrite IH, last_for_cons, find_row_upsert.
  destruct (last_for vs id); [reflexivity|].
  rewrite (Z.eqb_sym id (p_id v)). destruct (p_id v =? id); reflexivity.
Qed.

Lemma fold_upsert_length (vs : list prow) :
  forall t : table, (List.length t <= List.length (fold_left upsert_row vs t))%nat.
Proof.
  induction vs as [|v vs IH]; intros t; cbn [fold_left]; [lia|].
  specialize (IH (upsert_row t v)).
  assert (Hle : (List.length t <= List.length (upsert_row t v))%nat).
  { unfold upsert_row. destruct (has_row t (p_id v)).
    - rewrite length_map. lia.
    - rewrite length_app. simpl. lia. }
  lia.
Qed.

(** X15.  [insert_batch] and [insert_batch_to_db] are the same function.
    On records the driver accepts (the [id] a 64-bit integer, the text
    columns strings or null, the price a number or null) the call
    succeeds, and within a batch the last record wins: afterwards the
    row of an id is the tuple of the last record of the batch with that
    id, and the row the table had before when the batch has no record
    for it.  The ids stored are those already stored and those of the
    batch; no row is deleted and the primary key stays unique. *)
Theorem insert_batch_last_wins (t : table) (records : list pydict) (vs : list prow) :
  mapM values_of records = Returned vs ->
  exists t',
    Main.insert_batch t records = Returned t'
    /\ TikiQueue.insert_batch_to_db t records = Returned t'
    /\ (forall id,
           find_row t' id = match last_for vs id with
                            | Some v => Some v
                            | None => find_row t id
                            end)
    /\ (forall id, has_row t' id = true
                   <-> has_row t id = true \/ In id (map p_id vs))
    /\ (List.length t <= List.length t')%nat
    /\ (pk_table t -> pk_table t').
Proof.
  intros Hvs. exists (fold_left upsert_row vs t).
  rewrite main_insert_batch_eq, tq_insert_batch_eq. unfold executemany_upsert.
  rewrite Hvs. cbn [bind].
  split; [reflexivity|]. split; [reflexivity|].
  split; [apply find_row_fold_last|]. split; [intros id; apply has_row_fold|].
  split; [apply fold_upsert_length | apply pk_fold_upsert].
Qed.

Lemma insert_batch_last_wins_witness :
  exists t',
    Main.insert_batch [failure_row 7]
      [TikiQueue.not_found_record 7; base_lamp 8; base_lamp 7] = Returned t'
    /\ TikiQueue.insert_batch_to_db [failure_row 7]
         [TikiQueue.not_found_record 7; base_lamp 8; base_lamp 7] = Returned t'
    /\ (forall id,
           find_row t' id
           = match last_for [not_found_row 7;
                             mk_prow 8 (PStr "lamp") (PStr "lamp-1") (PInt 0)
                               (PStr "a lamp") (PStr "http://img/1") PNone;
                             mk_prow 7 (PStr "lamp") (PStr "lamp-1") (PInt 0)
                               (PStr "a lamp") (PStr "http://img/1") PNone] id with
             | Some v => Some v
             | None => find_row [failure_row 7] id
             end)
    /\ (forall id,
           has_row t' id = true
           <-> has_row [failure_row 7] id = true
               \/ In id (map p_id
                           [not_found_row 7;
                            mk_prow 8 (PStr "lamp") (PStr "lamp-1") (PInt 0)
                              (PStr "a lamp") (PStr "http://img/1") PNone;
                            mk_prow 7 (PStr "lamp") (PStr "lamp-1") (PInt 0)
                              (PStr "a lamp") (PStr "http://img/1") PNone]))
    /\ (List.length [failure_row 7] <= List.length t')%nat
    /\ (pk_table [failure_row 7] -> pk_table t').
Proof.
  apply (insert_batch_last_wins [failure_row 7]
           [TikiQueue.not_found_record 7; base_lamp 8; base_lamp 7]).
  reflexivity.
Defined.
